(** * FBPIC: interpolation grid and field gathering

    A shallow embedding of [fbpic/fields/interpolation_grid.py] and of
    [fbpic/particles/gathering/threading_methods.py].

    Conventions of the embedding.
    - Python floats are idealised as real numbers ([R]); complex numbers
      are pairs of reals.  Rounding is not modelled.
    - Python exceptions are values of [exn]; a computation that may raise
      returns a [result].
    - One-dimensional numpy arrays are lists, two-dimensional arrays are a
      shape together with an entry function.  Indexing follows numpy: a
      negative index counts from the end, an index outside the array raises
      [IndexError]. *)

From Stdlib Require Import Reals Lra Lia ZArith String List Bool Psatz.
Import ListNotations.

Open Scope R_scope.

(* ------------------------------------------------------------------ *)
(** * Python runtime model *)
(* ------------------------------------------------------------------ *)

Inductive exn : Type :=
| ValueError (msg : string)
| ZeroDivisionError
| AttributeError
| IndexError
| TypeError.

Inductive result (A : Type) : Type :=
| Ok (a : A)
| Raise (e : exn).
Arguments Ok {A} a.
Arguments Raise {A} e.

Definition rbind {A B : Type} (r : result A) (k : A -> result B) : result B :=
  match r with
  | Ok a => k a
  | Raise e => Raise e
  end.

Declare Scope result_scope.
Delimit Scope result_scope with result.
Notation "x <- r ;; k" := (rbind r (fun x => k))
  (at level 61, r at next level, right associativity) : result_scope.
Notation "' p <- r ;; k" := (rbind r (fun x => match x with p => k end))
  (at level 61, p pattern, r at next level, right associativity) : result_scope.

(** Python's true division of floats: [a / b] raises on a zero divisor. *)
Definition py_div (a b : R) : result R :=
  if Req_dec_T b 0 then Raise ZeroDivisionError else Ok (a / b).

(** ** Complex numbers *)

Definition complex : Type := (R * R)%type.

Definition Cre (c : complex) : R := fst c.
Definition Cim (c : complex) : R := snd c.
Definition RtoC (x : R) : complex := (x, 0).
Definition C0 : complex := (0, 0).
Definition C1 : complex := (1, 0).
Definition Cadd (a b : complex) : complex := (fst a + fst b, snd a + snd b).
Definition Csub (a b : complex) : complex := (fst a - fst b, snd a - snd b).
Definition Cmul (a b : complex) : complex :=
  (fst a * fst b - snd a * snd b, fst a * snd b + snd a * fst b).
Definition Cscale (r : R) (c : complex) : complex := (r * fst c, r * snd c).
Definition Cconj (c : complex) : complex := (fst c, - snd c).
Definition Cinv (c : complex) : complex :=
  let n := fst c * fst c + snd c * snd c in (fst c / n, - snd c / n).

(** [c ** m] for an integer exponent (a negative exponent inverts). *)
Definition Cpow (c : complex) (m : Z) : complex :=
  match m with
  | Z0 => C1
  | Zpos p => Pos.iter (Cmul c) C1 p
  | Zneg p => Cinv (Pos.iter (Cmul c) C1 p)
  end.

(** ** numpy arrays *)

(** [np.arange(n)] as floats: [0, 1, ..., n-1], empty when [n <= 0]. *)
Definition arange (n : Z) : list R := map INR (seq 0 (Z.to_nat n)).

(** Resolution of a (possibly negative) index against a length. *)
Definition py_norm_index (len : nat) (i : Z) : option nat :=
  if (0 <=? i)%Z then
    if (i <? Z.of_nat len)%Z then Some (Z.to_nat i) else None
  else
    if (- Z.of_nat len <=? i)%Z then Some (Z.to_nat (Z.of_nat len + i)) else None.

(** [l[i]] *)
Definition py_index {A : Type} (l : list A) (i : Z) : result A :=
  match py_norm_index (length l) i with
  | Some k => match nth_error l k with
              | Some a => Ok a
              | None => Raise IndexError
              end
  | None => Raise IndexError
  end.

(** [l[i] = v] *)
Fixpoint list_set {A : Type} (l : list A) (k : nat) (v : A) : list A :=
  match l, k with
  | [], _ => []
  | _ :: t, O => v :: t
  | h :: t, S k' => h :: list_set t k' v
  end.

Definition py_setitem {A : Type} (l : list A) (i : Z) (v : A) : result (list A) :=
  match py_norm_index (length l) i with
  | Some k => Ok (list_set l k v)
  | None => Raise IndexError
  end.

(** A two-dimensional complex array of shape [(shape0, shape1)]. *)
Record ndarray2 : Type := mk_ndarray2 {
  shape0 : nat;
  shape1 : nat;
  data : nat -> nat -> complex
}.

(** [np.zeros((n0, n1), dtype='complex')] *)
Definition np_zeros (n0 n1 : Z) : result ndarray2 :=
  if ((n0 <? 0) || (n1 <? 0))%Z
  then Raise (ValueError "negative dimensions are not allowed")
  else Ok (mk_ndarray2 (Z.to_nat n0) (Z.to_nat n1) (fun _ _ => C0)).

(** An array whose every entry is [c]. *)
Definition np_full (n0 n1 : nat) (c : complex) : ndarray2 :=
  mk_ndarray2 n0 n1 (fun _ _ => c).

(** [a[i, j]] *)
Definition get2 (a : ndarray2) (i j : Z) : result complex :=
  match py_norm_index (shape0 a) i, py_norm_index (shape1 a) j with
  | Some i', Some j' => Ok (data a i' j')
  | _, _ => Raise IndexError
  end.

(** [a[:,:] = 0.] *)
Definition fill_zero (a : ndarray2) : ndarray2 :=
  mk_ndarray2 (shape0 a) (shape1 a) (fun _ _ => C0).

(** [a *= v[np.newaxis,:]]: the vector [v] is broadcast along the first
    axis; numpy accepts it when its length is the second extent of [a], or
    1, and raises [ValueError] otherwise. *)
Definition imul_newaxis (a : ndarray2) (v : list R) : result ndarray2 :=
  if Nat.eqb (length v) (shape1 a) then
    Ok (mk_ndarray2 (shape0 a) (shape1 a)
          (fun i j => Cscale (nth j v 0) (data a i j)))
  else if Nat.eqb (length v) 1 then
    Ok (mk_ndarray2 (shape0 a) (shape1 a)
          (fun i j => Cscale (nth 0%nat v 0) (data a i j)))
  else Raise (ValueError "operands could not be broadcast together").

(** Every entry of the array is [c]. *)
Definition uniform (a : ndarray2) (c : complex) : Prop :=
  forall i j, (i < shape0 a)%nat -> (j < shape1 a)%nat -> data a i j = c.

(** Every entry of the array is zero. *)
Definition all_zero (a : ndarray2) : Prop := uniform a C0.

(** The array has shape [(n0, n1)]. *)
Definition has_shape (a : ndarray2) (n0 n1 : Z) : Prop :=
  shape0 a = Z.to_nat n0 /\ shape1 a = Z.to_nat n1.

(** Sum of the entries of a real vector. *)
Definition Rsum (l : list R) : R := fold_right Rplus 0 l.

(** A method of a mutable object: it receives the object, and returns the
    object as it is when the call ends together with either the returned
    value or the exception raised. *)
Definition method (S A : Type) : Type := S -> S * result A.

Definition mret {S A : Type} (a : A) : method S A := fun s => (s, Ok a).
Definition mraise {S A : Type} (e : exn) : method S A := fun s => (s, Raise e).
Definition mbind {S A B : Type} (c : method S A) (k : A -> method S B)
  : method S B :=
  fun s => match c s with
           | (s', Ok a) => k a s'
           | (s', Raise e) => (s', Raise e)
           end.

Declare Scope method_scope.
Delimit Scope method_scope with method.
Notation "c1 ;;; c2" := (mbind c1 (fun _ => c2))
  (at level 61, right associativity) : method_scope.

(** In-place update of one array attribute by an operation that can raise:
    the attribute is replaced only when the operation succeeds. *)
Definition inplace {S : Type} (get : S -> ndarray2) (set : ndarray2 -> S -> S)
  (op : ndarray2 -> result ndarray2) : method S unit :=
  fun s => match op (get s) with
           | Ok a => (set a s, Ok tt)
           | Raise e => (s, Raise e)
           end.

(** In-place update that cannot raise. *)
Definition assign {S : Type} (get : S -> ndarray2) (set : ndarray2 -> S -> S)
  (op : ndarray2 -> ndarray2) : method S unit :=
  fun s => (set (op (get s)) s, Ok tt).

(* ------------------------------------------------------------------ *)
(** * fbpic/fields/interpolation_grid.py *)
(* ------------------------------------------------------------------ *)

Module interpolation_grid.

(** [scipy.constants.epsilon_0] (CODATA 2018), in F/m. *)
Definition epsilon_0 : R := 8.8541878128e-12.

(** The GPU kernels of [fbpic/fields/cuda_methods.py] and the launch
    configuration helper of [fbpic/utils/cuda.py] belong to other modules
    of the package: they are taken as parameters.  A kernel receives
    the launch configuration and device arrays, and returns the arrays it
    was given as they are after the launch.  The device arrays are those
    of the numba package: [device_truediv] is the expression
    [d_arr / x] on a device array and a float, which either gives a device
    array or raises [TypeError] (no value), as the array type decides. *)
Record CudaBackend : Type := {
  launch : Type;
  cuda_tpb_bpg_2d : Z -> Z -> launch;
  cuda_erase_scalar : launch -> ndarray2 -> ndarray2;
  cuda_erase_vector :
    launch -> ndarray2 -> ndarray2 -> ndarray2 -> ndarray2 * ndarray2 * ndarray2;
  cuda_divide_scalar_by_volume : launch -> ndarray2 -> list R -> ndarray2;
  cuda_divide_vector_by_volume :
    launch -> ndarray2 -> ndarray2 -> ndarray2 -> list R ->
    ndarray2 * ndarray2 * ndarray2;
  device_truediv : list R -> R -> option (list R)
}.

(** ** class InterpolationGrid *)

Record InterpolationGrid : Type := mk_InterpolationGrid {
  Nz : Z;
  Nr : Z;
  m : Z;
  dr : R;
  dz : R;
  invdr : R;
  invdz : R;
  rmin : R;
  rmax : R;
  zmin : R;
  zmax : R;
  invvol : list R;
  use_cuda : bool;
  (** present only when [use_cuda] *)
  d_invvol : option (list R)
}.

(** Volume of the cylindrical shell of mean radius [r] (source line 70). *)
Definition shell_volume (dz dr r : R) : R :=
  PI * dz * ((r + 0.5 * dr) ^ 2 - (r - 0.5 * dr) ^ 2).

(** [InterpolationGrid.__init__].  The arguments are Python numbers: a
    division by zero raises [ZeroDivisionError]. *)
Definition InterpolationGrid_init
  (Nz Nr m : Z) (zmin zmax rmax : R) (use_cuda : bool)
  : result InterpolationGrid :=
  (dr <- py_div rmax (IZR Nr) ;;
   dz <- py_div (zmax - zmin) (IZR Nz) ;;
   invdr <- py_div 1 dr ;;
   invdz <- py_div 1 dz ;;
   let r := map (fun k => (0.5 + k) * dr) (arange Nr) in
   let vol := map (shell_volume dz dr) r in
   let invvol := map (fun v => 1 / v) vol in
   Ok {| Nz := Nz; Nr := Nr; m := m;
         dr := dr; dz := dz; invdr := invdr; invdz := invdz;
         rmin := 0; rmax := rmax; zmin := zmin; zmax := zmax;
         invvol := invvol;
         use_cuda := use_cuda;
         d_invvol := if use_cuda then Some invvol else None |})%result.

(** Property [z]: positions of the cell centres along z. *)
Definition z (self : InterpolationGrid) : list R :=
  map (fun k => zmin self + (0.5 + k) * dz self) (arange (Nz self)).

(** Property [r]: positions of the cell centres along r. *)
Definition r (self : InterpolationGrid) : list R :=
  map (fun k => rmin self + (0.5 + k) * dr self) (arange (Nr self)).

(** ** class FieldInterpolationGrid *)

Record FieldInterpolationGrid : Type := mk_FieldInterpolationGrid {
  fgrid : InterpolationGrid;
  Er : ndarray2; Et : ndarray2; Ez : ndarray2;
  Br : ndarray2; Bt : ndarray2; Bz : ndarray2;
  Jr : ndarray2; Jt : ndarray2; Jz : ndarray2;
  rho : ndarray2
}.

Definition set_Er v s := mk_FieldInterpolationGrid (fgrid s) v (Et s) (Ez s)
  (Br s) (Bt s) (Bz s) (Jr s) (Jt s) (Jz s) (rho s).
Definition set_Et v s := mk_FieldInterpolationGrid (fgrid s) (Er s) v (Ez s)
  (Br s) (Bt s) (Bz s) (Jr s) (Jt s) (Jz s) (rho s).
Definition set_Ez v s := mk_FieldInterpolationGrid (fgrid s) (Er s) (Et s) v
  (Br s) (Bt s) (Bz s) (Jr s) (Jt s) (Jz s) (rho s).
Definition set_Br v s := mk_FieldInterpolationGrid (fgrid s) (Er s) (Et s) (Ez s)
  v (Bt s) (Bz s) (Jr s) (Jt s) (Jz s) (rho s).
Definition set_Bt v s := mk_FieldInterpolationGrid (fgrid s) (Er s) (Et s) (Ez s)
  (Br s) v (Bz s) (Jr s) (Jt s) (Jz s) (rho s).
Definition set_Bz v s := mk_FieldInterpolationGrid (fgrid s) (Er s) (Et s) (Ez s)
  (Br s) (Bt s) v (Jr s) (Jt s) (Jz s) (rho s).
Definition set_Jr v s := mk_FieldInterpolationGrid (fgrid s) (Er s) (Et s) (Ez s)
  (Br s) (Bt s) (Bz s) v (Jt s) (Jz s) (rho s).
Definition set_Jt v s := mk_FieldInterpolationGrid (fgrid s) (Er s) (Et s) (Ez s)
  (Br s) (Bt s) (Bz s) (Jr s) v (Jz s) (rho s).
Definition set_Jz v s := mk_FieldInterpolationGrid (fgrid s) (Er s) (Et s) (Ez s)
  (Br s) (Bt s) (Bz s) (Jr s) (Jt s) v (rho s).
Definition set_rho v s := mk_FieldInterpolationGrid (fgrid s) (Er s) (Et s) (Ez s)
  (Br s) (Bt s) (Bz s) (Jr s) (Jt s) (Jz s) v.

(** [FieldInterpolationGrid.__init__] *)
Definition FieldInterpolationGrid_init
  (Nz Nr m : Z) (zmin zmax rmax : R) (use_cuda : bool)
  : result FieldInterpolationGrid :=
  (g <- InterpolationGrid_init Nz Nr m zmin zmax rmax use_cuda ;;
   Er <- np_zeros Nz Nr ;; Et <- np_zeros Nz Nr ;; Ez <- np_zeros Nz Nr ;;
   Br <- np_zeros Nz Nr ;; Bt <- np_zeros Nz Nr ;; Bz <- np_zeros Nz Nr ;;
   Jr <- np_zeros Nz Nr ;; Jt <- np_zeros Nz Nr ;; Jz <- np_zeros Nz Nr ;;
   rho <- np_zeros Nz Nr ;;
   Ok (mk_FieldInterpolationGrid g Er Et Ez Br Bt Bz Jr Jt Jz rho))%result.

Definition invalid_fieldtype (fieldtype : string) : exn :=
  ValueError ("Invalid string for fieldtype: " ++ fieldtype)%string.

(** Launch of a three-array kernel on attributes of the object. *)
Definition launch3 {S : Type}
  (g1 g2 g3 : S -> ndarray2) (s1 s2 s3 : ndarray2 -> S -> S)
  (kernel : ndarray2 -> ndarray2 -> ndarray2 -> ndarray2 * ndarray2 * ndarray2)
  : method S unit :=
  fun s => let '(a1, a2, a3) := kernel (g1 s) (g2 s) (g3 s) in
           (s3 a3 (s2 a2 (s1 a1 s)), Ok tt).

(** [FieldInterpolationGrid.erase] *)
Definition erase (K : CudaBackend) (fieldtype : string)
  : method FieldInterpolationGrid unit :=
  fun self =>
  (if use_cuda (fgrid self) then
     let dims := cuda_tpb_bpg_2d K (Nz (fgrid self)) (Nr (fgrid self)) in
     if (fieldtype =? "rho")%string then
       assign rho set_rho (cuda_erase_scalar K dims)
     else if (fieldtype =? "J")%string then
       launch3 Jr Jt Jz set_Jr set_Jt set_Jz (cuda_erase_vector K dims)
     else if (fieldtype =? "E")%string then
       launch3 Er Et Ez set_Er set_Et set_Ez (cuda_erase_vector K dims)
     else if (fieldtype =? "B")%string then
       launch3 Br Bt Bz set_Br set_Bt set_Bz (cuda_erase_vector K dims)
     else mraise (invalid_fieldtype fieldtype)
   else
     if (fieldtype =? "rho")%string then
       assign rho set_rho fill_zero
     else if (fieldtype =? "J")%string then
       assign Jr set_Jr fill_zero ;;;
       assign Jt set_Jt fill_zero ;;;
       assign Jz set_Jz fill_zero
     else if (fieldtype =? "E")%string then
       assign Er set_Er fill_zero ;;;
       assign Et set_Et fill_zero ;;;
       assign Ez set_Ez fill_zero
     else if (fieldtype =? "B")%string then
       assign Br set_Br fill_zero ;;;
       assign Bt set_Bt fill_zero ;;;
       assign Bz set_Bz fill_zero
     else mraise (invalid_fieldtype fieldtype))%method self.

(** The device copy of [invvol]; reading the attribute of a grid built
    without [use_cuda] fails. *)
Definition get_d_invvol (g : InterpolationGrid) : result (list R) :=
  match d_invvol g with
  | Some v => Ok v
  | None => Raise AttributeError
  end.

(** [FieldInterpolationGrid.divide_by_volume] *)
Definition divide_by_volume (K : CudaBackend) (fieldtype : string)
  : method FieldInterpolationGrid unit :=
  fun self =>
  (if use_cuda (fgrid self) then
     let dims := cuda_tpb_bpg_2d K (Nz (fgrid self)) (Nr (fgrid self)) in
     if (fieldtype =? "rho")%string then
       match get_d_invvol (fgrid self) with
       | Ok v => assign rho set_rho
                   (fun a => cuda_divide_scalar_by_volume K dims a v)
       | Raise e => mraise e
       end
     else if (fieldtype =? "J")%string then
       match get_d_invvol (fgrid self) with
       | Ok v => launch3 Jr Jt Jz set_Jr set_Jt set_Jz
                   (fun a1 a2 a3 => cuda_divide_vector_by_volume K dims a1 a2 a3 v)
       | Raise e => mraise e
       end
     else mraise (invalid_fieldtype fieldtype)
   else
     if (fieldtype =? "rho")%string then
       inplace rho set_rho (fun a => imul_newaxis a (invvol (fgrid self)))
     else if (fieldtype =? "J")%string then
       inplace Jr set_Jr (fun a => imul_newaxis a (invvol (fgrid self))) ;;;
       inplace Jt set_Jt (fun a => imul_newaxis a (invvol (fgrid self))) ;;;
       inplace Jz set_Jz (fun a => imul_newaxis a (invvol (fgrid self)))
     else mraise (invalid_fieldtype fieldtype))%method self.

(** ** class EnvelopeInterpolationGrid *)

Record EnvelopeInterpolationGrid : Type := mk_EnvelopeInterpolationGrid {
  egrid : InterpolationGrid;
  a : ndarray2; dta : ndarray2;
  grad_a_r : ndarray2; grad_a_t : ndarray2; grad_a_z : ndarray2;
  chi : ndarray2; chi_a : ndarray2
}.

Definition set_chi v s := mk_EnvelopeInterpolationGrid (egrid s) (a s) (dta s)
  (grad_a_r s) (grad_a_t s) (grad_a_z s) v (chi_a s).
Definition set_chi_a v s := mk_EnvelopeInterpolationGrid (egrid s) (a s) (dta s)
  (grad_a_r s) (grad_a_t s) (grad_a_z s) (chi s) v.

(** [EnvelopeInterpolationGrid.__init__] *)
Definition EnvelopeInterpolationGrid_init
  (Nz Nr m : Z) (zmin zmax rmax : R) (use_cuda : bool)
  : result EnvelopeInterpolationGrid :=
  (g <- InterpolationGrid_init Nz Nr m zmin zmax rmax use_cuda ;;
   a <- np_zeros Nz Nr ;; dta <- np_zeros Nz Nr ;;
   grad_a_r <- np_zeros Nz Nr ;; grad_a_t <- np_zeros Nz Nr ;;
   grad_a_z <- np_zeros Nz Nr ;;
   chi <- np_zeros Nz Nr ;; chi_a <- np_zeros Nz Nr ;;
   Ok (mk_EnvelopeInterpolationGrid g a dta grad_a_r grad_a_t grad_a_z
         chi chi_a))%result.

(** [EnvelopeInterpolationGrid.erase] *)
Definition envelope_erase (K : CudaBackend) (fieldtype : string)
  : method EnvelopeInterpolationGrid unit :=
  fun self =>
  (if use_cuda (egrid self) then
     let dims := cuda_tpb_bpg_2d K (Nz (egrid self)) (Nr (egrid self)) in
     if (fieldtype =? "chi")%string then
       assign chi set_chi (cuda_erase_scalar K dims)
     else if (fieldtype =? "chi_a")%string then
       assign chi_a set_chi_a (cuda_erase_scalar K dims)
     else mraise (invalid_fieldtype fieldtype)
   else
     if (fieldtype =? "chi")%string then
       assign chi set_chi fill_zero
     else if (fieldtype =? "chi_a")%string then
       assign chi_a set_chi_a fill_zero
     else mraise (invalid_fieldtype fieldtype))%method self.

(** [EnvelopeInterpolationGrid.divide_by_volume_and_e0].  On the GPU the
    second argument of the kernel is [self.d_invvol / epsilon_0], a
    division of the device array, evaluated before the launch. *)
Definition divide_by_volume_and_e0 (K : CudaBackend) (fieldtype : string)
  : method EnvelopeInterpolationGrid unit :=
  fun self =>
  (if use_cuda (egrid self) then
     let dims := cuda_tpb_bpg_2d K (Nz (egrid self)) (Nr (egrid self)) in
     if (fieldtype =? "chi")%string then
       match get_d_invvol (egrid self) with
       | Ok v =>
           match device_truediv K v epsilon_0 with
           | Some w => assign chi set_chi
                         (fun a => cuda_divide_scalar_by_volume K dims a w)
           | None => mraise TypeError
           end
       | Raise e => mraise e
       end
     else mraise (invalid_fieldtype fieldtype)
   else
     if (fieldtype =? "chi")%string then
       inplace chi set_chi
         (fun a => imul_newaxis a
                     (map (fun x => x / epsilon_0) (invvol (egrid self))))
     else mraise (invalid_fieldtype fieldtype))%method self.

(** A backend for a host without GPU: no kernel is launched on a grid built
    with [use_cuda=False], the kernels below are placeholders that return
    the device arrays as they received them. *)
Definition no_cuda : CudaBackend :=
  {| launch := unit;
     cuda_tpb_bpg_2d := fun _ _ => tt;
     cuda_erase_scalar := fun _ a => a;
     cuda_erase_vector := fun _ a1 a2 a3 => (a1, a2, a3);
     cuda_divide_scalar_by_volume := fun _ a _ => a;
     cuda_divide_vector_by_volume := fun _ a1 a2 a3 _ => (a1, a2, a3);
     device_truediv := fun _ _ => None |}.

(** What [erase] relies on when it launches a kernel: the erase kernels
    of the backend set every entry of the arrays they are launched on to
    zero. *)
Definition erase_kernels_zero (K : CudaBackend) : Prop :=
  (forall (d : launch K) (a0 : ndarray2), all_zero (cuda_erase_scalar K d a0)) /\
  (forall (d : launch K) (a1 a2 a3 : ndarray2),
     all_zero (fst (fst (cuda_erase_vector K d a1 a2 a3))) /\
     all_zero (snd (fst (cuda_erase_vector K d a1 a2 a3))) /\
     all_zero (snd (cuda_erase_vector K d a1 a2 a3))).

(** ** Geometry of a grid *)

(** The shell volumes recorded by a grid: the inverses of [invvol]. *)
Definition shell_volumes (g : InterpolationGrid) : list R :=
  map (fun v => 1 / v) (invvol g).

(** Cell centres: formula, position inside the box, spacing. *)
Definition centred_cells (c : list R) (n : Z) (lo hi step : R) : Prop :=
  length c = Z.to_nat n /\
  (forall i, (i < Z.to_nat n)%nat ->
     nth i c 0 = lo + (INR i + 0.5) * step /\ lo < nth i c 0 < hi) /\
  (forall i, (S i < Z.to_nat n)%nat -> nth (S i) c 0 - nth i c 0 = step).

(** Inverse volumes: derived from the shell volume, strictly positive. *)
Definition inverse_volumes (g : InterpolationGrid) : Prop :=
  length (invvol g) = Z.to_nat (Nr g) /\
  (forall j, (j < Z.to_nat (Nr g))%nat ->
     nth j (invvol g) 0 = 1 / shell_volume (dz g) (dr g) (nth j (r g) 0) /\
     0 < nth j (invvol g) 0).

(** The geometry invariant of a grid.  The shell volumes of the [Nr] radial
    cells add up to the volume of one longitudinal slice of the cylinder;
    the [Nz] slices together fill the cylinder. *)
Definition geometry_invariant (g : InterpolationGrid) : Prop :=
  dz g = (zmax g - zmin g) / IZR (Nz g) /\
  dr g = rmax g / IZR (Nr g) /\
  centred_cells (z g) (Nz g) (zmin g) (zmax g) (dz g) /\
  centred_cells (r g) (Nr g) 0 (rmax g) (dr g) /\
  inverse_volumes g /\
  Rsum (shell_volumes g) = PI * rmax g ^ 2 * dz g /\
  IZR (Nz g) * Rsum (shell_volumes g) = PI * rmax g ^ 2 * (zmax g - zmin g).

(** The arguments that the specification requires of a construction. *)
Definition valid_arguments (Nz Nr : Z) (zmin zmax rmax : R) : Prop :=
  (Nz > 0)%Z /\ (Nr > 0)%Z /\ zmax > zmin /\ rmax > 0.

(** ** Sample grids, used in examples *)

(** The grid of one cell on the unit box. *)
Definition unit_grid : InterpolationGrid :=
  mk_InterpolationGrid 1 1 0 1 1 1 1 0 1 0 1 [1 / shell_volume 1 1 0.5]
    false None.

Definition unit_field_grid : FieldInterpolationGrid :=
  let u := np_full 1 1 C1 in
  mk_FieldInterpolationGrid unit_grid u u u u u u u u u u.

Definition unit_envelope_grid : EnvelopeInterpolationGrid :=
  let u := np_full 1 1 C1 in
  mk_EnvelopeInterpolationGrid unit_grid u u u u u u u.

(** The same grids with [use_cuda=True] and the device copy of
    [invvol]. *)
Definition unit_grid_on_gpu : InterpolationGrid :=
  mk_InterpolationGrid 1 1 0 1 1 1 1 0 1 0 1 [1 / shell_volume 1 1 0.5]
    true (Some [1 / shell_volume 1 1 0.5]).

Definition unit_field_grid_on_gpu : FieldInterpolationGrid :=
  let u := np_full 1 1 C1 in
  mk_FieldInterpolationGrid unit_grid_on_gpu u u u u u u u u u u.

Definition unit_envelope_grid_on_gpu : EnvelopeInterpolationGrid :=
  let u := np_full 1 1 C1 in
  mk_EnvelopeInterpolationGrid unit_grid_on_gpu u u u u u u u.

(** ** Grids on which the operations can run *)

(** The ten arrays of a field grid have the shape [(Nz, Nr)] of the grid. *)
Definition field_shaped (fg : FieldInterpolationGrid) : Prop :=
  let n0 := Nz (fgrid fg) in
  let n1 := Nr (fgrid fg) in
  has_shape (Er fg) n0 n1 /\ has_shape (Et fg) n0 n1 /\ has_shape (Ez fg) n0 n1 /\
  has_shape (Br fg) n0 n1 /\ has_shape (Bt fg) n0 n1 /\ has_shape (Bz fg) n0 n1 /\
  has_shape (Jr fg) n0 n1 /\ has_shape (Jt fg) n0 n1 /\ has_shape (Jz fg) n0 n1 /\
  has_shape (rho fg) n0 n1.

(** The seven arrays of an envelope grid have the shape of the grid. *)
Definition envelope_shaped (eg : EnvelopeInterpolationGrid) : Prop :=
  let n0 := Nz (egrid eg) in
  let n1 := Nr (egrid eg) in
  has_shape (a eg) n0 n1 /\ has_shape (dta eg) n0 n1 /\
  has_shape (grad_a_r eg) n0 n1 /\ has_shape (grad_a_t eg) n0 n1 /\
  has_shape (grad_a_z eg) n0 n1 /\
  has_shape (chi eg) n0 n1 /\ has_shape (chi_a eg) n0 n1.

(** What the volume divisions need of the metadata: on the GPU path the
    device copy of [invvol]; on the host path one entry of [invvol] per
    radial cell. *)
Definition volumes_ready (g : InterpolationGrid) : Prop :=
  if use_cuda g then d_invvol g <> None
  else length (invvol g) = Z.to_nat (Nr g).

(** A field grid on which the operations can run: the volumes are ready
    and, on the host path, the arrays have the shape of the grid. *)
Definition field_ready (fg : FieldInterpolationGrid) : Prop :=
  volumes_ready (fgrid fg) /\ (use_cuda (fgrid fg) = false -> field_shaped fg).

Definition envelope_ready (eg : EnvelopeInterpolationGrid) : Prop :=
  volumes_ready (egrid eg) /\ (use_cuda (egrid eg) = false -> envelope_shaped eg).

End interpolation_grid.

(* ------------------------------------------------------------------ *)
(** * fbpic/fields/cuda_methods.py *)
(* ------------------------------------------------------------------ *)

Module cuda_methods.

(** Modelled from the spec: [cuda_erase_scalar], whose source is missing;
    the erase operation sets every entry of the array to zero, and the
    kernel math is the same on both backends. *)
Definition cuda_erase_scalar (a : ndarray2) : ndarray2 := fill_zero a.

(** Modelled from the spec: [cuda_erase_vector], whose source is
    missing. *)
Definition cuda_erase_vector (a1 a2 a3 : ndarray2)
  : ndarray2 * ndarray2 * ndarray2 :=
  (fill_zero a1, fill_zero a2, fill_zero a3).

(** Modelled from the spec: [cuda_divide_scalar_by_volume], whose source
    is missing; the array is multiplied by the inverse volumes, broadcast
    along the radial axis. *)
Definition cuda_divide_scalar_by_volume (a : ndarray2) (v : list R) : ndarray2 :=
  mk_ndarray2 (shape0 a) (shape1 a) (fun i j => Cscale (nth j v 0) (data a i j)).

(** Modelled from the spec: [cuda_divide_vector_by_volume], whose source
    is missing. *)
Definition cuda_divide_vector_by_volume (a1 a2 a3 : ndarray2) (v : list R)
  : ndarray2 * ndarray2 * ndarray2 :=
  (cuda_divide_scalar_by_volume a1 v, cuda_divide_scalar_by_volume a2 v,
   cuda_divide_scalar_by_volume a3 v).

(** Modelled from the spec: the kernels as the grid classes receive them.
    The division of the device array by a float is the one of the
    specification, which divides the inverse volumes by the vacuum
    permittivity. *)
Definition kernels : interpolation_grid.CudaBackend :=
  {| interpolation_grid.launch := unit;
     interpolation_grid.cuda_tpb_bpg_2d := fun _ _ => tt;
     interpolation_grid.cuda_erase_scalar := fun _ => cuda_erase_scalar;
     interpolation_grid.cuda_erase_vector := fun _ => cuda_erase_vector;
     interpolation_grid.cuda_divide_scalar_by_volume :=
       fun _ => cuda_divide_scalar_by_volume;
     interpolation_grid.cuda_divide_vector_by_volume :=
       fun _ => cuda_divide_vector_by_volume;
     interpolation_grid.device_truediv :=
       fun v x => Some (map (fun y => y / x) v) |}.

End cuda_methods.

(* ------------------------------------------------------------------ *)
(** * fbpic/particles/gathering/threading_methods.py *)
(* ------------------------------------------------------------------ *)

Notation "x <- c ;; k" := (mbind c (fun x => k))
  (at level 61, c at next level, right associativity) : method_scope.
Notation "' p <- c ;; k" := (mbind c (fun x => match x with p => k end))
  (at level 61, p pattern, c at next level, right associativity) : method_scope.

(** A pure computation that may raise, run inside a method. *)
Definition lift {S A : Type} (r : result A) : method S A := fun s => (s, r).

(** [arr[i]] on an array attribute. *)
Definition getitem {S A : Type} (get : S -> list A) (i : Z) : method S A :=
  fun s => (s, py_index (get s) i).

(** [arr[i] = v] on an array attribute. *)
Definition setitem {S A : Type} (get : S -> list A) (set : list A -> S -> S)
  (i : Z) (v : A) : method S unit :=
  fun s => match py_setitem (get s) i v with
           | Ok l => (set l s, Ok tt)
           | Raise e => (s, Raise e)
           end.

(** [for i in l: body(i)] *)
Fixpoint for_each {S I : Type} (l : list I) (body : I -> method S unit)
  : method S unit :=
  match l with
  | [] => mret tt
  | i :: t => mbind (body i) (fun _ => for_each t body)
  end.

(** A loop that threads local variables and may raise. *)
Fixpoint fold_result {A I : Type} (l : list I) (body : I -> A -> result A)
  (acc : A) : result A :=
  match l with
  | [] => Ok acc
  | i :: t => rbind (body i acc) (fold_result t body)
  end.

(** [range(lo, hi)] *)
Definition py_range (lo hi : Z) : list Z :=
  map (fun k => (lo + Z.of_nat k)%Z) (seq 0 (Z.to_nat (hi - lo))).

Module threading_methods.

(** The numba inline functions of
    [fbpic/particles/gathering/inline_functions.py], which the kernels call
    for each azimuthal mode, belong to another module of the package: the
    kernels are parameterised by them.  Each one receives the accumulators,
    the phase factor, the grid arrays of one mode and the stencil, and
    returns the updated accumulators; it has no other effect. *)
Record InlineFunctions : Type := {
  add_linear_gather_for_mode :
    Z -> R -> R -> R -> complex -> ndarray2 -> ndarray2 -> ndarray2 ->
    Z -> Z -> Z -> Z -> R -> R -> R -> R -> R -> R -> result (R * R * R);
  add_cubic_gather_for_mode :
    Z -> R -> R -> R -> complex -> ndarray2 -> ndarray2 -> ndarray2 ->
    Z -> Z -> list R -> list R -> Z -> Z -> result (R * R * R);
  add_linear_envelope_gather_for_mode :
    Z -> complex -> complex -> complex -> complex -> complex -> complex ->
    ndarray2 -> ndarray2 -> ndarray2 -> ndarray2 -> ndarray2 ->
    Z -> Z -> Z -> Z -> R -> R -> R -> R -> R -> R ->
    result (complex * complex * complex * complex * complex);
  add_cubic_envelope_gather_for_mode :
    Z -> complex -> complex -> complex -> complex -> complex -> complex ->
    ndarray2 -> ndarray2 -> ndarray2 -> ndarray2 -> ndarray2 ->
    Z -> Z -> list R -> list R -> Z -> Z ->
    result (complex * complex * complex * complex * complex)
}.

(** ** Cylindrical conversion (lines 92-100, and the same lines of the
    three other kernels): [(rj, cos, sin)]. *)
Definition cylindrical (xj yj : R) : R * R * R :=
  let rj := sqrt (xj ^ 2 + yj ^ 2) in
  if Req_dec_T rj 0 then (rj, 1, 0)
  else let invr := 1 / rj in (rj, xj * invr, yj * invr).

(** ** Linear shape factors and boundary treatment (lines 104-152) *)

Record linear_stencil : Type := mk_linear_stencil {
  iz_lower : Z; iz_upper : Z; ir_lower : Z; ir_upper : Z;
  Sz_lower : R; Sz_upper : R; Sr_lower : R; Sr_upper : R; Sr_guard : R
}.

Definition linear_shape (invdz zmin : R) (Nz : Z) (invdr rmin : R) (Nr : Z)
  (rj zj : R) : linear_stencil :=
  (* Positions of the particles, in the cell unit *)
  let r_cell := invdr * (rj - rmin) - 0.5 in
  let z_cell := invdz * (zj - zmin) - 0.5 in
  (* Original index of the upper and lower cell *)
  let ir_lower := Int_part r_cell in
  let ir_upper := (ir_lower + 1)%Z in
  let iz_lower := Int_part z_cell in
  let iz_upper := (iz_lower + 1)%Z in
  (* Linear weight *)
  let Sr_lower := IZR ir_upper - r_cell in
  let Sr_upper := r_cell - IZR ir_lower in
  let Sz_lower := IZR iz_upper - z_cell in
  let Sz_upper := z_cell - IZR iz_lower in
  (* Set guard weights to zero *)
  let Sr_guard := 0 in
  (* guard cells in lower r *)
  let '(Sr_guard, Sr_lower, ir_lower) :=
    if (ir_lower <? 0)%Z then (Sr_lower, 0, 0%Z)
    else (Sr_guard, Sr_lower, ir_lower) in
  (* absorbing in upper r *)
  let ir_lower := if (ir_lower >? Nr - 1)%Z then (Nr - 1)%Z else ir_lower in
  let ir_upper := if (ir_upper >? Nr - 1)%Z then (Nr - 1)%Z else ir_upper in
  (* periodic boundaries in z: lower z boundaries *)
  let iz_lower := if (iz_lower <? 0)%Z then (iz_lower + Nz)%Z else iz_lower in
  let iz_upper := if (iz_upper <? 0)%Z then (iz_upper + Nz)%Z else iz_upper in
  (* upper z boundaries *)
  let iz_lower := if (iz_lower >? Nz - 1)%Z then (iz_lower - Nz)%Z else iz_lower in
  let iz_upper := if (iz_upper >? Nz - 1)%Z then (iz_upper - Nz)%Z else iz_upper in
  mk_linear_stencil iz_lower iz_upper ir_lower ir_upper
    Sz_lower Sz_upper Sr_lower Sr_upper Sr_guard.

(** Precalculated shapes (lines 146-152). *)
Definition S_ll (st : linear_stencil) : R := Sz_lower st * Sr_lower st.
Definition S_lu (st : linear_stencil) : R := Sz_lower st * Sr_upper st.
Definition S_ul (st : linear_stencil) : R := Sz_upper st * Sr_lower st.
Definition S_uu (st : linear_stencil) : R := Sz_upper st * Sr_upper st.
Definition S_lg (st : linear_stencil) : R := Sz_lower st * Sr_guard st.
Definition S_ug (st : linear_stencil) : R := Sz_upper st * Sr_guard st.

(** ** Cubic shape factors (lines 467-479) *)

Definition S0 (u : R) : R := -1 / 6 * (u - 2) ^ 3.
Definition S1 (u : R) : R := 1 / 6 * (3 * (u - 1) ^ 3 - 6 * (u - 1) ^ 2 + 4).
Definition S2 (u : R) : R := 1 / 6 * (3 * (2 - u) ^ 3 - 6 * (2 - u) ^ 2 + 4).
Definition S3 (u : R) : R := -1 / 6 * (1 - u) ^ 3.

(** The thread-private array [Sr] (or [Sz]) once its four entries have been
    assigned; every entry is assigned before the array is read. *)
Definition cubic_weights (u : R) : list R := [S0 u; S1 u; S2 u; S3 u].

Record cubic_stencil : Type := mk_cubic_stencil {
  ir_lowest : Z; iz_lowest : Z; Sr : list R; Sz : list R
}.

Definition cubic_shape (invdz zmin invdr rmin : R) (rj zj : R) : cubic_stencil :=
  let r_cell := invdr * (rj - rmin) - 0.5 in
  let z_cell := invdz * (zj - zmin) - 0.5 in
  let ir_lowest := (Int_part r_cell - 1)%Z in
  let r_local := r_cell - IZR ir_lowest in
  let iz_lowest := (Int_part z_cell - 1)%Z in
  let z_local := z_cell - IZR iz_lowest in
  mk_cubic_stencil ir_lowest iz_lowest
    (cubic_weights r_local) (cubic_weights z_local).

(** ** State of a field gather call: every array the kernel receives. *)

Record gather_state : Type := mk_gather_state {
  x : list R; y : list R; z : list R;
  Er_m0 : ndarray2; Et_m0 : ndarray2; Ez_m0 : ndarray2;
  Er_m1 : ndarray2; Et_m1 : ndarray2; Ez_m1 : ndarray2;
  Br_m0 : ndarray2; Bt_m0 : ndarray2; Bz_m0 : ndarray2;
  Br_m1 : ndarray2; Bt_m1 : ndarray2; Bz_m1 : ndarray2;
  Ex : list R; Ey : list R; Ez : list R;
  Bx : list R; By : list R; Bz : list R
}.

Definition with_outputs (s : gather_state) (ex ey ez bx by_ bz : list R)
  : gather_state :=
  mk_gather_state (x s) (y s) (z s)
    (Er_m0 s) (Et_m0 s) (Ez_m0 s) (Er_m1 s) (Et_m1 s) (Ez_m1 s)
    (Br_m0 s) (Bt_m0 s) (Bz_m0 s) (Br_m1 s) (Bt_m1 s) (Bz_m1 s)
    ex ey ez bx by_ bz.

Definition set_Ex v s := with_outputs s v (Ey s) (Ez s) (Bx s) (By s) (Bz s).
Definition set_Ey v s := with_outputs s (Ex s) v (Ez s) (Bx s) (By s) (Bz s).
Definition set_Ez v s := with_outputs s (Ex s) (Ey s) v (Bx s) (By s) (Bz s).
Definition set_Bx v s := with_outputs s (Ex s) (Ey s) (Ez s) v (By s) (Bz s).
Definition set_By v s := with_outputs s (Ex s) (Ey s) (Ez s) (Bx s) v (Bz s).
Definition set_Bz v s := with_outputs s (Ex s) (Ey s) (Ez s) (Bx s) (By s) v.

(** ** gather_field_numba_linear *)

(** Body of the loop over particles (lines 85-196). *)
Definition gather_linear_particle (H : InlineFunctions)
  (invdz zmin : R) (Nz : Z) (invdr rmin : R) (Nr : Z) (i : Z)
  : method gather_state unit :=
  (xj <- getitem x i ;;
   yj <- getitem y i ;;
   zj <- getitem z i ;;
   let '(rj, cos, sin) := cylindrical xj yj in
   let exptheta_m0 := RtoC 1 in
   let exptheta_m1 := (cos, - sin) in
   let st := linear_shape invdz zmin Nz invdr rmin Nr rj zj in
   (* E-Field *)
   ' (Fr, Ft, Fz) <- (fun s => lift (add_linear_gather_for_mode H 0
        0 0 0 exptheta_m0 (Er_m0 s) (Et_m0 s) (Ez_m0 s)
        (iz_lower st) (iz_upper st) (ir_lower st) (ir_upper st)
        (S_ll st) (S_lu st) (S_lg st) (S_ul st) (S_uu st) (S_ug st)) s) ;;
   ' (Fr, Ft, Fz) <- (fun s => lift (add_linear_gather_for_mode H 1
        Fr Ft Fz exptheta_m1 (Er_m1 s) (Et_m1 s) (Ez_m1 s)
        (iz_lower st) (iz_upper st) (ir_lower st) (ir_upper st)
        (S_ll st) (S_lu st) (S_lg st) (S_ul st) (S_uu st) (S_ug st)) s) ;;
   setitem Ex set_Ex i (cos * Fr - sin * Ft) ;;;
   setitem Ey set_Ey i (sin * Fr + cos * Ft) ;;;
   setitem Ez set_Ez i Fz ;;;
   (* B-Field *)
   ' (Fr, Ft, Fz) <- (fun s => lift (add_linear_gather_for_mode H 0
        0 0 0 exptheta_m0 (Br_m0 s) (Bt_m0 s) (Bz_m0 s)
        (iz_lower st) (iz_upper st) (ir_lower st) (ir_upper st)
        (S_ll st) (S_lu st) (S_lg st) (S_ul st) (S_uu st) (S_ug st)) s) ;;
   ' (Fr, Ft, Fz) <- (fun s => lift (add_linear_gather_for_mode H 1
        Fr Ft Fz exptheta_m1 (Br_m1 s) (Bt_m1 s) (Bz_m1 s)
        (iz_lower st) (iz_upper st) (ir_lower st) (ir_upper st)
        (S_ll st) (S_lu st) (S_lg st) (S_ul st) (S_uu st) (S_ug st)) s) ;;
   setitem Bx set_Bx i (cos * Fr - sin * Ft) ;;;
   setitem By set_By i (sin * Fr + cos * Ft) ;;;
   setitem Bz set_Bz i Fz)%method.

(** The parallel loop [for i in prange(x.shape[0])], taken in index
    order. *)
Definition gather_field_numba_linear (H : InlineFunctions)
  (invdz zmin : R) (Nz : Z) (invdr rmin : R) (Nr : Z)
  : method gather_state unit :=
  fun s =>
    for_each (py_range 0 (Z.of_nat (length (x s))))
      (gather_linear_particle H invdz zmin Nz invdr rmin Nr) s.

(** ** gather_field_numba_cubic *)

(** Body of the loop over the particles of a chunk (lines 442-519). *)
Definition gather_cubic_particle (H : InlineFunctions)
  (invdz zmin : R) (Nz : Z) (invdr rmin : R) (Nr : Z) (i : Z)
  : method gather_state unit :=
  (xj <- getitem x i ;;
   yj <- getitem y i ;;
   zj <- getitem z i ;;
   let '(rj, cos, sin) := cylindrical xj yj in
   let exptheta_m0 := RtoC 1 in
   let exptheta_m1 := (cos, - sin) in
   let st := cubic_shape invdz zmin invdr rmin rj zj in
   (* E-Field *)
   ' (Fr, Ft, Fz) <- (fun s => lift (add_cubic_gather_for_mode H 0
        0 0 0 exptheta_m0 (Er_m0 s) (Et_m0 s) (Ez_m0 s)
        (ir_lowest st) (iz_lowest st) (Sr st) (Sz st) Nr Nz) s) ;;
   ' (Fr, Ft, Fz) <- (fun s => lift (add_cubic_gather_for_mode H 1
        Fr Ft Fz exptheta_m1 (Er_m1 s) (Et_m1 s) (Ez_m1 s)
        (ir_lowest st) (iz_lowest st) (Sr st) (Sz st) Nr Nz) s) ;;
   setitem Ex set_Ex i (cos * Fr - sin * Ft) ;;;
   setitem Ey set_Ey i (sin * Fr + cos * Ft) ;;;
   setitem Ez set_Ez i Fz ;;;
   (* B-Field *)
   ' (Fr, Ft, Fz) <- (fun s => lift (add_cubic_gather_for_mode H 0
        0 0 0 exptheta_m0 (Br_m0 s) (Bt_m0 s) (Bz_m0 s)
        (ir_lowest st) (iz_lowest st) (Sr st) (Sz st) Nr Nz) s) ;;
   ' (Fr, Ft, Fz) <- (fun s => lift (add_cubic_gather_for_mode H 1
        Fr Ft Fz exptheta_m1 (Br_m1 s) (Bt_m1 s) (Bz_m1 s)
        (ir_lowest st) (iz_lowest st) (Sr st) (Sz st) Nr Nz) s) ;;
   setitem Bx set_Bx i (cos * Fr - sin * Ft) ;;;
   setitem By set_By i (sin * Fr + cos * Ft) ;;;
   setitem Bz set_Bz i Fz)%method.

(** One chunk: [for i in range(ptcl_chunk_indices[nt],
    ptcl_chunk_indices[nt+1])]. *)
Definition gather_cubic_chunk (H : InlineFunctions)
  (invdz zmin : R) (Nz : Z) (invdr rmin : R) (Nr : Z)
  (ptcl_chunk_indices : list Z) (nt : Z) : method gather_state unit :=
  (lo <- lift (py_index ptcl_chunk_indices nt) ;;
   hi <- lift (py_index ptcl_chunk_indices (nt + 1)) ;;
   for_each (py_range lo hi)
     (gather_cubic_particle H invdz zmin Nz invdr rmin Nr))%method.

(** The parallel loop [for nt in prange(nthreads)], taken in index order. *)
Definition gather_field_numba_cubic (H : InlineFunctions)
  (invdz zmin : R) (Nz : Z) (invdr rmin : R) (Nr : Z)
  (nthreads : Z) (ptcl_chunk_indices : list Z) : method gather_state unit :=
  for_each (py_range 0 nthreads)
    (gather_cubic_chunk H invdz zmin Nz invdr rmin Nr ptcl_chunk_indices).

(** ** Envelope gathering *)

(** Output arrays of an envelope gather call. *)
Record envelope_outputs : Type := mk_envelope_outputs {
  a2 : list R;
  grad_a2_x : list R; grad_a2_y : list R; grad_a2_z : list R;
  a2_delayed : list R
}.

Definition set_a2 v s := mk_envelope_outputs v (grad_a2_x s) (grad_a2_y s)
  (grad_a2_z s) (a2_delayed s).
Definition set_grad_a2_x v s := mk_envelope_outputs (a2 s) v (grad_a2_y s)
  (grad_a2_z s) (a2_delayed s).
Definition set_grad_a2_y v s := mk_envelope_outputs (a2 s) (grad_a2_x s) v
  (grad_a2_z s) (a2_delayed s).
Definition set_grad_a2_z v s := mk_envelope_outputs (a2 s) (grad_a2_x s)
  (grad_a2_y s) v (a2_delayed s).
Definition set_a2_delayed v s := mk_envelope_outputs (a2 s) (grad_a2_x s)
  (grad_a2_y s) (grad_a2_z s) v.

(** The accumulators [(F, Fr, Ft, Fz, dtF)]. *)
Definition envelope_acc : Type :=
  (complex * complex * complex * complex * complex)%type.

(** Loop over the modes of the linear kernel (lines 316-334):
    [for it in range(len(m_tuple))], every tuple is indexed by [it]. *)
Definition envelope_modes_linear (H : InlineFunctions) (cos sin : R)
  (st : linear_stencil)
  (a_tuple grad_a_r_tuple grad_a_t_tuple grad_a_z_tuple dta_tuple
     : list ndarray2)
  (m_tuple : list Z) : result envelope_acc :=
  fold_result (py_range 0 (Z.of_nat (length m_tuple)))
    (fun it '(F, Fr, Ft, Fz, dtF) =>
       (m <- py_index m_tuple it ;;
        a_m <- py_index a_tuple it ;;
        grad_a_r_m <- py_index grad_a_r_tuple it ;;
        grad_a_t_m <- py_index grad_a_t_tuple it ;;
        grad_a_z_m <- py_index grad_a_z_tuple it ;;
        dta_m <- py_index dta_tuple it ;;
        let exptheta_m := Cpow (cos, - sin) m in
        add_linear_envelope_gather_for_mode H m F Fr Ft Fz dtF exptheta_m
          a_m grad_a_r_m grad_a_t_m grad_a_z_m dta_m
          (iz_lower st) (iz_upper st) (ir_lower st) (ir_upper st)
          (S_ll st) (S_lu st) (S_lg st) (S_ul st) (S_uu st) (S_ug st))%result)
    (C0, C0, C0, C0, C0).

(** Loop over the modes of the cubic kernel (lines 621-637):
    [for m in m_tuple], every tuple is indexed by [m]. *)
Definition envelope_modes_cubic (H : InlineFunctions) (cos sin : R)
  (st : cubic_stencil) (Nr Nz : Z)
  (a_tuple grad_a_r_tuple grad_a_t_tuple grad_a_z_tuple dta_tuple
     : list ndarray2)
  (m_tuple : list Z) : result envelope_acc :=
  fold_result m_tuple
    (fun m '(F, Fr, Ft, Fz, dtF) =>
       (a_m <- py_index a_tuple m ;;
        grad_a_r_m <- py_index grad_a_r_tuple m ;;
        grad_a_t_m <- py_index grad_a_t_tuple m ;;
        grad_a_z_m <- py_index grad_a_z_tuple m ;;
        dta_m <- py_index dta_tuple m ;;
        let exptheta_m := Cpow (cos, - sin) m in
        add_cubic_envelope_gather_for_mode H m F Fr Ft Fz dtF exptheta_m
          a_m grad_a_r_m grad_a_t_m grad_a_z_m dta_m
          (ir_lowest st) (iz_lowest st) (Sr st) (Sz st) Nr Nz)%result)
    (C0, C0, C0, C0, C0).

(** Conversion to intensities and registration in the particle arrays
    (lines 336-362 of the linear kernel, 639-665 of the cubic kernel; the
    two blocks are the same text). *)
Definition envelope_register (averaging : bool) (dt cos sin : R) (i : Z)
  (acc : envelope_acc) : method envelope_outputs unit :=
  let '(F, Fr, Ft, Fz, dtF) := acc in
  (* Convert to Cartesian coordinates *)
  let Fx := Csub (Cscale cos Fr) (Cscale sin Ft) in
  let Fy := Cadd (Cscale sin Fr) (Cscale cos Ft) in
  (* Obtain the a field at time n+1/2 *)
  let dtF := Cadd (Cscale (0.5 * dt) dtF) F in
  (* Convert to grad_a^2 and a^2 *)
  let Fx := 2 * Cre (Cmul Fx (Cconj F)) in
  let Fy := 2 * Cre (Cmul Fy (Cconj F)) in
  let Fz := 2 * Cre (Cmul Fz (Cconj F)) in
  let F := Cmul F (Cconj F) in
  let dtF := Cmul dtF (Cconj dtF) in
  (* Register in the particle arrays *)
  (if averaging then
     old <- getitem a2 i ;;
     setitem a2 set_a2 i (Cre (Cscale 0.5 (Cadd (RtoC old) F))) ;;;
     old <- getitem grad_a2_x i ;;
     setitem grad_a2_x set_grad_a2_x i (0.5 * (old + Fx)) ;;;
     old <- getitem grad_a2_y i ;;
     setitem grad_a2_y set_grad_a2_y i (0.5 * (old + Fy)) ;;;
     old <- getitem grad_a2_z i ;;
     setitem grad_a2_z set_grad_a2_z i (0.5 * (old + Fz)) ;;;
     old <- getitem a2_delayed i ;;
     setitem a2_delayed set_a2_delayed i
       (Cre (Cscale 0.5 (Cadd (RtoC old) F)))
   else
     setitem a2 set_a2 i (Cre F) ;;;
     setitem grad_a2_x set_grad_a2_x i Fx ;;;
     setitem grad_a2_y set_grad_a2_y i Fy ;;;
     setitem grad_a2_z set_grad_a2_z i Fz ;;;
     setitem a2_delayed set_a2_delayed i (Cre dtF))%method.

(** Body of the loop over particles of [gather_envelope_field_numba_linear]
    (lines 248-362). *)
Definition gather_envelope_linear_particle (H : InlineFunctions)
  (x y z : list R) (invdz zmin : R) (Nz : Z) (invdr rmin : R) (Nr : Z)
  (dt : R)
  (a_tuple grad_a_r_tuple grad_a_t_tuple grad_a_z_tuple dta_tuple
     : list ndarray2)
  (m_tuple : list Z) (averaging : bool) (i : Z)
  : method envelope_outputs unit :=
  (xj <- lift (py_index x i) ;;
   yj <- lift (py_index y i) ;;
   zj <- lift (py_index z i) ;;
   let '(rj, cos, sin) := cylindrical xj yj in
   let st := linear_shape invdz zmin Nz invdr rmin Nr rj zj in
   acc <- lift (envelope_modes_linear H cos sin st a_tuple grad_a_r_tuple
                  grad_a_t_tuple grad_a_z_tuple dta_tuple m_tuple) ;;
   envelope_register averaging dt cos sin i acc)%method.

(** [gather_envelope_field_numba_linear]: [for i in range(x.shape[0])]. *)
Definition gather_envelope_field_numba_linear (H : InlineFunctions)
  (x y z : list R) (invdz zmin : R) (Nz : Z) (invdr rmin : R) (Nr : Z)
  (dt : R)
  (a_tuple grad_a_r_tuple grad_a_t_tuple grad_a_z_tuple dta_tuple
     : list ndarray2)
  (m_tuple : list Z) (averaging : bool) : method envelope_outputs unit :=
  for_each (py_range 0 (Z.of_nat (length x)))
    (gather_envelope_linear_particle H x y z invdz zmin Nz invdr rmin Nr dt
       a_tuple grad_a_r_tuple grad_a_t_tuple grad_a_z_tuple dta_tuple
       m_tuple averaging).

(** Body of the loop over the particles of a chunk of
    [gather_envelope_field_numba_cubic] (lines 582-665). *)
Definition gather_envelope_cubic_particle (H : InlineFunctions)
  (x y z : list R) (invdz zmin : R) (Nz : Z) (invdr rmin : R) (Nr : Z)
  (dt : R)
  (a_tuple grad_a_r_tuple grad_a_t_tuple grad_a_z_tuple dta_tuple
     : list ndarray2)
  (m_tuple : list Z) (averaging : bool) (i : Z)
  : method envelope_outputs unit :=
  (xj <- lift (py_index x i) ;;
   yj <- lift (py_index y i) ;;
   zj <- lift (py_index z i) ;;
   let '(rj, cos, sin) := cylindrical xj yj in
   let st := cubic_shape invdz zmin invdr rmin rj zj in
   acc <- lift (envelope_modes_cubic H cos sin st Nr Nz a_tuple grad_a_r_tuple
                  grad_a_t_tuple grad_a_z_tuple dta_tuple m_tuple) ;;
   envelope_register averaging dt cos sin i acc)%method.

(** [gather_envelope_field_numba_cubic]: [for nt in prange(nthreads)], then
    the particles of the chunk. *)
Definition gather_envelope_field_numba_cubic (H : InlineFunctions)
  (x y z : list R) (invdz zmin : R) (Nz : Z) (invdr rmin : R) (Nr : Z)
  (dt : R)
  (a_tuple grad_a_r_tuple grad_a_t_tuple grad_a_z_tuple dta_tuple
     : list ndarray2)
  (m_tuple : list Z) (nthreads : Z) (ptcl_chunk_indices : list Z)
  (averaging : bool) : method envelope_outputs unit :=
  for_each (py_range 0 nthreads)
    (fun nt =>
       (lo <- lift (py_index ptcl_chunk_indices nt) ;;
        hi <- lift (py_index ptcl_chunk_indices (nt + 1)) ;;
        for_each (py_range lo hi)
          (gather_envelope_cubic_particle H x y z invdz zmin Nz invdr rmin Nr
             dt a_tuple grad_a_r_tuple grad_a_t_tuple grad_a_z_tuple dta_tuple
             m_tuple averaging))%method).

(** ** The quantities of the envelope specification *)

(** [I = F conj(F)] *)
Definition intensity (F : complex) : complex := Cmul F (Cconj F).

(** [G = 2 Re(Fc conj(F))] for a Cartesian component [Fc] of the gradient. *)
Definition intensity_gradient (Fc F : complex) : R := 2 * Cre (Cmul Fc (Cconj F)).

(** [dtF' = 0.5 dt dtF + F] *)
Definition half_step_amplitude (dt : R) (F dtF : complex) : complex :=
  Cadd (Cscale (0.5 * dt) dtF) F.

(** Unweighted mean of a stored value and a new value. *)
Definition unweighted_mean (old new : R) : R := 0.5 * (old + new).

(** ** The field gather, particle by particle *)

(** The accumulation of one mode by a kernel, once the stencil of the
    particle is fixed: it receives [rj], [zj], the mode, the accumulators,
    the phase factor and the three grid arrays of the mode. *)
Definition mode_gather : Type :=
  R -> R -> Z -> R -> R -> R -> complex -> ndarray2 -> ndarray2 -> ndarray2 ->
  result (R * R * R).

Definition linear_mode_gather (H : InlineFunctions)
  (invdz zmin : R) (Nz : Z) (invdr rmin : R) (Nr : Z) : mode_gather :=
  fun rj zj m Fr Ft Fz exptheta_m Fr_grid Ft_grid Fz_grid =>
    let st := linear_shape invdz zmin Nz invdr rmin Nr rj zj in
    add_linear_gather_for_mode H m Fr Ft Fz exptheta_m Fr_grid Ft_grid Fz_grid
      (iz_lower st) (iz_upper st) (ir_lower st) (ir_upper st)
      (S_ll st) (S_lu st) (S_lg st) (S_ul st) (S_uu st) (S_ug st).

Definition cubic_mode_gather (H : InlineFunctions)
  (invdz zmin : R) (Nz : Z) (invdr rmin : R) (Nr : Z) : mode_gather :=
  fun rj zj m Fr Ft Fz exptheta_m Fr_grid Ft_grid Fz_grid =>
    let st := cubic_shape invdz zmin invdr rmin rj zj in
    add_cubic_gather_for_mode H m Fr Ft Fz exptheta_m Fr_grid Ft_grid Fz_grid
      (ir_lowest st) (iz_lowest st) (Sr st) (Sz st) Nr Nz.

(** The common text of the two loop bodies [gather_linear_particle] and
    [gather_cubic_particle]. *)
Definition gather_particle (g : mode_gather) (i : Z) : method gather_state unit :=
  (xj <- getitem x i ;;
   yj <- getitem y i ;;
   zj <- getitem z i ;;
   let '(rj, cos, sin) := cylindrical xj yj in
   ' (Fr, Ft, Fz) <- (fun s => lift (g rj zj 0%Z
        0 0 0 (RtoC 1) (Er_m0 s) (Et_m0 s) (Ez_m0 s)) s) ;;
   ' (Fr, Ft, Fz) <- (fun s => lift (g rj zj 1%Z
        Fr Ft Fz (cos, - sin) (Er_m1 s) (Et_m1 s) (Ez_m1 s)) s) ;;
   setitem Ex set_Ex i (cos * Fr - sin * Ft) ;;;
   setitem Ey set_Ey i (sin * Fr + cos * Ft) ;;;
   setitem Ez set_Ez i Fz ;;;
   ' (Fr, Ft, Fz) <- (fun s => lift (g rj zj 0%Z
        0 0 0 (RtoC 1) (Br_m0 s) (Bt_m0 s) (Bz_m0 s)) s) ;;
   ' (Fr, Ft, Fz) <- (fun s => lift (g rj zj 1%Z
        Fr Ft Fz (cos, - sin) (Br_m1 s) (Bt_m1 s) (Bz_m1 s)) s) ;;
   setitem Bx set_Bx i (cos * Fr - sin * Ft) ;;;
   setitem By set_By i (sin * Fr + cos * Ft) ;;;
   setitem Bz set_Bz i Fz)%method.

(** The six values [(Ex, Ey, Ez, Bx, By, Bz)] that a loop body computes for
    a particle at [(xj, yj, zj)], from the grid arrays of the state. *)
Definition fields_at (g : mode_gather) (s : gather_state) (xj yj zj : R)
  : result (R * R * R * R * R * R) :=
  let '(rj, cos, sin) := cylindrical xj yj in
  (' (Er, Et, Ez) <- g rj zj 0%Z 0 0 0 (RtoC 1) (Er_m0 s) (Et_m0 s) (Ez_m0 s) ;;
   ' (Er, Et, Ez) <- g rj zj 1%Z Er Et Ez (cos, - sin)
                       (Er_m1 s) (Et_m1 s) (Ez_m1 s) ;;
   ' (Br, Bt, Bz) <- g rj zj 0%Z 0 0 0 (RtoC 1) (Br_m0 s) (Bt_m0 s) (Bz_m0 s) ;;
   ' (Br, Bt, Bz) <- g rj zj 1%Z Br Bt Bz (cos, - sin)
                       (Br_m1 s) (Bt_m1 s) (Bz_m1 s) ;;
   Ok (cos * Er - sin * Et, sin * Er + cos * Et, Ez,
       cos * Br - sin * Bt, sin * Br + cos * Bt, Bz))%result.

(** The arrays that a gather call only reads. *)
Definition same_inputs (s s' : gather_state) : Prop :=
  x s' = x s /\ y s' = y s /\ z s' = z s /\
  Er_m0 s' = Er_m0 s /\ Et_m0 s' = Et_m0 s /\ Ez_m0 s' = Ez_m0 s /\
  Er_m1 s' = Er_m1 s /\ Et_m1 s' = Et_m1 s /\ Ez_m1 s' = Ez_m1 s /\
  Br_m0 s' = Br_m0 s /\ Bt_m0 s' = Bt_m0 s /\ Bz_m0 s' = Bz_m0 s /\
  Br_m1 s' = Br_m1 s /\ Bt_m1 s' = Bt_m1 s /\ Bz_m1 s' = Bz_m1 s.

(** The grid arrays of two calls are equal. *)
Definition same_grids (s s' : gather_state) : Prop :=
  Er_m0 s' = Er_m0 s /\ Et_m0 s' = Et_m0 s /\ Ez_m0 s' = Ez_m0 s /\
  Er_m1 s' = Er_m1 s /\ Et_m1 s' = Et_m1 s /\ Ez_m1 s' = Ez_m1 s /\
  Br_m0 s' = Br_m0 s /\ Bt_m0 s' = Bt_m0 s /\ Bz_m0 s' = Bz_m0 s /\
  Br_m1 s' = Br_m1 s /\ Bt_m1 s' = Bt_m1 s /\ Bz_m1 s' = Bz_m1 s.

(** The nine particle arrays have length [N]. *)
Definition batch_of (N : nat) (s : gather_state) : Prop :=
  length (x s) = N /\ length (y s) = N /\ length (z s) = N /\
  length (Ex s) = N /\ length (Ey s) = N /\ length (Ez s) = N /\
  length (Bx s) = N /\ length (By s) = N /\ length (Bz s) = N.

(** Position and outputs of the particle of slot [k]. *)
Definition position_at (s : gather_state) (k : nat)
  : option R * option R * option R :=
  (nth_error (x s) k, nth_error (y s) k, nth_error (z s) k).

Definition outputs_at (s : gather_state) (k : nat)
  : option R * option R * option R * option R * option R * option R :=
  (nth_error (Ex s) k, nth_error (Ey s) k, nth_error (Ez s) k,
   nth_error (Bx s) k, nth_error (By s) k, nth_error (Bz s) k).

(** Slot [k] of the outputs of [s'] holds the fields gathered at the
    position of slot [k] of [s]. *)
Definition gathered_at (g : mode_gather) (s s' : gather_state) (k : nat) : Prop :=
  exists xj yj zj ex ey ez bx by_ bz,
    position_at s k = (Some xj, Some yj, Some zj) /\
    fields_at g s xj yj zj = Ok (ex, ey, ez, bx, by_, bz) /\
    outputs_at s' k = (Some ex, Some ey, Some ez, Some bx, Some by_, Some bz).

(** The slots of the chunks [0 .. nthreads-1] of a chunk boundary array. *)
Definition in_chunks (nthreads : Z) (ptcl_chunk_indices : list Z) (i : Z) : Prop :=
  exists nt lo hi,
    (0 <= nt < nthreads)%Z /\
    py_index ptcl_chunk_indices nt = Ok lo /\
    py_index ptcl_chunk_indices (nt + 1) = Ok hi /\
    (lo <= i < hi)%Z.

(** State [s] of a gather call started in [s0] on a batch of [N] particles,
    once the loop body has run for the indices that satisfy [P]: the input
    arrays are those of [s0], the slots of the processed indices hold the
    fields gathered at their own position, and every other slot of the
    outputs is as in [s0]. *)
Definition processed (g : mode_gather) (N : nat) (s0 : gather_state)
  (P : Z -> Prop) (s : gather_state) : Prop :=
  same_inputs s0 s /\ batch_of N s /\
  (forall k, (exists i, P i /\ py_norm_index N i = Some k) -> gathered_at g s0 s k) /\
  (forall k, (forall i, P i -> py_norm_index N i <> Some k) ->
     outputs_at s k = outputs_at s0 k).

(** ** Gathering a uniform field *)

(** What the gather of a uniform field needs of the accumulation [g] of
    one mode at the position [(rj, zj)], on arrays of shape [(Nz, Nr)]: it
    adds to each accumulator the real part of an interpolated value times
    the phase factor; the value interpolated from a uniform array of mode
    0 is its constant, and the value interpolated from a zero array, of
    any mode, is zero. *)
Definition reproduces_constants (g : mode_gather) (Nz Nr : Z) (rj zj : R) : Prop :=
  forall (m : Z) (Fr Ft Fz : R) (e : complex) (G1 G2 G3 : ndarray2),
    has_shape G1 Nz Nr -> has_shape G2 Nz Nr -> has_shape G3 Nz Nr ->
    exists v1 v2 v3 : complex,
      g rj zj m Fr Ft Fz e G1 G2 G3 =
        Ok (Fr + Cre (Cmul v1 e), Ft + Cre (Cmul v2 e), Fz + Cre (Cmul v3 e)) /\
      (forall c, uniform G1 c -> m = 0%Z \/ c = C0 -> v1 = c) /\
      (forall c, uniform G2 c -> m = 0%Z \/ c = C0 -> v2 = c) /\
      (forall c, uniform G3 c -> m = 0%Z \/ c = C0 -> v3 = c).

(** The twelve grid arrays have shape [(Nz, Nr)]. *)
Definition grids_shaped (Nz Nr : Z) (s : gather_state) : Prop :=
  has_shape (Er_m0 s) Nz Nr /\ has_shape (Et_m0 s) Nz Nr /\ has_shape (Ez_m0 s) Nz Nr /\
  has_shape (Er_m1 s) Nz Nr /\ has_shape (Et_m1 s) Nz Nr /\ has_shape (Ez_m1 s) Nz Nr /\
  has_shape (Br_m0 s) Nz Nr /\ has_shape (Bt_m0 s) Nz Nr /\ has_shape (Bz_m0 s) Nz Nr /\
  has_shape (Br_m1 s) Nz Nr /\ has_shape (Bt_m1 s) Nz Nr /\ has_shape (Bz_m1 s) Nz Nr.

(** All the arrays of mode 1 are zero. *)
Definition mode1_zero (s : gather_state) : Prop :=
  all_zero (Er_m1 s) /\ all_zero (Et_m1 s) /\ all_zero (Ez_m1 s) /\
  all_zero (Br_m1 s) /\ all_zero (Bt_m1 s) /\ all_zero (Bz_m1 s).

(** What the outputs of slot [k] of [s'] are when a mode-0 array of [s] is
    uniform: a uniform longitudinal array gives its real part; a uniform
    radial (azimuthal) array, the azimuthal (radial) array being zero,
    gives its real part rotated by the angle of the particle. *)
Definition uniform_fields_gathered (s s' : gather_state) (k : nat) : Prop :=
  exists xj yj zj rj cos sin,
    position_at s k = (Some xj, Some yj, Some zj) /\
    cylindrical xj yj = (rj, cos, sin) /\
    (forall c, uniform (Ez_m0 s) c -> nth_error (Ez s') k = Some (Cre c)) /\
    (forall c, uniform (Bz_m0 s) c -> nth_error (Bz s') k = Some (Cre c)) /\
    (forall c, uniform (Er_m0 s) c -> all_zero (Et_m0 s) ->
       nth_error (Ex s') k = Some (cos * Cre c) /\
       nth_error (Ey s') k = Some (sin * Cre c)) /\
    (forall c, uniform (Et_m0 s) c -> all_zero (Er_m0 s) ->
       nth_error (Ex s') k = Some (- sin * Cre c) /\
       nth_error (Ey s') k = Some (cos * Cre c)) /\
    (forall c, uniform (Br_m0 s) c -> all_zero (Bt_m0 s) ->
       nth_error (Bx s') k = Some (cos * Cre c) /\
       nth_error (By s') k = Some (sin * Cre c)) /\
    (forall c, uniform (Bt_m0 s) c -> all_zero (Br_m0 s) ->
       nth_error (Bx s') k = Some (- sin * Cre c) /\
       nth_error (By s') k = Some (cos * Cre c)).


(** The accumulation [g] has the property [reproduces_constants] at the
    position of every particle of the batch. *)
Definition reproduces_at_batch (g : mode_gather) (Nz Nr : Z) (s : gather_state)
  : Prop :=
  forall k xj yj zj, position_at s k = (Some xj, Some yj, Some zj) ->
    reproduces_constants g Nz Nr (sqrt (xj ^ 2 + yj ^ 2)) zj.

(** The particle of slot [k] lies inside the box along z, at a radius
    that is not below the lower radial edge of the grid. *)
Definition inside_box (invdz zmin : R) (Nz : Z) (invdr rmin : R)
  (s : gather_state) (k : nat) : Prop :=
  forall xj yj zj, position_at s k = (Some xj, Some yj, Some zj) ->
    0 <= invdz * (zj - zmin) <= IZR Nz /\
    0 <= invdr * (sqrt (xj ^ 2 + yj ^ 2) - rmin).

(** Chunk boundaries that stay inside the batch. *)
Definition chunks_in_batch (nthreads : Z) (ptcl_chunk_indices : list Z) (N : nat)
  : Prop :=
  forall nt, (0 <= nt < nthreads)%Z ->
    exists lo hi,
      py_index ptcl_chunk_indices nt = Ok lo /\
      py_index ptcl_chunk_indices (nt + 1) = Ok hi /\
      (0 <= lo)%Z /\ (hi <= Z.of_nat N)%Z.

(** ** A sample call, used in examples *)

(** Particles at the given positions, on a grid of 2 x 2 cells where the
    array [Er] of mode 0 is uniformly [1+0i] and every other array is
    zero; the outputs are initially zero. *)
Definition sample_state (xs ys zs : list R) : gather_state :=
  let zero := np_full 2 2 C0 in
  mk_gather_state xs ys zs
    (np_full 2 2 C1) zero zero zero zero zero
    zero zero zero zero zero zero
    (map (fun _ => 0) xs) (map (fun _ => 0) xs) (map (fun _ => 0) xs)
    (map (fun _ => 0) xs) (map (fun _ => 0) xs) (map (fun _ => 0) xs).

(** Squared modulus of a complex number. *)
Definition Cnorm2 (c : complex) : R := Cre c * Cre c + Cim c * Cim c.

(** ** The envelope gather, particle by particle *)

(** What a loop body of the linear envelope kernel computes for the
    particle of index [i] before it registers anything (lines 248-334):
    [cos], [sin] and the accumulators [(F, Fr, Ft, Fz, dtF)]. *)
Definition envelope_linear_at (H : InlineFunctions)
  (x y z : list R) (invdz zmin : R) (Nz : Z) (invdr rmin : R) (Nr : Z)
  (a_tuple grad_a_r_tuple grad_a_t_tuple grad_a_z_tuple dta_tuple
     : list ndarray2)
  (m_tuple : list Z) (i : Z) : result (R * R * envelope_acc) :=
  (xj <- py_index x i ;;
   yj <- py_index y i ;;
   zj <- py_index z i ;;
   let '(rj, cos, sin) := cylindrical xj yj in
   let st := linear_shape invdz zmin Nz invdr rmin Nr rj zj in
   acc <- envelope_modes_linear H cos sin st a_tuple grad_a_r_tuple
            grad_a_t_tuple grad_a_z_tuple dta_tuple m_tuple ;;
   Ok (cos, sin, acc))%result.

(** The same for the cubic envelope kernel (lines 582-637). *)
Definition envelope_cubic_at (H : InlineFunctions)
  (x y z : list R) (invdz zmin : R) (Nz : Z) (invdr rmin : R) (Nr : Z)
  (a_tuple grad_a_r_tuple grad_a_t_tuple grad_a_z_tuple dta_tuple
     : list ndarray2)
  (m_tuple : list Z) (i : Z) : result (R * R * envelope_acc) :=
  (xj <- py_index x i ;;
   yj <- py_index y i ;;
   zj <- py_index z i ;;
   let '(rj, cos, sin) := cylindrical xj yj in
   let st := cubic_shape invdz zmin invdr rmin rj zj in
   acc <- envelope_modes_cubic H cos sin st Nr Nz a_tuple grad_a_r_tuple
            grad_a_t_tuple grad_a_z_tuple dta_tuple m_tuple ;;
   Ok (cos, sin, acc))%result.

(** The common shape of the two envelope loop bodies: the accumulators of
    the particle are computed, then registered at its slot. *)
Definition register_after (pre : Z -> result (R * R * envelope_acc))
  (averaging : bool) (dt : R) (i : Z) : method envelope_outputs unit :=
  fun o =>
    match pre i with
    | Ok (cos, sin, acc) => envelope_register averaging dt cos sin i acc o
    | Raise e => (o, Raise e)
    end.

(** Slot [k] of the five output arrays. *)
Definition envelope_slot (o : envelope_outputs) (k : nat) : R * R * R * R * R :=
  (nth k (a2 o) 0, nth k (grad_a2_x o) 0, nth k (grad_a2_y o) 0,
   nth k (grad_a2_z o) 0, nth k (a2_delayed o) 0).

(** The five values that the registration (lines 336-362, 639-665) stores
    in a slot that holds [old]. *)
Definition registered (averaging : bool) (dt cos sin : R) (acc : envelope_acc)
  (old : R * R * R * R * R) : R * R * R * R * R :=
  let '(F, Fr, Ft, Fz, dtF) := acc in
  let '(old_a2, old_x, old_y, old_z, old_delayed) := old in
  let Fx := Csub (Cscale cos Fr) (Cscale sin Ft) in
  let Fy := Cadd (Cscale sin Fr) (Cscale cos Ft) in
  let blend old new := if averaging then unweighted_mean old new else new in
  (blend old_a2 (Cre (intensity F)),
   blend old_x (intensity_gradient Fx F),
   blend old_y (intensity_gradient Fy F),
   blend old_z (intensity_gradient Fz F),
   if averaging then unweighted_mean old_delayed (Cre (intensity F))
   else Cre (intensity (half_step_amplitude dt F dtF))).

(** The five output arrays of [o'] are as long as those of [o]. *)
Definition same_lengths (o o' : envelope_outputs) : Prop :=
  length (a2 o') = length (a2 o) /\
  length (grad_a2_x o') = length (grad_a2_x o) /\
  length (grad_a2_y o') = length (grad_a2_y o) /\
  length (grad_a2_z o') = length (grad_a2_z o) /\
  length (a2_delayed o') = length (a2_delayed o).

End threading_methods.

(* ------------------------------------------------------------------ *)
(** * fbpic/particles/gathering/inline_functions.py *)
(* ------------------------------------------------------------------ *)

Module inline_functions.

(** Modelled from the spec: the sign with which the guard weight of a
    particle next to the axis is folded back on the first radial cell
    (the source of the inline functions is missing).  The specification
    has a uniform field of mode 0 reproduced at every position, on the
    axis too, and the contributions of mode 1 cancel on the axis: the fold
    has the parity of the mode. *)
Definition guard_sign (m : Z) : R := if Z.even m then 1 else -1.

(** Modelled from the spec: the interpolation of one grid array of mode
    [m] at the support points of the linear stencil (the source of
    [add_linear_gather_for_mode] is missing).  The four regular products
    weigh the four support points; the two guard products, which the
    kernel computes and passes, weigh the first radial cell, to which the
    index below the axis was clamped. *)
Definition linear_interp (m : Z) (G : ndarray2)
  (iz_lower iz_upper ir_lower ir_upper : Z)
  (S_ll S_lu S_lg S_ul S_uu S_ug : R) : result complex :=
  (v_ll <- get2 G iz_lower ir_lower ;;
   v_lu <- get2 G iz_lower ir_upper ;;
   v_ul <- get2 G iz_upper ir_lower ;;
   v_uu <- get2 G iz_upper ir_upper ;;
   v_lg <- get2 G iz_lower 0 ;;
   v_ug <- get2 G iz_upper 0 ;;
   Ok (Cadd (Cadd (Cadd (Cscale S_ll v_ll) (Cscale S_lu v_lu))
                  (Cadd (Cscale S_ul v_ul) (Cscale S_uu v_uu)))
            (Cscale (guard_sign m)
               (Cadd (Cscale S_lg v_lg) (Cscale S_ug v_ug)))))%result.

(** Modelled from the spec: [add_linear_gather_for_mode], whose source is
    missing.  The complex fields of mode [m] are interpolated at the
    support points and multiplied by the phase factor; the kernel stores
    the accumulators into real arrays without conversion, so the real part
    is taken here. *)
Definition add_linear_gather_for_mode (m : Z) (Fr Ft Fz : R)
  (exptheta_m : complex) (Fr_grid Ft_grid Fz_grid : ndarray2)
  (iz_lower iz_upper ir_lower ir_upper : Z)
  (S_ll S_lu S_lg S_ul S_uu S_ug : R) : result (R * R * R) :=
  (Fr_m <- linear_interp m Fr_grid iz_lower iz_upper ir_lower ir_upper
             S_ll S_lu S_lg S_ul S_uu S_ug ;;
   Ft_m <- linear_interp m Ft_grid iz_lower iz_upper ir_lower ir_upper
             S_ll S_lu S_lg S_ul S_uu S_ug ;;
   Fz_m <- linear_interp m Fz_grid iz_lower iz_upper ir_lower ir_upper
             S_ll S_lu S_lg S_ul S_uu S_ug ;;
   Ok (Fr + Cre (Cmul Fr_m exptheta_m),
       Ft + Cre (Cmul Ft_m exptheta_m),
       Fz + Cre (Cmul Fz_m exptheta_m)))%result.

(** Modelled from the spec: one support point of the cubic stencil, with
    the boundary rules of the specification (the source of
    [add_cubic_gather_for_mode] is missing): a radial index below 0 is
    clamped to 0 and a radial index above [Nr-1] to [Nr-1], the point
    keeping its weight (the guard bucket exists in linear order only, and
    a uniform field is reproduced at every position); a longitudinal index
    is wrapped once by [Nz]. *)
Definition cubic_point (G : ndarray2) (ir_lowest iz_lowest : Z)
  (Sr Sz : list R) (Nr Nz : Z) (kl : Z * Z) : result complex :=
  let '(index_r, index_z) := kl in
  (sr <- py_index Sr index_r ;;
   sz <- py_index Sz index_z ;;
   let ir := (ir_lowest + index_r)%Z in
   let iz := (iz_lowest + index_z)%Z in
   let ir := if (ir <? 0)%Z then 0%Z else ir in
   let ir := if (ir >? Nr - 1)%Z then (Nr - 1)%Z else ir in
   let iz := if (iz <? 0)%Z then (iz + Nz)%Z else iz in
   let iz := if (iz >? Nz - 1)%Z then (iz - Nz)%Z else iz in
   v <- get2 G iz ir ;;
   Ok (Cscale (sr * sz) v))%result.

(** Modelled from the spec: the sixteen support points
    [(index_r, index_z)] of the cubic stencil, four per axis. *)
Definition cubic_points : list (Z * Z) :=
  list_prod [0; 1; 2; 3]%Z [0; 1; 2; 3]%Z.

(** Modelled from the spec: interpolation of one grid array over the cubic
    stencil. *)
Definition cubic_interp (G : ndarray2) (ir_lowest iz_lowest : Z)
  (Sr Sz : list R) (Nr Nz : Z) : result complex :=
  fold_result cubic_points
    (fun kl acc =>
       (v <- cubic_point G ir_lowest iz_lowest Sr Sz Nr Nz kl ;;
        Ok (Cadd acc v))%result)
    C0.

(** Modelled from the spec: [add_cubic_gather_for_mode], whose source is
    missing. *)
Definition add_cubic_gather_for_mode (m : Z) (Fr Ft Fz : R)
  (exptheta_m : complex) (Fr_grid Ft_grid Fz_grid : ndarray2)
  (ir_lowest iz_lowest : Z) (Sr Sz : list R) (Nr Nz : Z)
  : result (R * R * R) :=
  (Fr_m <- cubic_interp Fr_grid ir_lowest iz_lowest Sr Sz Nr Nz ;;
   Ft_m <- cubic_interp Ft_grid ir_lowest iz_lowest Sr Sz Nr Nz ;;
   Fz_m <- cubic_interp Fz_grid ir_lowest iz_lowest Sr Sz Nr Nz ;;
   Ok (Fr + Cre (Cmul Fr_m exptheta_m),
       Ft + Cre (Cmul Ft_m exptheta_m),
       Fz + Cre (Cmul Fz_m exptheta_m)))%result.

(** Modelled from the spec: [add_linear_envelope_gather_for_mode], whose
    source is missing: the amplitude, its gradient and its time derivative
    are interpolated and accumulated with the phase factor of the mode. *)
Definition add_linear_envelope_gather_for_mode (m : Z)
  (F Fr Ft Fz dtF exptheta_m : complex)
  (a_m grad_a_r_m grad_a_t_m grad_a_z_m dta_m : ndarray2)
  (iz_lower iz_upper ir_lower ir_upper : Z)
  (S_ll S_lu S_lg S_ul S_uu S_ug : R)
  : result (complex * complex * complex * complex * complex) :=
  let interp G := linear_interp m G iz_lower iz_upper ir_lower ir_upper
                    S_ll S_lu S_lg S_ul S_uu S_ug in
  (F_m <- interp a_m ;;
   Fr_m <- interp grad_a_r_m ;;
   Ft_m <- interp grad_a_t_m ;;
   Fz_m <- interp grad_a_z_m ;;
   dtF_m <- interp dta_m ;;
   Ok (Cadd F (Cmul F_m exptheta_m),
       Cadd Fr (Cmul Fr_m exptheta_m),
       Cadd Ft (Cmul Ft_m exptheta_m),
       Cadd Fz (Cmul Fz_m exptheta_m),
       Cadd dtF (Cmul dtF_m exptheta_m)))%result.

(** Modelled from the spec: [add_cubic_envelope_gather_for_mode], whose
    source is missing. *)
Definition add_cubic_envelope_gather_for_mode (m : Z)
  (F Fr Ft Fz dtF exptheta_m : complex)
  (a_m grad_a_r_m grad_a_t_m grad_a_z_m dta_m : ndarray2)
  (ir_lowest iz_lowest : Z) (Sr Sz : list R) (Nr Nz : Z)
  : result (complex * complex * complex * complex * complex) :=
  let interp G := cubic_interp G ir_lowest iz_lowest Sr Sz Nr Nz in
  (F_m <- interp a_m ;;
   Fr_m <- interp grad_a_r_m ;;
   Ft_m <- interp grad_a_t_m ;;
   Fz_m <- interp grad_a_z_m ;;
   dtF_m <- interp dta_m ;;
   Ok (Cadd F (Cmul F_m exptheta_m),
       Cadd Fr (Cmul Fr_m exptheta_m),
       Cadd Ft (Cmul Ft_m exptheta_m),
       Cadd Fz (Cmul Fz_m exptheta_m),
       Cadd dtF (Cmul dtF_m exptheta_m)))%result.

(** Modelled from the spec: the four inline functions, as the kernels of
    [threading_methods] receive them. *)
Definition functions : threading_methods.InlineFunctions :=
  {| threading_methods.add_linear_gather_for_mode := add_linear_gather_for_mode;
     threading_methods.add_cubic_gather_for_mode := add_cubic_gather_for_mode;
     threading_methods.add_linear_envelope_gather_for_mode :=
       add_linear_envelope_gather_for_mode;
     threading_methods.add_cubic_envelope_gather_for_mode :=
       add_cubic_envelope_gather_for_mode |}.

(** Weight of the support point [(index_r, index_z)] of a cubic stencil. *)
Definition point_weight (Sr Sz : list R) (kl : Z * Z) : R :=
  nth (Z.to_nat (fst kl)) Sr 0 * nth (Z.to_nat (snd kl)) Sz 0.

End inline_functions.

(* ------------------------------------------------------------------ *)
(** * Properties of the runtime model *)
(* ------------------------------------------------------------------ *)

(** The decimal literal of the sources, as a fraction. *)
Lemma half_decimal : 0.5 = 1 / 2.
Proof. lra. Qed.

Lemma py_div_nonzero (a b : R) : b <> 0 -> py_div a b = Ok (a / b).
Proof.
  intros Hb. unfold py_div. destruct (Req_dec_T b 0) as [E | _]; [contradiction | reflexivity].
Qed.

Lemma py_div_zero (a b : R) : b = 0 -> py_div a b = Raise ZeroDivisionError.
Proof.
  intros Hb. unfold py_div. destruct (Req_dec_T b 0) as [_ | N]; [reflexivity | contradiction].
Qed.

Lemma py_div_cases (a b : R) :
  (b = 0 /\ py_div a b = Raise ZeroDivisionError) \/
  (b <> 0 /\ py_div a b = Ok (a / b)).
Proof.
  destruct (Req_dec_T b 0) as [E | N].
  - left. split; [assumption | now apply py_div_zero].
  - right. split; [assumption | now apply py_div_nonzero].
Qed.

Lemma np_zeros_nonneg (n0 n1 : Z) :
  (0 <= n0)%Z -> (0 <= n1)%Z ->
  np_zeros n0 n1 = Ok (mk_ndarray2 (Z.to_nat n0) (Z.to_nat n1) (fun _ _ => C0)).
Proof.
  intros H0 H1. unfold np_zeros.
  destruct (Z.ltb_spec n0 0); [lia |].
  destruct (Z.ltb_spec n1 0); [lia | reflexivity].
Qed.

Lemma np_zeros_negative (n0 n1 : Z) :
  (n0 < 0 \/ n1 < 0)%Z ->
  np_zeros n0 n1 = Raise (ValueError "negative dimensions are not allowed").
Proof.
  intros H. unfold np_zeros.
  destruct (Z.ltb_spec n0 0); [reflexivity |].
  destruct (Z.ltb_spec n1 0); [reflexivity | lia].
Qed.

Lemma Rsum_app (l1 l2 : list R) : Rsum (l1 ++ l2) = Rsum l1 + Rsum l2.
Proof.
  unfold Rsum. induction l1 as [| h t IH]; simpl; [| rewrite IH]; lra.
Qed.

(** The sum of the first [n] odd numbers, scaled. *)
Lemma Rsum_odd (c : R) (n : nat) :
  Rsum (map (fun k => c * (2 * k + 1)) (map INR (seq 0 n))) = c * INR n ^ 2.
Proof.
  induction n as [| n IH].
  - unfold Rsum. simpl. lra.
  - rewrite seq_S, !map_app, Rsum_app, IH.
    cbn [Nat.add map Rsum fold_right]. rewrite S_INR. ring.
Qed.

Lemma arange_length (n : Z) : length (arange n) = Z.to_nat n.
Proof. unfold arange. now rewrite length_map, length_seq. Qed.

Lemma arange_nth (n : Z) (k : nat) :
  (k < Z.to_nat n)%nat -> nth k (arange n) 0 = INR k.
Proof.
  intros Hk. unfold arange.
  change 0 with (INR 0). rewrite map_nth. now rewrite seq_nth.
Qed.

Lemma INR_to_nat (n : Z) : (0 <= n)%Z -> INR (Z.to_nat n) = IZR n.
Proof. intros Hn. rewrite INR_IZR_INZ. now rewrite Z2Nat.id. Qed.

Lemma nth_map_lt {A B : Type} (f : A -> B) (l : list A) (k : nat) (d : A) (d' : B) :
  (k < length l)%nat -> nth k (map f l) d' = f (nth k l d).
Proof.
  intros Hk. rewrite (nth_indep _ d' (f d)) by now rewrite length_map.
  apply map_nth.
Qed.

(** ** Indexing *)

Lemma py_norm_index_nat (len k : nat) :
  (k < len)%nat -> py_norm_index len (Z.of_nat k) = Some k.
Proof.
  intros Hk. unfold py_norm_index.
  destruct (Z.leb_spec 0 (Z.of_nat k)); [| lia].
  destruct (Z.ltb_spec (Z.of_nat k) (Z.of_nat len)); [| lia].
  now rewrite Nat2Z.id.
Qed.

Lemma py_norm_index_lt (len : nat) (i : Z) (k : nat) :
  py_norm_index len i = Some k -> (k < len)%nat.
Proof.
  unfold py_norm_index.
  destruct (Z.leb_spec 0 i).
  - destruct (Z.ltb_spec i (Z.of_nat len)); [| discriminate].
    intros [= <-]. lia.
  - destruct (Z.leb_spec (- Z.of_nat len) i); [| discriminate].
    intros [= <-]. lia.
Qed.

Lemma py_index_nat {A : Type} (l : list A) (k : nat) (d : A) :
  (k < length l)%nat -> py_index l (Z.of_nat k) = Ok (nth k l d).
Proof.
  intros Hk. unfold py_index. rewrite py_norm_index_nat by assumption.
  now rewrite (nth_error_nth' l d Hk).
Qed.

Lemma py_index_inv {A : Type} (l : list A) (i : Z) (v : A) :
  py_index l i = Ok v ->
  exists k, py_norm_index (length l) i = Some k /\ nth_error l k = Some v.
Proof.
  unfold py_index. destruct (py_norm_index (length l) i) as [k |]; [| discriminate].
  destruct (nth_error l k) as [a |] eqn:E; [| discriminate].
  intros [= <-]. now exists k.
Qed.

Lemma py_setitem_nat {A : Type} (l : list A) (k : nat) (v : A) :
  (k < length l)%nat -> py_setitem l (Z.of_nat k) v = Ok (list_set l k v).
Proof.
  intros Hk. unfold py_setitem. now rewrite py_norm_index_nat.
Qed.

Lemma py_setitem_inv {A : Type} (l l' : list A) (i : Z) (v : A) :
  py_setitem l i v = Ok l' ->
  exists k, py_norm_index (length l) i = Some k /\ l' = list_set l k v.
Proof.
  unfold py_setitem. destruct (py_norm_index (length l) i) as [k |]; [| discriminate].
  intros [= <-]. now exists k.
Qed.

Lemma list_set_length {A : Type} (l : list A) (k : nat) (v : A) :
  length (list_set l k v) = length l.
Proof.
  revert k. induction l as [| h t IH]; intros [| k]; cbn; try reflexivity.
  now rewrite IH.
Qed.

Lemma list_set_same {A : Type} (l : list A) (k : nat) (v : A) :
  (k < length l)%nat -> nth_error (list_set l k v) k = Some v.
Proof.
  revert k. induction l as [| h t IH]; intros [| k] Hk; cbn in *; try lia.
  - reflexivity.
  - apply IH. lia.
Qed.

Lemma list_set_other {A : Type} (l : list A) (k j : nat) (v : A) :
  j <> k -> nth_error (list_set l k v) j = nth_error l j.
Proof.
  revert k j. induction l as [| h t IH]; intros [| k] [| j] Hjk; cbn;
    try reflexivity; try congruence.
  apply IH. congruence.
Qed.

(* ------------------------------------------------------------------ *)
(** * Properties of the interpolation grids *)
(* ------------------------------------------------------------------ *)

Module interpolation_grid_facts.
Import interpolation_grid.

(** ** Construction *)

(** The grid that [__init__] builds when no division fails. *)
Lemma init_nonzero (Nz Nr m : Z) (zmin zmax rmax : R) (uc : bool) :
  Nr <> 0%Z -> Nz <> 0%Z -> rmax <> 0 -> zmax <> zmin ->
  let dr := rmax / IZR Nr in
  let dz := (zmax - zmin) / IZR Nz in
  let invvol :=
    map (fun v => 1 / v)
      (map (shell_volume dz dr) (map (fun k => (0.5 + k) * dr) (arange Nr))) in
  InterpolationGrid_init Nz Nr m zmin zmax rmax uc =
  Ok (mk_InterpolationGrid Nz Nr m dr dz (1 / dr) (1 / dz) 0 rmax zmin zmax
        invvol uc (if uc then Some invvol else None)).
Proof.
  intros HNr HNz Hr Hz dr0 dz0 invvol0.
  assert (HNr' : IZR Nr <> 0) by now apply not_0_IZR.
  assert (HNz' : IZR Nz <> 0) by now apply not_0_IZR.
  assert (Hdr : dr0 <> 0).
  { unfold dr0, Rdiv. apply Rmult_integral_contrapositive_currified;
      [assumption | now apply Rinv_neq_0_compat]. }
  assert (Hdz : dz0 <> 0).
  { unfold dz0, Rdiv. apply Rmult_integral_contrapositive_currified;
      [lra | now apply Rinv_neq_0_compat]. }
  unfold InterpolationGrid_init.
  rewrite (py_div_nonzero rmax _ HNr'). cbn [rbind].
  rewrite (py_div_nonzero (zmax - zmin) _ HNz'). cbn [rbind].
  fold dr0 dz0.
  rewrite (py_div_nonzero 1 _ Hdr). cbn [rbind].
  rewrite (py_div_nonzero 1 _ Hdz). cbn [rbind].
  reflexivity.
Qed.

(** [__init__] raises exactly when one of its four divisions has a zero
    divisor. *)
Lemma init_raises_iff (Nz Nr m : Z) (zmin zmax rmax : R) (uc : bool) :
  InterpolationGrid_init Nz Nr m zmin zmax rmax uc = Raise ZeroDivisionError <->
  (Nr = 0%Z \/ Nz = 0%Z \/ rmax = 0 \/ zmax = zmin).
Proof.
  split.
  - intros Hraise.
    destruct (Z.eq_dec Nr 0) as [| HNr]; [now left |].
    destruct (Z.eq_dec Nz 0) as [| HNz]; [now right; left |].
    destruct (Req_dec_T rmax 0) as [| Hr]; [now right; right; left |].
    destruct (Req_dec_T zmax zmin) as [| Hz]; [now right; right; right |].
    pose proof (init_nonzero Nz Nr m zmin zmax rmax uc HNr HNz Hr Hz) as Hok.
    cbv zeta in Hok. rewrite Hok in Hraise. discriminate.
  - intros Hzero. unfold InterpolationGrid_init.
    destruct (py_div_cases rmax (IZR Nr)) as [[_ E1] | [N1 E1]];
      rewrite E1; cbn [rbind]; [reflexivity |].
    destruct (py_div_cases (zmax - zmin) (IZR Nz)) as [[_ E2] | [N2 E2]];
      rewrite E2; cbn [rbind]; [reflexivity |].
    destruct (py_div_cases 1 (rmax / IZR Nr)) as [[_ E3] | [N3 E3]];
      rewrite E3; cbn [rbind]; [reflexivity |].
    destruct (py_div_cases 1 ((zmax - zmin) / IZR Nz)) as [[_ E4] | [N4 E4]];
      rewrite E4; cbn [rbind]; [reflexivity |].
    exfalso. destruct Hzero as [H | [H | [H | H]]].
    + apply N1. now rewrite H.
    + apply N2. now rewrite H.
    + apply N3. rewrite H. unfold Rdiv. ring.
    + apply N4. rewrite H. unfold Rdiv. ring.
Qed.

Lemma init_raises_only_division (Nz Nr m : Z) (zmin zmax rmax : R) (uc : bool) (e : exn) :
  InterpolationGrid_init Nz Nr m zmin zmax rmax uc = Raise e ->
  e = ZeroDivisionError.
Proof.
  unfold InterpolationGrid_init.
  destruct (py_div_cases rmax (IZR Nr)) as [[_ E1] | [N1 E1]];
    rewrite E1; cbn [rbind]; [congruence |].
  destruct (py_div_cases (zmax - zmin) (IZR Nz)) as [[_ E2] | [N2 E2]];
    rewrite E2; cbn [rbind]; [congruence |].
  destruct (py_div_cases 1 (rmax / IZR Nr)) as [[_ E3] | [N3 E3]];
    rewrite E3; cbn [rbind]; [congruence |].
  destruct (py_div_cases 1 ((zmax - zmin) / IZR Nz)) as [[_ E4] | [N4 E4]];
    rewrite E4; cbn [rbind]; [congruence | discriminate].
Qed.

Lemma valid_arguments_nonzero (Nz Nr : Z) (zmin zmax rmax : R) :
  valid_arguments Nz Nr zmin zmax rmax ->
  Nr <> 0%Z /\ Nz <> 0%Z /\ rmax <> 0 /\ zmax <> zmin.
Proof. unfold valid_arguments. intros (H1 & H2 & H3 & H4). repeat split; try lia; lra. Qed.

(** ** The four operations: case analysis *)

Ltac run_method :=
  unfold erase, divide_by_volume, envelope_erase, divide_by_volume_and_e0,
    assign, inplace, launch3, mbind, mraise, get_d_invvol;
  repeat (match goal with
          | |- context [if use_cuda ?g then _ else _] => destruct (use_cuda g)
          | |- context [String.eqb ?a ?b] => destruct (String.eqb_spec a b)
          | |- context [match d_invvol ?g with _ => _ end] => destruct (d_invvol g)
          | |- context [device_truediv ?K ?v ?x] => destruct (device_truediv K v x)
          | |- context [imul_newaxis ?a ?v] => destruct (imul_newaxis a v) eqn:?
          | |- context [cuda_erase_vector ?K ?d ?a ?b ?c] =>
              destruct (cuda_erase_vector K d a b c) as [[? ?] ?]
          | |- context [cuda_divide_vector_by_volume ?K ?d ?a ?b ?c ?v] =>
              destruct (cuda_divide_vector_by_volume K d a b c v) as [[? ?] ?]
          end; cbn).

Ltac frame_cases := intros; repeat split; intros; subst; try reflexivity; try congruence.

(** Arrays and metadata that [erase] leaves as they were. *)
Lemma erase_frame (K : CudaBackend) (name : string) (self : FieldInterpolationGrid) :
  let self' := fst (erase K name self) in
  fgrid self' = fgrid self /\
  (name <> "E"%string -> Er self' = Er self /\ Et self' = Et self /\ Ez self' = Ez self) /\
  (name <> "B"%string -> Br self' = Br self /\ Bt self' = Bt self /\ Bz self' = Bz self) /\
  (name <> "J"%string -> Jr self' = Jr self /\ Jt self' = Jt self /\ Jz self' = Jz self) /\
  (name <> "rho"%string -> rho self' = rho self).
Proof. cbv zeta. run_method; frame_cases. Qed.

Lemma divide_by_volume_frame (K : CudaBackend) (name : string) (self : FieldInterpolationGrid) :
  let self' := fst (divide_by_volume K name self) in
  fgrid self' = fgrid self /\
  Er self' = Er self /\ Et self' = Et self /\ Ez self' = Ez self /\
  Br self' = Br self /\ Bt self' = Bt self /\ Bz self' = Bz self /\
  (name <> "J"%string -> Jr self' = Jr self /\ Jt self' = Jt self /\ Jz self' = Jz self) /\
  (name <> "rho"%string -> rho self' = rho self).
Proof. cbv zeta. run_method; frame_cases. Qed.

Lemma envelope_erase_frame (K : CudaBackend) (name : string) (self : EnvelopeInterpolationGrid) :
  let self' := fst (envelope_erase K name self) in
  egrid self' = egrid self /\
  a self' = a self /\ dta self' = dta self /\
  grad_a_r self' = grad_a_r self /\ grad_a_t self' = grad_a_t self /\
  grad_a_z self' = grad_a_z self /\
  (name <> "chi"%string -> chi self' = chi self) /\
  (name <> "chi_a"%string -> chi_a self' = chi_a self).
Proof. cbv zeta. run_method; frame_cases. Qed.

Lemma divide_by_volume_and_e0_frame (K : CudaBackend) (name : string)
  (self : EnvelopeInterpolationGrid) :
  let self' := fst (divide_by_volume_and_e0 K name self) in
  egrid self' = egrid self /\
  a self' = a self /\ dta self' = dta self /\
  grad_a_r self' = grad_a_r self /\ grad_a_t self' = grad_a_t self /\
  grad_a_z self' = grad_a_z self /\
  chi_a self' = chi_a self /\
  (name <> "chi"%string -> chi self' = chi self).
Proof. cbv zeta. run_method; frame_cases. Qed.

(** ** Group names *)

Lemma imul_newaxis_error (a0 : ndarray2) (v : list R) (e : exn) :
  imul_newaxis a0 v = Raise e ->
  e = ValueError "operands could not be broadcast together".
Proof.
  unfold imul_newaxis.
  destruct (Nat.eqb (length v) (shape1 a0)); [discriminate |].
  destruct (Nat.eqb (length v) 1); [discriminate | congruence].
Qed.

Lemma fill_zero_all_zero (a0 : ndarray2) :
  all_zero (fill_zero a0) /\
  shape0 (fill_zero a0) = shape0 a0 /\ shape1 (fill_zero a0) = shape1 a0.
Proof. unfold all_zero, uniform, fill_zero. cbn. auto. Qed.

Ltac not_in_names :=
  match goal with
  | H : ~ In _ _ |- _ => exfalso; apply H; cbn; tauto
  end.

Ltac broadcast_error :=
  match goal with
  | H : imul_newaxis _ _ = Raise _ |- _ =>
      apply imul_newaxis_error in H; subst; discriminate
  end.

Lemma erase_rejects (K : CudaBackend) (name : string) (self : FieldInterpolationGrid) :
  ~ In name ["E"; "B"; "J"; "rho"]%string ->
  erase K name self = (self, Raise (invalid_fieldtype name)).
Proof. intros Hn. run_method; subst; try reflexivity; not_in_names. Qed.

Lemma erase_accepts (K : CudaBackend) (name : string) (self : FieldInterpolationGrid) :
  In name ["E"; "B"; "J"; "rho"]%string ->
  snd (erase K name self) = Ok tt.
Proof.
  intros Hn. cbn in Hn.
  run_method; subst; try reflexivity; intuition congruence.
Qed.

Lemma divide_by_volume_rejects (K : CudaBackend) (name : string)
  (self : FieldInterpolationGrid) :
  ~ In name ["J"; "rho"]%string ->
  divide_by_volume K name self = (self, Raise (invalid_fieldtype name)).
Proof. intros Hn. run_method; subst; try reflexivity; not_in_names. Qed.

Lemma divide_by_volume_accepts (K : CudaBackend) (name : string)
  (self : FieldInterpolationGrid) :
  In name ["J"; "rho"]%string ->
  snd (divide_by_volume K name self) <> Raise (invalid_fieldtype name).
Proof.
  intros Hn. cbn in Hn.
  run_method; subst; try discriminate; try broadcast_error; intuition congruence.
Qed.

Lemma envelope_erase_rejects (K : CudaBackend) (name : string)
  (self : EnvelopeInterpolationGrid) :
  ~ In name ["chi"; "chi_a"]%string ->
  envelope_erase K name self = (self, Raise (invalid_fieldtype name)).
Proof. intros Hn. run_method; subst; try reflexivity; not_in_names. Qed.

Lemma envelope_erase_accepts (K : CudaBackend) (name : string)
  (self : EnvelopeInterpolationGrid) :
  In name ["chi"; "chi_a"]%string ->
  snd (envelope_erase K name self) = Ok tt.
Proof.
  intros Hn. cbn in Hn.
  run_method; subst; try reflexivity; intuition congruence.
Qed.

Lemma divide_by_volume_and_e0_rejects (K : CudaBackend) (name : string)
  (self : EnvelopeInterpolationGrid) :
  ~ In name ["chi"]%string ->
  divide_by_volume_and_e0 K name self = (self, Raise (invalid_fieldtype name)).
Proof. intros Hn. run_method; subst; try reflexivity; not_in_names. Qed.

Lemma divide_by_volume_and_e0_accepts (K : CudaBackend) (name : string)
  (self : EnvelopeInterpolationGrid) :
  In name ["chi"]%string ->
  snd (divide_by_volume_and_e0 K name self) <> Raise (invalid_fieldtype name).
Proof.
  intros Hn. cbn in Hn.
  run_method; subst; try discriminate; try broadcast_error; intuition congruence.
Qed.

(** On the host, [erase] fills the arrays of the named group with zeros. *)
Lemma erase_zeroes (K : CudaBackend) (name : string) (self : FieldInterpolationGrid) :
  use_cuda (fgrid self) = false ->
  let self' := fst (erase K name self) in
  (name = "E"%string ->
     Er self' = fill_zero (Er self) /\ Et self' = fill_zero (Et self) /\
     Ez self' = fill_zero (Ez self)) /\
  (name = "B"%string ->
     Br self' = fill_zero (Br self) /\ Bt self' = fill_zero (Bt self) /\
     Bz self' = fill_zero (Bz self)) /\
  (name = "J"%string ->
     Jr self' = fill_zero (Jr self) /\ Jt self' = fill_zero (Jt self) /\
     Jz self' = fill_zero (Jz self)) /\
  (name = "rho"%string -> rho self' = fill_zero (rho self)).
Proof.
  intros Hcpu. cbv zeta. unfold erase. rewrite Hcpu.
  run_method; frame_cases.
Qed.

Lemma envelope_erase_zeroes (K : CudaBackend) (name : string)
  (self : EnvelopeInterpolationGrid) :
  use_cuda (egrid self) = false ->
  let self' := fst (envelope_erase K name self) in
  (name = "chi"%string -> chi self' = fill_zero (chi self)) /\
  (name = "chi_a"%string -> chi_a self' = fill_zero (chi_a self)).
Proof.
  intros Hcpu. cbv zeta. unfold envelope_erase. rewrite Hcpu.
  run_method; frame_cases.
Qed.

(** ** Geometry *)

Lemma centred_cells_map (lo hi step : R) (n : Z) :
  (0 < n)%Z -> 0 < step -> hi = lo + IZR n * step ->
  centred_cells (map (fun k => lo + (0.5 + k) * step) (arange n)) n lo hi step.
Proof.
  intros Hn Hstep Hhi.
  assert (Hnth : forall i, (i < Z.to_nat n)%nat ->
            nth i (map (fun k => lo + (0.5 + k) * step) (arange n)) 0
            = lo + (INR i + 0.5) * step).
  { intros i Hi. rewrite (nth_map_lt _ _ _ 0) by now rewrite arange_length.
    rewrite arange_nth by assumption. ring. }
  repeat split.
  - now rewrite length_map, arange_length.
  - now apply Hnth.
  - rewrite Hnth by assumption. pose proof (pos_INR i). nra.
  - rewrite Hnth by assumption.
    assert (INR (S i) <= IZR n).
    { rewrite <- INR_to_nat by lia. apply le_INR. lia. }
    rewrite S_INR in *. nra.
  - intros i Hi. rewrite !Hnth by lia. rewrite S_INR. ring.
Qed.

Lemma shell_volume_centre (dz0 dr0 k : R) :
  shell_volume dz0 dr0 ((0.5 + k) * dr0) = PI * dz0 * dr0 ^ 2 * (2 * k + 1).
Proof. unfold shell_volume. rewrite half_decimal. field. Qed.

Lemma shell_volume_pos (dz0 dr0 k : R) :
  0 < dz0 -> 0 < dr0 -> 0 <= k -> 0 < shell_volume dz0 dr0 ((0.5 + k) * dr0).
Proof.
  intros Hz Hr Hk. rewrite shell_volume_centre.
  pose proof PI_RGT_0.
  apply Rmult_lt_0_compat; [| lra].
  apply Rmult_lt_0_compat; [| nra].
  now apply Rmult_lt_0_compat.
Qed.

Lemma arange_nonneg (n : Z) (k : R) : In k (arange n) -> 0 <= k.
Proof.
  unfold arange. intros Hin. apply in_map_iff in Hin.
  destruct Hin as (i & <- & _). apply pos_INR.
Qed.

(** The grid built from valid arguments satisfies the geometry invariant. *)
Lemma init_geometry (Nz Nr m : Z) (zmin zmax rmax : R) (uc : bool) :
  valid_arguments Nz Nr zmin zmax rmax ->
  exists g, InterpolationGrid_init Nz Nr m zmin zmax rmax uc = Ok g /\
            geometry_invariant g /\
            interpolation_grid.Nz g = Nz /\ interpolation_grid.Nr g = Nr /\
            interpolation_grid.zmin g = zmin /\ interpolation_grid.zmax g = zmax /\
            interpolation_grid.rmax g = rmax /\ rmin g = 0 /\
            invdz g = 1 / dz g /\ invdr g = 1 / dr g /\ use_cuda g = uc.
Proof.
  intros Hv. pose proof (valid_arguments_nonzero _ _ _ _ _ Hv) as (N1 & N2 & N3 & N4).
  destruct Hv as (HNz & HNr & Hz & Hr).
  pose proof (init_nonzero Nz Nr m zmin zmax rmax uc N1 N2 N3 N4) as Hok.
  cbv zeta in Hok. eexists. split; [exact Hok |].
  assert (HNzR : 0 < IZR Nz) by (apply IZR_lt; lia).
  assert (HNrR : 0 < IZR Nr) by (apply IZR_lt; lia).
  set (dz0 := (zmax - zmin) / IZR Nz).
  set (dr0 := rmax / IZR Nr).
  assert (Hdz : 0 < dz0) by (unfold dz0; apply Rdiv_lt_0_compat; lra).
  assert (Hdr : 0 < dr0) by (unfold dr0; apply Rdiv_lt_0_compat; lra).
  assert (Ezmax : zmax = zmin + IZR Nz * dz0) by (unfold dz0; field; lra).
  assert (Ermax : rmax = 0 + IZR Nr * dr0) by (unfold dr0; field; lra).
  assert (Hsum : Rsum (shell_volumes
            (mk_InterpolationGrid Nz Nr m dr0 dz0 (1 / dr0) (1 / dz0) 0 rmax zmin zmax
               (map (fun v => 1 / v)
                  (map (shell_volume dz0 dr0)
                     (map (fun k => (0.5 + k) * dr0) (arange Nr)))) uc
               (if uc then Some (map (fun v => 1 / v)
                  (map (shell_volume dz0 dr0)
                     (map (fun k => (0.5 + k) * dr0) (arange Nr)))) else None)))
          = PI * rmax ^ 2 * dz0).
  { unfold shell_volumes. cbn [invvol]. rewrite !map_map.
    rewrite (map_ext_in _ (fun k => PI * dz0 * dr0 ^ 2 * (2 * k + 1))).
    - unfold arange. rewrite Rsum_odd. rewrite INR_to_nat by lia.
      replace rmax with (IZR Nr * dr0) by lra. ring.
    - intros k Hk. apply arange_nonneg in Hk.
      pose proof (shell_volume_pos dz0 dr0 k Hdz Hdr Hk) as Hpos.
      rewrite <- shell_volume_centre. field. lra. }
  split; [| repeat split; reflexivity].
  unfold geometry_invariant.
  split; [reflexivity |]. split; [reflexivity |].
  split; [unfold z; cbn; now apply centred_cells_map; [lia | |] |].
  split; [unfold r; cbn; now apply centred_cells_map; [lia | |] |].
  split; [| split; [exact Hsum | rewrite Hsum; cbn; rewrite Ezmax; ring]].
  unfold inverse_volumes. cbn [invvol interpolation_grid.Nr dz dr]. split.
  - now rewrite !length_map, arange_length.
  - intros j Hj.
    rewrite (nth_map_lt _ _ _ 0) by now rewrite !length_map, arange_length.
    rewrite (nth_map_lt _ _ _ 0) by now rewrite !length_map, arange_length.
    rewrite (nth_map_lt _ _ _ 0) by now rewrite arange_length.
    rewrite arange_nth by assumption.
    split.
    + unfold r. cbn [rmin interpolation_grid.Nr dr].
      rewrite (nth_map_lt (fun k => 0 + (0.5 + k) * dr0) _ _ 0) by now rewrite arange_length.
      rewrite arange_nth by assumption.
      now rewrite Rplus_0_l.
    + apply Rdiv_lt_0_compat; [lra |].
      apply shell_volume_pos; try assumption. apply pos_INR.
Qed.

(** ** Construction of the derived grids *)

Lemma field_init_ok_iff (Nz Nr m : Z) (zmin zmax rmax : R) (uc : bool) :
  (exists fg, FieldInterpolationGrid_init Nz Nr m zmin zmax rmax uc = Ok fg) <->
  ((0 < Nz)%Z /\ (0 < Nr)%Z /\ rmax <> 0 /\ zmax <> zmin).
Proof.
  unfold FieldInterpolationGrid_init. split.
  - intros [fg Hfg].
    destruct (InterpolationGrid_init Nz Nr m zmin zmax rmax uc) as [g | e] eqn:Hg;
      cbn [rbind] in Hfg; [| discriminate].
    assert (Hnz : ~ (Nr = 0%Z \/ Nz = 0%Z \/ rmax = 0 \/ zmax = zmin)).
    { intros Hz. apply init_raises_iff with (m := m) (uc := uc) in Hz. congruence. }
    destruct (Z.lt_ge_cases Nz 0) as [Hneg | Hpos].
    { rewrite np_zeros_negative in Hfg by lia. discriminate. }
    destruct (Z.lt_ge_cases Nr 0) as [Hneg | Hpos'].
    { rewrite np_zeros_negative in Hfg by lia. discriminate. }
    repeat split; try lia; intros ?; apply Hnz; tauto.
  - intros (HNz & HNr & Hr & Hz).
    rewrite init_nonzero by (assumption || lia). cbn [rbind].
    rewrite np_zeros_nonneg by lia. cbn [rbind]. eexists. reflexivity.
Qed.

Lemma envelope_init_ok_iff (Nz Nr m : Z) (zmin zmax rmax : R) (uc : bool) :
  (exists eg, EnvelopeInterpolationGrid_init Nz Nr m zmin zmax rmax uc = Ok eg) <->
  ((0 < Nz)%Z /\ (0 < Nr)%Z /\ rmax <> 0 /\ zmax <> zmin).
Proof.
  unfold EnvelopeInterpolationGrid_init. split.
  - intros [eg Heg].
    destruct (InterpolationGrid_init Nz Nr m zmin zmax rmax uc) as [g | e] eqn:Hg;
      cbn [rbind] in Heg; [| discriminate].
    assert (Hnz : ~ (Nr = 0%Z \/ Nz = 0%Z \/ rmax = 0 \/ zmax = zmin)).
    { intros Hz. apply init_raises_iff with (m := m) (uc := uc) in Hz. congruence. }
    destruct (Z.lt_ge_cases Nz 0) as [Hneg | Hpos].
    { rewrite np_zeros_negative in Heg by lia. discriminate. }
    destruct (Z.lt_ge_cases Nr 0) as [Hneg | Hpos'].
    { rewrite np_zeros_negative in Heg by lia. discriminate. }
    repeat split; try lia; intros ?; apply Hnz; tauto.
  - intros (HNz & HNr & Hr & Hz).
    rewrite init_nonzero by (assumption || lia). cbn [rbind].
    rewrite np_zeros_nonneg by lia. cbn [rbind]. eexists. reflexivity.
Qed.

(** C6 (amended).  The constructors validate nothing: a construction whose
    arguments satisfy [Nz > 0], [Nr > 0], [zmax > zmin] and [rmax > 0]
    succeeds; [InterpolationGrid.__init__] raises only [ZeroDivisionError],
    and exactly when [Nr = 0], [Nz = 0], [rmax = 0] or [zmax = zmin]; the
    field and envelope grids are built exactly when moreover [Nz] and [Nr]
    are positive, so that a reversed extent [zmax < zmin] or a negative
    [rmax] is accepted. *)
Theorem construction_outcome (Nz Nr m : Z) (zmin zmax rmax : R) (uc : bool) :
  (valid_arguments Nz Nr zmin zmax rmax ->
     (exists g, InterpolationGrid_init Nz Nr m zmin zmax rmax uc = Ok g) /\
     (exists fg, FieldInterpolationGrid_init Nz Nr m zmin zmax rmax uc = Ok fg) /\
     (exists eg, EnvelopeInterpolationGrid_init Nz Nr m zmin zmax rmax uc = Ok eg)) /\
  ((exists e, InterpolationGrid_init Nz Nr m zmin zmax rmax uc = Raise e) <->
     (Nr = 0%Z \/ Nz = 0%Z \/ rmax = 0 \/ zmax = zmin)) /\
  (forall e, InterpolationGrid_init Nz Nr m zmin zmax rmax uc = Raise e ->
     e = ZeroDivisionError) /\
  ((exists fg, FieldInterpolationGrid_init Nz Nr m zmin zmax rmax uc = Ok fg) <->
     ((0 < Nz)%Z /\ (0 < Nr)%Z /\ rmax <> 0 /\ zmax <> zmin)) /\
  ((exists eg, EnvelopeInterpolationGrid_init Nz Nr m zmin zmax rmax uc = Ok eg) <->
     ((0 < Nz)%Z /\ (0 < Nr)%Z /\ rmax <> 0 /\ zmax <> zmin)).
Proof.
  split; [| split; [| split; [| split]]].
  - intros Hv. pose proof (valid_arguments_nonzero _ _ _ _ _ Hv) as (N1 & N2 & N3 & N4).
    destruct Hv as (HNz & HNr & _ & _).
    split; [| split].
    + eexists. now apply init_nonzero.
    + apply field_init_ok_iff. repeat split; (assumption || lia).
    + apply envelope_init_ok_iff. repeat split; (assumption || lia).
  - split.
    + intros [e He]. pose proof (init_raises_only_division _ _ _ _ _ _ _ _ He). subst e.
      now apply init_raises_iff in He.
    + intros Hz. exists ZeroDivisionError. now apply init_raises_iff.
  - apply init_raises_only_division.
  - apply field_init_ok_iff.
  - apply envelope_init_ok_iff.
Qed.

(** Valid arguments [Nz = 2], [Nr = 3] on the box [0,1] x [0,1] construct
    the three kinds of grid. *)
Lemma construction_outcome_witness :
  (exists g, InterpolationGrid_init 2 3 0 0 1 1 false = Ok g) /\
  (exists fg, FieldInterpolationGrid_init 2 3 0 0 1 1 false = Ok fg) /\
  (exists eg, EnvelopeInterpolationGrid_init 2 3 0 0 1 1 false = Ok eg).
Proof.
  apply (proj1 (construction_outcome 2 3 0 0 1 1 false)).
  unfold valid_arguments. repeat split; try lia; lra.
Defined.

(** C6, as stated, fails: [zmin = 1], [zmax = 0] violates [zmax > zmin],
    and both the base grid and the field grid are constructed. *)
Lemma construction_accepts_reversed_extent :
  ~ valid_arguments 1 1 1 0 1 /\
  (exists g, InterpolationGrid_init 1 1 0 1 0 1 false = Ok g) /\
  (exists fg, FieldInterpolationGrid_init 1 1 0 1 0 1 false = Ok fg).
Proof.
  split; [| split].
  - unfold valid_arguments. intros (_ & _ & H & _). lra.
  - eexists. apply init_nonzero; try lia; lra.
  - apply field_init_ok_iff. repeat split; try lia; lra.
Qed.

(** ** Group names accepted by the operations *)

(** The erase kernels modelled from the specification zero the arrays
    they are launched on. *)
Lemma cuda_methods_erase_kernels_zero : erase_kernels_zero cuda_methods.kernels.
Proof.
  split.
  - intros d a0. apply fill_zero_all_zero.
  - intros d a1 a2 a3. cbn. repeat split; apply fill_zero_all_zero.
Qed.

(** [erase] with an accepted name zeroes the arrays of the group: on the
    host by assignment, on the GPU by the launch of an erase kernel on the
    arrays of the group. *)
Lemma erase_zeroes_group (K : CudaBackend) (name : string) (self : FieldInterpolationGrid) :
  (use_cuda (fgrid self) = true -> erase_kernels_zero K) ->
  let self' := fst (erase K name self) in
  (name = "E"%string ->
     all_zero (Er self') /\ all_zero (Et self') /\ all_zero (Ez self')) /\
  (name = "B"%string ->
     all_zero (Br self') /\ all_zero (Bt self') /\ all_zero (Bz self')) /\
  (name = "J"%string ->
     all_zero (Jr self') /\ all_zero (Jt self') /\ all_zero (Jz self')) /\
  (name = "rho"%string -> all_zero (rho self')).
Proof.
  intros Hk. cbv zeta.
  destruct (use_cuda (fgrid self)) eqn:Hc.
  - destruct (Hk eq_refl) as (Hscalar & Hvector).
    unfold erase. rewrite Hc.
    split; [| split; [| split]]; intros ->; cbn [String.eqb Ascii.eqb Bool.eqb];
      unfold launch3, assign.
    + pose proof (Hvector (cuda_tpb_bpg_2d K (Nz (fgrid self)) (Nr (fgrid self)))
                    (Er self) (Et self) (Ez self)) as Hz.
      destruct (cuda_erase_vector K _ (Er self) (Et self) (Ez self)) as [[b1 b2] b3].
      exact Hz.
    + pose proof (Hvector (cuda_tpb_bpg_2d K (Nz (fgrid self)) (Nr (fgrid self)))
                    (Br self) (Bt self) (Bz self)) as Hz.
      destruct (cuda_erase_vector K _ (Br self) (Bt self) (Bz self)) as [[b1 b2] b3].
      exact Hz.
    + pose proof (Hvector (cuda_tpb_bpg_2d K (Nz (fgrid self)) (Nr (fgrid self)))
                    (Jr self) (Jt self) (Jz self)) as Hz.
      destruct (cuda_erase_vector K _ (Jr self) (Jt self) (Jz self)) as [[b1 b2] b3].
      exact Hz.
    + apply Hscalar.
  - pose proof (erase_zeroes K name self Hc) as Hz. cbv zeta in Hz.
    destruct Hz as (HE & HB & HJ & Hrho).
    split; [| split; [| split]]; intros Hname.
    + destruct (HE Hname) as (E1 & E2 & E3). rewrite E1, E2, E3.
      split; [| split]; apply fill_zero_all_zero.
    + destruct (HB Hname) as (E1 & E2 & E3). rewrite E1, E2, E3.
      split; [| split]; apply fill_zero_all_zero.
    + destruct (HJ Hname) as (E1 & E2 & E3). rewrite E1, E2, E3.
      split; [| split]; apply fill_zero_all_zero.
    + rewrite (Hrho Hname). apply fill_zero_all_zero.
Qed.

Lemma envelope_erase_zeroes_group (K : CudaBackend) (name : string)
  (self : EnvelopeInterpolationGrid) :
  (use_cuda (egrid self) = true -> erase_kernels_zero K) ->
  let self' := fst (envelope_erase K name self) in
  (name = "chi"%string -> all_zero (chi self')) /\
  (name = "chi_a"%string -> all_zero (chi_a self')).
Proof.
  intros Hk. cbv zeta.
  destruct (use_cuda (egrid self)) eqn:Hc.
  - destruct (Hk eq_refl) as (Hscalar & _).
    unfold envelope_erase. rewrite Hc.
    split; intros ->; cbn [String.eqb Ascii.eqb Bool.eqb]; unfold assign;
      apply Hscalar.
  - pose proof (envelope_erase_zeroes K name self Hc) as Hz.
    cbv zeta in Hz. destruct Hz as (Hchi & Hchi_a).
    split; intros Hname; [rewrite (Hchi Hname) | rewrite (Hchi_a Hname)];
      apply fill_zero_all_zero.
Qed.

(** C7 (amended).  On a field grid [erase] accepts exactly the names E, B,
    J and rho, while [divide_by_volume] accepts exactly J and rho; on an
    envelope grid [erase] accepts exactly chi and chi_a and
    [divide_by_volume_and_e0] exactly chi.  Any other name raises the
    invalid-fieldtype [ValueError] and leaves the grid as it was.  [erase]
    with an accepted name sets every entry of the arrays of the group to
    zero: on the host path by itself, on the GPU path through the erase
    kernel that it launches on these arrays, the kernels being taken to
    zero the arrays they are launched on. *)
Theorem accepted_group_names (K : CudaBackend) (name : string) :
  (forall self : FieldInterpolationGrid,
     (snd (erase K name self) = Raise (invalid_fieldtype name) <->
        ~ In name ["E"; "B"; "J"; "rho"]%string) /\
     (snd (divide_by_volume K name self) = Raise (invalid_fieldtype name) <->
        ~ In name ["J"; "rho"]%string) /\
     (~ In name ["E"; "B"; "J"; "rho"]%string -> fst (erase K name self) = self) /\
     (~ In name ["J"; "rho"]%string -> fst (divide_by_volume K name self) = self) /\
     ((use_cuda (fgrid self) = true -> erase_kernels_zero K) ->
        let self' := fst (erase K name self) in
        (name = "E"%string ->
           all_zero (Er self') /\ all_zero (Et self') /\ all_zero (Ez self')) /\
        (name = "B"%string ->
           all_zero (Br self') /\ all_zero (Bt self') /\ all_zero (Bz self')) /\
        (name = "J"%string ->
           all_zero (Jr self') /\ all_zero (Jt self') /\ all_zero (Jz self')) /\
        (name = "rho"%string -> all_zero (rho self')))) /\
  (forall self : EnvelopeInterpolationGrid,
     (snd (envelope_erase K name self) = Raise (invalid_fieldtype name) <->
        ~ In name ["chi"; "chi_a"]%string) /\
     (snd (divide_by_volume_and_e0 K name self) = Raise (invalid_fieldtype name) <->
        ~ In name ["chi"]%string) /\
     (~ In name ["chi"; "chi_a"]%string -> fst (envelope_erase K name self) = self) /\
     (~ In name ["chi"]%string -> fst (divide_by_volume_and_e0 K name self) = self) /\
     ((use_cuda (egrid self) = true -> erase_kernels_zero K) ->
        let self' := fst (envelope_erase K name self) in
        (name = "chi"%string -> all_zero (chi self')) /\
        (name = "chi_a"%string -> all_zero (chi_a self')))).
Proof.
  split; intros self.
  - split; [| split; [| split; [| split]]].
    + split.
      * intros Hraise Hin. apply (erase_accepts K) with (self := self) in Hin. congruence.
      * intros Hn. now rewrite erase_rejects.
    + split.
      * intros Hraise Hin.
        now apply (divide_by_volume_accepts K) with (self := self) in Hin.
      * intros Hn. now rewrite divide_by_volume_rejects.
    + intros Hn. now rewrite erase_rejects.
    + intros Hn. now rewrite divide_by_volume_rejects.
    + apply erase_zeroes_group.
  - split; [| split; [| split; [| split]]].
    + split.
      * intros Hraise Hin.
        apply (envelope_erase_accepts K) with (self := self) in Hin. congruence.
      * intros Hn. now rewrite envelope_erase_rejects.
    + split.
      * intros Hraise Hin.
        now apply (divide_by_volume_and_e0_accepts K) with (self := self) in Hin.
      * intros Hn. now rewrite divide_by_volume_and_e0_rejects.
    + intros Hn. now rewrite envelope_erase_rejects.
    + intros Hn. now rewrite divide_by_volume_and_e0_rejects.
    + apply envelope_erase_zeroes_group.
Qed.

(** Erasing E on the one-cell grid on the GPU, with the kernels modelled
    from the specification, and erasing J on the one-cell grid on the
    host: the arrays, which held ones, are zero. *)
Lemma accepted_group_names_witness :
  (let self' := fst (erase cuda_methods.kernels "E" unit_field_grid_on_gpu) in
   all_zero (Er self') /\ all_zero (Et self') /\ all_zero (Ez self')) /\
  (let self' := fst (erase no_cuda "J" unit_field_grid) in
   all_zero (Jr self') /\ all_zero (Jt self') /\ all_zero (Jz self')).
Proof.
  split.
  - pose proof (accepted_group_names cuda_methods.kernels "E") as [Hfield _].
    destruct (Hfield unit_field_grid_on_gpu) as (_ & _ & _ & _ & Hzero).
    apply Hzero; [| reflexivity]. intros _. exact cuda_methods_erase_kernels_zero.
  - pose proof (accepted_group_names no_cuda "J") as [Hfield _].
    destruct (Hfield unit_field_grid) as (_ & _ & _ & _ & Hzero).
    apply Hzero; [| reflexivity]. intros Hgpu. discriminate Hgpu.
Defined.

(** C7, as stated, fails: [divide_by_volume] rejects the names E and B,
    which [erase] accepts, on a grid that the constructor built. *)
Lemma divide_by_volume_rejects_E_and_B :
  exists g, FieldInterpolationGrid_init 1 1 0 0 1 1 false = Ok g /\
    divide_by_volume no_cuda "E" g = (g, Raise (invalid_fieldtype "E")) /\
    divide_by_volume no_cuda "B" g = (g, Raise (invalid_fieldtype "B")) /\
    snd (erase no_cuda "E" g) = Ok tt /\
    snd (erase no_cuda "B" g) = Ok tt.
Proof.
  assert (Hex : exists g, FieldInterpolationGrid_init 1 1 0 0 1 1 false = Ok g).
  { apply field_init_ok_iff. repeat split; try lia; lra. }
  destruct Hex as [g Hg]. exists g. split; [exact Hg |].
  repeat split.
  - apply divide_by_volume_rejects. cbn. intuition discriminate.
  - apply divide_by_volume_rejects. cbn. intuition discriminate.
  - apply erase_accepts. cbn. tauto.
  - apply erase_accepts. cbn. tauto.
Qed.

(** ** The geometry invariant *)

(** C8 (amended).  A grid constructed from valid arguments satisfies the
    geometry invariant: the cell centres are [zmin + (i+0.5) dz] and
    [(j+0.5) dr], lie strictly inside the box and are spaced by [dz] and
    [dr]; every [invvol[j]] is the inverse of the shell volume at [r_j] and
    is positive; the [Nr] shell volumes add up to [pi rmax^2 dz], the
    volume of one slice, so that the [Nz] slices add up to
    [pi rmax^2 (zmax - zmin)].  No erase or volume-division operation
    changes the geometry. *)
Theorem geometry_invariant_holds (Nz Nr m : Z) (zmin zmax rmax : R) (uc : bool) :
  valid_arguments Nz Nr zmin zmax rmax ->
  exists g, InterpolationGrid_init Nz Nr m zmin zmax rmax uc = Ok g /\
    geometry_invariant g /\
    (forall K name (fg : FieldInterpolationGrid), fgrid fg = g ->
       geometry_invariant (fgrid (fst (erase K name fg))) /\
       geometry_invariant (fgrid (fst (divide_by_volume K name fg)))) /\
    (forall K name (eg : EnvelopeInterpolationGrid), egrid eg = g ->
       geometry_invariant (egrid (fst (envelope_erase K name eg))) /\
       geometry_invariant (egrid (fst (divide_by_volume_and_e0 K name eg)))).
Proof.
  intros Hv. destruct (init_geometry Nz Nr m zmin zmax rmax uc Hv) as (g & Hg & Hinv & _).
  exists g. split; [exact Hg |]. split; [exact Hinv |]. split.
  - intros K name fg Hfg.
    destruct (erase_frame K name fg) as (-> & _).
    destruct (divide_by_volume_frame K name fg) as (-> & _).
    rewrite Hfg. now split.
  - intros K name eg Heg.
    destruct (envelope_erase_frame K name eg) as (-> & _).
    destruct (divide_by_volume_and_e0_frame K name eg) as (-> & _).
    rewrite Heg. now split.
Qed.

(** The grid with [Nz = 2], [Nr = 3] on the box [0,1] x [0,1]. *)
Lemma geometry_invariant_holds_witness :
  exists g, InterpolationGrid_init 2 3 0 0 1 1 false = Ok g /\ geometry_invariant g.
Proof.
  destruct (geometry_invariant_holds 2 3 0 0 1 1 false) as (g & Hg & Hinv & _).
  - unfold valid_arguments. repeat split; try lia; lra.
  - exists g. now split.
Defined.

(** C8, as stated, fails: on a grid of two cells along z the shell volumes
    (the inverses of the entries of [invvol]) add up to [pi], and not to
    [pi rmax^2 (zmax - zmin) = 2 pi]. *)
Lemma shell_volumes_sum_to_one_slice :
  exists g, InterpolationGrid_init 2 1 0 0 2 1 false = Ok g /\
    Rsum (shell_volumes g) = PI /\
    Rsum (shell_volumes g) <> PI * rmax g ^ 2 * (zmax g - zmin g).
Proof.
  destruct (init_geometry 2 1 0 0 2 1 false)
    as (g & Hg & Hinv & HNz & _ & Hzmin & Hzmax & Hrmax & _).
  { unfold valid_arguments. repeat split; try lia; lra. }
  exists g. split; [exact Hg |].
  destruct Hinv as (Hdz & _ & _ & _ & _ & Hsum & _).
  rewrite Hsum, Hdz, HNz, Hzmin, Hzmax, Hrmax.
  pose proof PI_RGT_0. split; [field | intros Heq].
  assert (Hpi : PI * 1 ^ 2 * ((2 - 0) / 2) = PI) by field.
  assert (Hpi2 : PI * 1 ^ 2 * (2 - 0) = 2 * PI) by ring.
  lra.
Qed.

(** ** Frame of the operations *)

(** C10.  [erase] and the volume divisions change only the arrays of the
    group they are called with: the metadata of the grid and every array
    outside the named group are as before the call. *)
Theorem operations_frame (K : CudaBackend) (name : string) :
  (forall self : FieldInterpolationGrid,
     let self' := fst (erase K name self) in
     fgrid self' = fgrid self /\
     (name <> "E"%string ->
        Er self' = Er self /\ Et self' = Et self /\ Ez self' = Ez self) /\
     (name <> "B"%string ->
        Br self' = Br self /\ Bt self' = Bt self /\ Bz self' = Bz self) /\
     (name <> "J"%string ->
        Jr self' = Jr self /\ Jt self' = Jt self /\ Jz self' = Jz self) /\
     (name <> "rho"%string -> rho self' = rho self)) /\
  (forall self : FieldInterpolationGrid,
     let self' := fst (divide_by_volume K name self) in
     fgrid self' = fgrid self /\
     Er self' = Er self /\ Et self' = Et self /\ Ez self' = Ez self /\
     Br self' = Br self /\ Bt self' = Bt self /\ Bz self' = Bz self /\
     (name <> "J"%string ->
        Jr self' = Jr self /\ Jt self' = Jt self /\ Jz self' = Jz self) /\
     (name <> "rho"%string -> rho self' = rho self)) /\
  (forall self : EnvelopeInterpolationGrid,
     let self' := fst (envelope_erase K name self) in
     egrid self' = egrid self /\
     a self' = a self /\ dta self' = dta self /\
     grad_a_r self' = grad_a_r self /\ grad_a_t self' = grad_a_t self /\
     grad_a_z self' = grad_a_z self /\
     (name <> "chi"%string -> chi self' = chi self) /\
     (name <> "chi_a"%string -> chi_a self' = chi_a self)) /\
  (forall self : EnvelopeInterpolationGrid,
     let self' := fst (divide_by_volume_and_e0 K name self) in
     egrid self' = egrid self /\
     a self' = a self /\ dta self' = dta self /\
     grad_a_r self' = grad_a_r self /\ grad_a_t self' = grad_a_t self /\
     grad_a_z self' = grad_a_z self /\
     chi_a self' = chi_a self /\
     (name <> "chi"%string -> chi self' = chi self)).
Proof.
  split; [| split; [| split]]; intros self.
  - apply erase_frame.
  - apply divide_by_volume_frame.
  - apply envelope_erase_frame.
  - apply divide_by_volume_and_e0_frame.
Qed.

(** Erasing J on the one-cell grid keeps E, B and rho; dividing chi on the
    one-cell envelope grid keeps the metadata and chi_a. *)
Lemma operations_frame_witness :
  (let self' := fst (erase no_cuda "J" unit_field_grid) in
   (Er self' = Er unit_field_grid /\ Et self' = Et unit_field_grid /\
    Ez self' = Ez unit_field_grid) /\
   (Br self' = Br unit_field_grid /\ Bt self' = Bt unit_field_grid /\
    Bz self' = Bz unit_field_grid) /\
   rho self' = rho unit_field_grid) /\
  (let self' := fst (divide_by_volume_and_e0 no_cuda "chi" unit_envelope_grid) in
   egrid self' = egrid unit_envelope_grid /\
   chi_a self' = chi_a unit_envelope_grid).
Proof.
  destruct (operations_frame no_cuda "J") as (Herase & _).
  destruct (operations_frame no_cuda "chi") as (_ & _ & _ & Hdiv).
  destruct (Herase unit_field_grid) as (_ & HE & HB & _ & Hrho).
  destruct (Hdiv unit_envelope_grid) as (Hgrid & _ & _ & _ & _ & _ & Hchi_a & _).
  split.
  - split; [apply HE; discriminate |]. split; [apply HB; discriminate |].
    apply Hrho; discriminate.
  - split; assumption.
Defined.


(** ** Freshly constructed grids *)

Lemma has_shape_zeros (n0 n1 : Z) :
  has_shape (mk_ndarray2 (Z.to_nat n0) (Z.to_nat n1) (fun _ _ => C0)) n0 n1 /\
  all_zero (mk_ndarray2 (Z.to_nat n0) (Z.to_nat n1) (fun _ _ => C0)).
Proof. unfold has_shape, all_zero, uniform. cbn. auto. Qed.

Lemma init_volumes_ready (Nz0 Nr0 m0 : Z) (zmin0 zmax0 rmax0 : R) (uc : bool)
  (g : InterpolationGrid) :
  InterpolationGrid_init Nz0 Nr0 m0 zmin0 zmax0 rmax0 uc = Ok g ->
  volumes_ready g /\ Nz g = Nz0 /\ Nr g = Nr0 /\ use_cuda g = uc.
Proof.
  intros Hg.
  assert (Hnz : ~ (Nr0 = 0%Z \/ Nz0 = 0%Z \/ rmax0 = 0 \/ zmax0 = zmin0)).
  { intros Hz. apply init_raises_iff with (m := m0) (uc := uc) in Hz. congruence. }
  rewrite init_nonzero in Hg by tauto. injection Hg as <-.
  unfold volumes_ready. cbn. repeat split.
  destruct uc; [discriminate | now rewrite !length_map, arange_length].
Qed.

(** X1.  A field (envelope) grid returned by the constructor has its ten
    (seven) arrays of shape [(Nz, Nr)] and entirely zero, [invvol] has one
    entry per radial cell, and the device copy of [invvol] exists when the
    grid uses the GPU: the grid is ready for the operations. *)
Theorem constructed_grid_is_ready (Nz0 Nr0 m0 : Z) (zmin0 zmax0 rmax0 : R) (uc : bool) :
  (forall fg, FieldInterpolationGrid_init Nz0 Nr0 m0 zmin0 zmax0 rmax0 uc = Ok fg ->
     field_ready fg /\ field_shaped fg /\
     Nz (fgrid fg) = Nz0 /\ Nr (fgrid fg) = Nr0 /\ use_cuda (fgrid fg) = uc /\
     all_zero (Er fg) /\ all_zero (Et fg) /\ all_zero (Ez fg) /\
     all_zero (Br fg) /\ all_zero (Bt fg) /\ all_zero (Bz fg) /\
     all_zero (Jr fg) /\ all_zero (Jt fg) /\ all_zero (Jz fg) /\
     all_zero (rho fg)) /\
  (forall eg, EnvelopeInterpolationGrid_init Nz0 Nr0 m0 zmin0 zmax0 rmax0 uc = Ok eg ->
     envelope_ready eg /\ envelope_shaped eg /\
     Nz (egrid eg) = Nz0 /\ Nr (egrid eg) = Nr0 /\ use_cuda (egrid eg) = uc /\
     all_zero (a eg) /\ all_zero (dta eg) /\ all_zero (grad_a_r eg) /\
     all_zero (grad_a_t eg) /\ all_zero (grad_a_z eg) /\
     all_zero (chi eg) /\ all_zero (chi_a eg)).
Proof.
  split.
  - intros fg Hfg.
    assert (Hpos : (0 < Nz0)%Z /\ (0 < Nr0)%Z).
    { assert (Hex : exists fg', FieldInterpolationGrid_init Nz0 Nr0 m0 zmin0 zmax0 rmax0 uc
                                = Ok fg') by now exists fg.
      apply field_init_ok_iff in Hex. tauto. }
    unfold FieldInterpolationGrid_init in Hfg.
    destruct (InterpolationGrid_init Nz0 Nr0 m0 zmin0 zmax0 rmax0 uc) as [g | e] eqn:Hg;
      cbn [rbind] in Hfg; [| discriminate].
    rewrite np_zeros_nonneg in Hfg by lia. cbn [rbind] in Hfg. injection Hfg as <-.
    destruct (init_volumes_ready _ _ _ _ _ _ _ _ Hg) as (Hready & HNz & HNr & Huc).
    destruct (has_shape_zeros Nz0 Nr0) as (Hshape & Hzero).
    assert (Hshaped : field_shaped
              (mk_FieldInterpolationGrid g
                 (mk_ndarray2 (Z.to_nat Nz0) (Z.to_nat Nr0) (fun _ _ => C0))
                 (mk_ndarray2 (Z.to_nat Nz0) (Z.to_nat Nr0) (fun _ _ => C0))
                 (mk_ndarray2 (Z.to_nat Nz0) (Z.to_nat Nr0) (fun _ _ => C0))
                 (mk_ndarray2 (Z.to_nat Nz0) (Z.to_nat Nr0) (fun _ _ => C0))
                 (mk_ndarray2 (Z.to_nat Nz0) (Z.to_nat Nr0) (fun _ _ => C0))
                 (mk_ndarray2 (Z.to_nat Nz0) (Z.to_nat Nr0) (fun _ _ => C0))
                 (mk_ndarray2 (Z.to_nat Nz0) (Z.to_nat Nr0) (fun _ _ => C0))
                 (mk_ndarray2 (Z.to_nat Nz0) (Z.to_nat Nr0) (fun _ _ => C0))
                 (mk_ndarray2 (Z.to_nat Nz0) (Z.to_nat Nr0) (fun _ _ => C0))
                 (mk_ndarray2 (Z.to_nat Nz0) (Z.to_nat Nr0) (fun _ _ => C0)))).
    { unfold field_shaped. cbn. rewrite HNz, HNr. tauto. }
    split; [split; [exact Hready | intros _; exact Hshaped] |].
    split; [exact Hshaped |]. cbn. tauto.
  - intros eg Heg.
    assert (Hpos : (0 < Nz0)%Z /\ (0 < Nr0)%Z).
    { assert (Hex : exists eg', EnvelopeInterpolationGrid_init Nz0 Nr0 m0 zmin0 zmax0 rmax0 uc
                                = Ok eg') by now exists eg.
      apply envelope_init_ok_iff in Hex. tauto. }
    unfold EnvelopeInterpolationGrid_init in Heg.
    destruct (InterpolationGrid_init Nz0 Nr0 m0 zmin0 zmax0 rmax0 uc) as [g | e] eqn:Hg;
      cbn [rbind] in Heg; [| discriminate].
    rewrite np_zeros_nonneg in Heg by lia. cbn [rbind] in Heg. injection Heg as <-.
    destruct (init_volumes_ready _ _ _ _ _ _ _ _ Hg) as (Hready & HNz & HNr & Huc).
    destruct (has_shape_zeros Nz0 Nr0) as (Hshape & Hzero).
    assert (Hshaped : envelope_shaped
              (mk_EnvelopeInterpolationGrid g
                 (mk_ndarray2 (Z.to_nat Nz0) (Z.to_nat Nr0) (fun _ _ => C0))
                 (mk_ndarray2 (Z.to_nat Nz0) (Z.to_nat Nr0) (fun _ _ => C0))
                 (mk_ndarray2 (Z.to_nat Nz0) (Z.to_nat Nr0) (fun _ _ => C0))
                 (mk_ndarray2 (Z.to_nat Nz0) (Z.to_nat Nr0) (fun _ _ => C0))
                 (mk_ndarray2 (Z.to_nat Nz0) (Z.to_nat Nr0) (fun _ _ => C0))
                 (mk_ndarray2 (Z.to_nat Nz0) (Z.to_nat Nr0) (fun _ _ => C0))
                 (mk_ndarray2 (Z.to_nat Nz0) (Z.to_nat Nr0) (fun _ _ => C0)))).
    { unfold envelope_shaped. cbn. rewrite HNz, HNr. tauto. }
    split; [split; [exact Hready | intros _; exact Hshaped] |].
    split; [exact Hshaped |]. cbn. tauto.
Qed.

Lemma constructed_grid_is_ready_witness :
  exists fg, FieldInterpolationGrid_init 2 3 0 0 1 1 false = Ok fg /\
             field_ready fg /\ field_shaped fg /\ all_zero (rho fg).
Proof.
  destruct (proj2 (field_init_ok_iff 2 3 0 0 1 1 false)) as (fg & Hfg).
  - repeat split; try lia; lra.
  - exists fg.
    destruct (constructed_grid_is_ready 2 3 0 0 1 1 false) as (Hfield & _).
    destruct (Hfield fg Hfg)
      as (Hready & Hshaped & _ & _ & _ & _ & _ & _ & _ & _ & _ & _ & _ & _ & Hrho).
    split; [exact Hfg |]. split; [exact Hready |]. split; [exact Hshaped | exact Hrho].
Defined.

(** ** Volume division *)

Lemma imul_newaxis_shaped (a0 : ndarray2) (v : list R) :
  length v = shape1 a0 ->
  imul_newaxis a0 v =
  Ok (mk_ndarray2 (shape0 a0) (shape1 a0)
        (fun i j => Cscale (nth j v 0) (data a0 i j))).
Proof. intros Hv. unfold imul_newaxis. now rewrite Hv, Nat.eqb_refl. Qed.

Ltac ready_shapes :=
  match goal with
  | H : field_shaped _ |- _ =>
      unfold field_shaped, has_shape in H; cbv zeta in H;
      destruct H as ((? & ?) & (? & ?) & (? & ?) & (? & ?) & (? & ?) &
                     (? & ?) & (? & ?) & (? & ?) & (? & ?) & (? & ?))
  | H : envelope_shaped _ |- _ =>
      unfold envelope_shaped, has_shape in H; cbv zeta in H;
      destruct H as ((? & ?) & (? & ?) & (? & ?) & (? & ?) & (? & ?) &
                     (? & ?) & (? & ?))
  end.

(** On the host path, on a ready grid, [divide_by_volume] returns and
    multiplies the entry [(i, j)] of the arrays of the group by
    [invvol[j]]. *)
Lemma divide_by_volume_host (K : CudaBackend) (fg : FieldInterpolationGrid) :
  use_cuda (fgrid fg) = false -> field_ready fg ->
  let scaled a0 :=
    mk_ndarray2 (shape0 a0) (shape1 a0)
      (fun i j => Cscale (nth j (invvol (fgrid fg)) 0) (data a0 i j)) in
  divide_by_volume K "rho" fg = (set_rho (scaled (rho fg)) fg, Ok tt) /\
  divide_by_volume K "J" fg =
    (set_Jz (scaled (Jz fg)) (set_Jt (scaled (Jt fg)) (set_Jr (scaled (Jr fg)) fg)),
     Ok tt).
Proof.
  intros Hcpu (Hvol & Hshape). specialize (Hshape Hcpu).
  unfold volumes_ready in Hvol. rewrite Hcpu in Hvol.
  ready_shapes. cbv zeta.
  unfold divide_by_volume. rewrite Hcpu. cbn [String.eqb Ascii.eqb Bool.eqb].
  unfold inplace, mbind. split.
  - rewrite imul_newaxis_shaped by congruence. reflexivity.
  - rewrite (imul_newaxis_shaped (Jr fg)) by congruence. cbn [Jt set_Jr].
    rewrite (imul_newaxis_shaped (Jt fg)) by congruence. cbn [Jz set_Jt].
    rewrite (imul_newaxis_shaped (Jz fg)) by congruence. reflexivity.
Qed.

Lemma divide_by_volume_and_e0_host (K : CudaBackend) (eg : EnvelopeInterpolationGrid) :
  use_cuda (egrid eg) = false -> envelope_ready eg ->
  divide_by_volume_and_e0 K "chi" eg =
  (set_chi
     (mk_ndarray2 (shape0 (chi eg)) (shape1 (chi eg))
        (fun i j =>
           Cscale (nth j (map (fun x => x / epsilon_0) (invvol (egrid eg))) 0)
             (data (chi eg) i j))) eg,
   Ok tt).
Proof.
  intros Hcpu (Hvol & Hshape). specialize (Hshape Hcpu).
  unfold volumes_ready in Hvol. rewrite Hcpu in Hvol.
  ready_shapes.
  unfold divide_by_volume_and_e0. rewrite Hcpu. cbn [String.eqb Ascii.eqb Bool.eqb].
  unfold inplace. rewrite imul_newaxis_shaped by (rewrite length_map; congruence).
  reflexivity.
Qed.

(** ** Readiness is kept *)

Lemma imul_newaxis_shape (a0 a1 : ndarray2) (v : list R) :
  imul_newaxis a0 v = Ok a1 -> shape0 a1 = shape0 a0 /\ shape1 a1 = shape1 a0.
Proof.
  unfold imul_newaxis.
  destruct (Nat.eqb (length v) (shape1 a0)); [intros [= <-]; now split |].
  destruct (Nat.eqb (length v) 1); [intros [= <-]; now split | discriminate].
Qed.

Ltac imul_shapes :=
  repeat match goal with
         | H : imul_newaxis _ _ = Ok _ |- _ =>
             apply imul_newaxis_shape in H; destruct H as (? & ?)
         end.

Lemma erase_keeps_ready (K : CudaBackend) (name : string) (fg : FieldInterpolationGrid) :
  field_ready fg -> field_ready (fst (erase K name fg)).
Proof.
  intros (Hvol & Hshape).
  destruct (erase_frame K name fg) as (Hgrid & _). cbv zeta in Hgrid.
  split; [now rewrite Hgrid |].
  rewrite Hgrid. intros Hcpu. specialize (Hshape Hcpu).
  unfold field_shaped, has_shape in *. cbv zeta in *. rewrite Hgrid.
  unfold erase. rewrite Hcpu.
  run_method; cbn; tauto.
Qed.

Lemma divide_by_volume_keeps_ready (K : CudaBackend) (name : string)
  (fg : FieldInterpolationGrid) :
  field_ready fg -> field_ready (fst (divide_by_volume K name fg)).
Proof.
  intros (Hvol & Hshape).
  destruct (divide_by_volume_frame K name fg) as (Hgrid & _). cbv zeta in Hgrid.
  split; [now rewrite Hgrid |].
  rewrite Hgrid. intros Hcpu. specialize (Hshape Hcpu).
  unfold field_shaped, has_shape in *. cbv zeta in *. rewrite Hgrid.
  unfold divide_by_volume. rewrite Hcpu.
  run_method; imul_shapes; cbn in *; intuition congruence.
Qed.

Lemma envelope_erase_keeps_ready (K : CudaBackend) (name : string)
  (eg : EnvelopeInterpolationGrid) :
  envelope_ready eg -> envelope_ready (fst (envelope_erase K name eg)).
Proof.
  intros (Hvol & Hshape).
  destruct (envelope_erase_frame K name eg) as (Hgrid & _). cbv zeta in Hgrid.
  split; [now rewrite Hgrid |].
  rewrite Hgrid. intros Hcpu. specialize (Hshape Hcpu).
  unfold envelope_shaped, has_shape in *. cbv zeta in *. rewrite Hgrid.
  unfold envelope_erase. rewrite Hcpu.
  run_method; cbn; tauto.
Qed.

Lemma divide_by_volume_and_e0_keeps_ready (K : CudaBackend) (name : string)
  (eg : EnvelopeInterpolationGrid) :
  envelope_ready eg -> envelope_ready (fst (divide_by_volume_and_e0 K name eg)).
Proof.
  intros (Hvol & Hshape).
  destruct (divide_by_volume_and_e0_frame K name eg) as (Hgrid & _). cbv zeta in Hgrid.
  split; [now rewrite Hgrid |].
  rewrite Hgrid. intros Hcpu. specialize (Hshape Hcpu).
  unfold envelope_shaped, has_shape in *. cbv zeta in *. rewrite Hgrid.
  unfold divide_by_volume_and_e0. rewrite Hcpu.
  run_method; imul_shapes; cbn in *; intuition congruence.
Qed.

Lemma divide_by_volume_returns (K : CudaBackend) (name : string)
  (fg : FieldInterpolationGrid) :
  use_cuda (fgrid fg) = false -> field_ready fg -> In name ["J"; "rho"]%string ->
  snd (divide_by_volume K name fg) = Ok tt.
Proof.
  intros Hcpu Hready Hin.
  destruct (divide_by_volume_host K fg Hcpu Hready) as (Hrho & HJ).
  cbn in Hin. destruct Hin as [<- | [<- | []]].
  - now rewrite HJ.
  - now rewrite Hrho.
Qed.

Lemma divide_by_volume_and_e0_returns (K : CudaBackend)
  (eg : EnvelopeInterpolationGrid) :
  use_cuda (egrid eg) = false -> envelope_ready eg ->
  snd (divide_by_volume_and_e0 K "chi" eg) = Ok tt.
Proof.
  intros Hcpu Hready. now rewrite (divide_by_volume_and_e0_host K eg Hcpu Hready).
Qed.

(** X2.  Readiness is an invariant of the four operations, whatever the
    name they are called with and on both paths.  On the host path, on a
    ready grid, an operation called with a name it accepts returns without
    raising: after construction with [use_cuda=False], no sequence of
    [erase] and volume divisions with accepted names can fail.  Nothing is
    said of the outcome of a launch on the GPU path. *)
Theorem operations_keep_ready (K : CudaBackend) (name : string) :
  (forall fg : FieldInterpolationGrid, field_ready fg ->
     field_ready (fst (erase K name fg)) /\
     field_ready (fst (divide_by_volume K name fg)) /\
     (use_cuda (fgrid fg) = false ->
      (In name ["E"; "B"; "J"; "rho"]%string -> snd (erase K name fg) = Ok tt) /\
      (In name ["J"; "rho"]%string -> snd (divide_by_volume K name fg) = Ok tt))) /\
  (forall eg : EnvelopeInterpolationGrid, envelope_ready eg ->
     envelope_ready (fst (envelope_erase K name eg)) /\
     envelope_ready (fst (divide_by_volume_and_e0 K name eg)) /\
     (use_cuda (egrid eg) = false ->
      (In name ["chi"; "chi_a"]%string -> snd (envelope_erase K name eg) = Ok tt) /\
      (In name ["chi"]%string -> snd (divide_by_volume_and_e0 K name eg) = Ok tt))).
Proof.
  split.
  - intros fg Hready.
    split; [now apply erase_keeps_ready |].
    split; [now apply divide_by_volume_keeps_ready |].
    intros Hcpu. split; [apply erase_accepts | now apply divide_by_volume_returns].
  - intros eg Hready.
    split; [now apply envelope_erase_keeps_ready |].
    split; [now apply divide_by_volume_and_e0_keeps_ready |].
    intros Hcpu. split; [apply envelope_erase_accepts |].
    intros [<- | []]. now apply divide_by_volume_and_e0_returns.
Qed.

Lemma unit_field_grid_ready :
  use_cuda (fgrid unit_field_grid) = false /\ field_ready unit_field_grid.
Proof.
  split; [reflexivity |]. split; [reflexivity |]. intros _.
  unfold field_shaped, has_shape. cbn. tauto.
Qed.

Lemma unit_envelope_grid_ready :
  use_cuda (egrid unit_envelope_grid) = false /\ envelope_ready unit_envelope_grid.
Proof.
  split; [reflexivity |]. split; [reflexivity |]. intros _.
  unfold envelope_shaped, has_shape. cbn. tauto.
Qed.

Lemma operations_keep_ready_witness :
  field_ready (fst (divide_by_volume no_cuda "rho" unit_field_grid)) /\
  snd (divide_by_volume no_cuda "rho" unit_field_grid) = Ok tt /\
  envelope_ready (fst (envelope_erase no_cuda "chi_a" unit_envelope_grid)) /\
  snd (envelope_erase no_cuda "chi_a" unit_envelope_grid) = Ok tt.
Proof.
  destruct (operations_keep_ready no_cuda "rho") as (Hfield & _).
  destruct (operations_keep_ready no_cuda "chi_a") as (_ & Henv).
  destruct (Hfield unit_field_grid (proj2 unit_field_grid_ready))
    as (_ & Hready & Hhost).
  destruct (Henv unit_envelope_grid (proj2 unit_envelope_grid_ready))
    as (Hready' & _ & Hhost').
  destruct (Hhost (proj1 unit_field_grid_ready)) as (_ & Hok).
  destruct (Hhost' (proj1 unit_envelope_grid_ready)) as (Hok' & _).
  split; [exact Hready |]. split; [apply Hok; cbn; tauto |].
  split; [exact Hready' |]. apply Hok'; cbn; tauto.
Defined.

Lemma Cscale_zero (w : R) : Cscale w C0 = C0.
Proof. unfold Cscale, C0. cbn. f_equal; ring. Qed.

Lemma Cscale_one (w : R) : Cscale w C1 = RtoC w.
Proof. unfold Cscale, C1, RtoC. cbn. f_equal; ring. Qed.

(** X3.  On the host path, on a ready grid, [divide_by_volume] multiplies
    the entry [(i, j)] of every array of the named group by [invvol[j]]
    and keeps the shapes; [divide_by_volume_and_e0] multiplies the entries
    of [chi] by [invvol[j] / epsilon_0].  An array of ones becomes
    [invvol] broadcast along z. *)
Theorem divide_by_volume_scales (K : CudaBackend) :
  (forall fg : FieldInterpolationGrid,
     use_cuda (fgrid fg) = false -> field_ready fg ->
     let w j := nth j (invvol (fgrid fg)) 0 in
     let fr := fst (divide_by_volume K "rho" fg) in
     let fj := fst (divide_by_volume K "J" fg) in
     (forall i j, data (rho fr) i j = Cscale (w j) (data (rho fg) i j)) /\
     (forall i j, data (Jr fj) i j = Cscale (w j) (data (Jr fg) i j) /\
                  data (Jt fj) i j = Cscale (w j) (data (Jt fg) i j) /\
                  data (Jz fj) i j = Cscale (w j) (data (Jz fg) i j)) /\
     field_shaped fr /\ field_shaped fj /\
     (uniform (rho fg) C1 ->
      forall i j, (i < Z.to_nat (Nz (fgrid fg)))%nat ->
                  (j < Z.to_nat (Nr (fgrid fg)))%nat ->
                  data (rho fr) i j = RtoC (w j))) /\
  (forall eg : EnvelopeInterpolationGrid,
     use_cuda (egrid eg) = false -> envelope_ready eg ->
     let ec := fst (divide_by_volume_and_e0 K "chi" eg) in
     (forall i j, (j < Z.to_nat (Nr (egrid eg)))%nat ->
        data (chi ec) i j =
        Cscale (nth j (invvol (egrid eg)) 0 / epsilon_0) (data (chi eg) i j)) /\
     envelope_shaped ec).
Proof.
  split.
  - intros fg Hcpu Hready. cbv zeta.
    destruct (divide_by_volume_host K fg Hcpu Hready) as (Hrho & HJ). cbv zeta in Hrho, HJ.
    pose proof (divide_by_volume_keeps_ready K "rho" fg Hready) as (_ & Hs1).
    pose proof (divide_by_volume_keeps_ready K "J" fg Hready) as (_ & Hs2).
    destruct (divide_by_volume_frame K "rho" fg) as (Hg1 & _).
    destruct (divide_by_volume_frame K "J" fg) as (Hg2 & _). cbv zeta in Hg1, Hg2.
    rewrite Hg1 in Hs1. rewrite Hg2 in Hs2.
    specialize (Hs1 Hcpu). specialize (Hs2 Hcpu).
    rewrite Hrho in *. rewrite HJ in *. cbn [fst] in *.
    split; [reflexivity |]. split; [intros i j; repeat split |].
    split; [exact Hs1 |]. split; [exact Hs2 |].
    intros Hone i j Hi Hj. cbn.
    destruct Hready as (_ & Hshape). specialize (Hshape Hcpu).
    clear Hs1 Hs2. rewrite Hone; [apply Cscale_one | |]; ready_shapes; lia.
  - intros eg Hcpu Hready. cbv zeta.
    pose proof (divide_by_volume_and_e0_host K eg Hcpu Hready) as Hchi. cbv zeta in Hchi.
    pose proof (divide_by_volume_and_e0_keeps_ready K "chi" eg Hready) as (_ & Hs1).
    destruct (divide_by_volume_and_e0_frame K "chi" eg) as (Hg1 & _). cbv zeta in Hg1.
    rewrite Hg1 in Hs1. specialize (Hs1 Hcpu).
    rewrite Hchi in *. cbn [fst] in *.
    split; [| exact Hs1].
    intros i j Hj. unfold set_chi. cbn [chi data].
    destruct Hready as (Hvol & _). unfold volumes_ready in Hvol. rewrite Hcpu in Hvol.
    rewrite (nth_map_lt _ _ _ 0); [reflexivity | lia].
Qed.

Lemma divide_by_volume_scales_witness :
  data (rho (fst (divide_by_volume no_cuda "rho" unit_field_grid))) 0 0 =
  RtoC (nth 0 (invvol unit_grid) 0) /\
  envelope_shaped (fst (divide_by_volume_and_e0 no_cuda "chi" unit_envelope_grid)).
Proof.
  destruct (divide_by_volume_scales no_cuda) as (Hfield & Henv).
  destruct (Hfield unit_field_grid (proj1 unit_field_grid_ready)
              (proj2 unit_field_grid_ready)) as (_ & _ & _ & _ & Hone).
  destruct (Henv unit_envelope_grid (proj1 unit_envelope_grid_ready)
              (proj2 unit_envelope_grid_ready)) as (_ & Hshaped).
  split; [| exact Hshaped].
  apply Hone.
  - intros i j _ _. reflexivity.
  - cbn. lia.
  - cbn. lia.
Defined.

(** ** Erasing and dividing *)

Lemma all_zero_scaled (a0 : ndarray2) (w : nat -> R) :
  all_zero a0 ->
  all_zero (mk_ndarray2 (shape0 a0) (shape1 a0) (fun i j => Cscale (w j) (data a0 i j))).
Proof.
  intros Hz i j Hi Hj. cbn in *. rewrite (Hz i j Hi Hj). apply Cscale_zero.
Qed.

(** X4.  On the host path [erase] is idempotent for every name, it
    absorbs a preceding division by the volume, and a division by the
    volume after it returns and leaves the erased group at zero. *)
Theorem erase_absorbs_division (K : CudaBackend) (fg : FieldInterpolationGrid) :
  use_cuda (fgrid fg) = false ->
  (forall name, erase K name (fst (erase K name fg)) = erase K name fg) /\
  (field_ready fg ->
   erase K "rho" (fst (divide_by_volume K "rho" fg)) = erase K "rho" fg /\
   erase K "J" (fst (divide_by_volume K "J" fg)) = erase K "J" fg /\
   (let fr := divide_by_volume K "rho" (fst (erase K "rho" fg)) in
    snd fr = Ok tt /\ all_zero (rho (fst fr))) /\
   (let fj := divide_by_volume K "J" (fst (erase K "J" fg)) in
    snd fj = Ok tt /\
    all_zero (Jr (fst fj)) /\ all_zero (Jt (fst fj)) /\ all_zero (Jz (fst fj)))).
Proof.
  intros Hcpu. split.
  - intros name. unfold erase at 2 3. rewrite Hcpu.
    unfold assign, mbind, mraise.
    repeat (match goal with
            | |- context [String.eqb ?a ?b] => destruct (String.eqb_spec a b)
            end; cbn [fst snd]); subst;
      unfold erase; cbn [fgrid set_rho set_Jr set_Jt set_Jz set_Er set_Et set_Ez
                           set_Br set_Bt set_Bz]; rewrite Hcpu;
      cbn [String.eqb Ascii.eqb Bool.eqb]; try reflexivity.
    all: repeat match goal with
           | |- context [String.eqb ?a ?b] =>
               destruct (String.eqb_spec a b); [congruence |]
           end; reflexivity.
  - intros Hready.
    destruct (divide_by_volume_host K fg Hcpu Hready) as (Hrho & HJ). cbv zeta in Hrho, HJ.
    pose proof (erase_keeps_ready K "rho" fg Hready) as Hr1.
    pose proof (erase_keeps_ready K "J" fg Hready) as Hr2.
    destruct (erase_frame K "rho" fg) as (Hg1 & _).
    destruct (erase_frame K "J" fg) as (Hg2 & _). cbv zeta in Hg1, Hg2.
    assert (Hc1 : use_cuda (fgrid (fst (erase K "rho" fg))) = false) by now rewrite Hg1.
    assert (Hc2 : use_cuda (fgrid (fst (erase K "J" fg))) = false) by now rewrite Hg2.
    destruct (divide_by_volume_host K _ Hc1 Hr1) as (Hrho' & _).
    destruct (divide_by_volume_host K _ Hc2 Hr2) as (_ & HJ').
    cbv zeta in Hrho', HJ'.
    destruct (erase_zeroes K "rho" fg Hcpu) as (_ & _ & _ & Hz1).
    destruct (erase_zeroes K "J" fg Hcpu) as (_ & _ & Hz2 & _).
    specialize (Hz1 eq_refl). destruct (Hz2 eq_refl) as (Hz2r & Hz2t & Hz2z).
    split; [| split; [| split]].
    + rewrite Hrho. unfold erase. cbn. rewrite Hcpu. reflexivity.
    + rewrite HJ. unfold erase. cbn. rewrite Hcpu. reflexivity.
    + cbv zeta. rewrite Hrho'. cbn [fst snd]. split; [reflexivity |].
      unfold set_rho. cbn [rho]. apply all_zero_scaled.
      rewrite Hz1. apply fill_zero_all_zero.
    + cbv zeta. rewrite HJ'. cbn [fst snd]. split; [reflexivity |].
      unfold set_Jr, set_Jt, set_Jz. cbn [Jr Jt Jz].
      repeat split; apply all_zero_scaled.
      * rewrite Hz2r. apply fill_zero_all_zero.
      * rewrite Hz2t. apply fill_zero_all_zero.
      * rewrite Hz2z. apply fill_zero_all_zero.
Qed.

Lemma erase_absorbs_division_witness :
  erase no_cuda "B" (fst (erase no_cuda "B" unit_field_grid)) =
  erase no_cuda "B" unit_field_grid /\
  erase no_cuda "rho" (fst (divide_by_volume no_cuda "rho" unit_field_grid)) =
  erase no_cuda "rho" unit_field_grid.
Proof.
  destruct (erase_absorbs_division no_cuda unit_field_grid
              (proj1 unit_field_grid_ready)) as (Hidem & Habs).
  destruct (Habs (proj2 unit_field_grid_ready)) as (Hrho & _).
  split; [apply Hidem | exact Hrho].
Defined.

(** ** Inverse volumes *)

Lemma init_fields (Nz0 Nr0 m0 : Z) (zmin0 zmax0 rmax0 : R) (uc : bool)
  (g : InterpolationGrid) :
  InterpolationGrid_init Nz0 Nr0 m0 zmin0 zmax0 rmax0 uc = Ok g ->
  Nr g = Nr0 /\ dr g = rmax0 / IZR Nr0 /\ dz g = (zmax0 - zmin0) / IZR Nz0 /\
  dr g <> 0 /\ dz g <> 0 /\
  invvol g = map (fun v => 1 / v)
               (map (shell_volume (dz g) (dr g))
                  (map (fun k => (0.5 + k) * dr g) (arange Nr0))).
Proof.
  intros Hg.
  assert (Hnz : ~ (Nr0 = 0%Z \/ Nz0 = 0%Z \/ rmax0 = 0 \/ zmax0 = zmin0)).
  { intros Hz. apply init_raises_iff with (m := m0) (uc := uc) in Hz. congruence. }
  rewrite init_nonzero in Hg by tauto. injection Hg as <-. cbn.
  assert (H1 : IZR Nr0 <> 0) by (apply not_0_IZR; tauto).
  assert (H2 : IZR Nz0 <> 0) by (apply not_0_IZR; tauto).
  repeat split.
  - unfold Rdiv. apply Rmult_integral_contrapositive_currified;
      [tauto | now apply Rinv_neq_0_compat].
  - unfold Rdiv. apply Rmult_integral_contrapositive_currified;
      [lra | now apply Rinv_neq_0_compat].
Qed.

(** X5.  After a successful construction the inverse volume of the radial
    cell [j] is [1 / (pi dz dr^2 (2 j + 1))], that is the inverse volume
    of the cell on the axis divided by [2 j + 1]; when [dz] is positive
    the inverse volumes are positive and decrease strictly with [j]. *)
Theorem invvol_closed_form (Nz0 Nr0 m0 : Z) (zmin0 zmax0 rmax0 : R) (uc : bool)
  (g : InterpolationGrid) :
  InterpolationGrid_init Nz0 Nr0 m0 zmin0 zmax0 rmax0 uc = Ok g ->
  length (invvol g) = Z.to_nat (Nr g) /\
  (forall j, (j < Z.to_nat (Nr g))%nat ->
     nth j (invvol g) 0 = 1 / (PI * dz g * dr g ^ 2 * (2 * INR j + 1)) /\
     nth j (invvol g) 0 * (2 * INR j + 1) = nth 0 (invvol g) 0) /\
  (0 < dz g ->
   forall j, (S j < Z.to_nat (Nr g))%nat ->
     0 < nth (S j) (invvol g) 0 < nth j (invvol g) 0).
Proof.
  intros Hg.
  destruct (init_fields _ _ _ _ _ _ _ _ Hg) as (HNr & _ & _ & Hdr & Hdz & Hinv).
  rewrite HNr.
  assert (Hnth : forall j, (j < Z.to_nat Nr0)%nat ->
            nth j (invvol g) 0 = 1 / (PI * dz g * dr g ^ 2 * (2 * INR j + 1))).
  { intros j Hj. rewrite Hinv.
    rewrite (nth_map_lt _ _ _ 0) by now rewrite !length_map, arange_length.
    rewrite (nth_map_lt _ _ _ 0) by now rewrite length_map, arange_length.
    rewrite (nth_map_lt _ _ _ 0) by now rewrite arange_length.
    rewrite arange_nth by assumption.
    now rewrite shell_volume_centre. }
  pose proof PI_RGT_0 as Hpi.
  assert (Hodd : forall j : nat, 0 < 2 * INR j + 1).
  { intros j. pose proof (pos_INR j). lra. }
  split; [| split].
  - rewrite Hinv. now rewrite !length_map, arange_length.
  - intros j Hj. split; [now apply Hnth |].
    rewrite (Hnth j Hj), (Hnth 0%nat) by lia.
    pose proof (Hodd j). cbn [INR]. field. repeat split; lra.
  - intros Hpos j Hj.
    rewrite (Hnth (S j)), (Hnth j) by lia.
    assert (Hc : 0 < PI * dz g * dr g ^ 2).
    { apply Rmult_lt_0_compat; [now apply Rmult_lt_0_compat |].
      assert (0 < dr g * dr g) by (destruct (Rtotal_order (dr g) 0) as [|[|]]; nra).
      simpl; lra. }
    pose proof (Hodd j) as Hj0. pose proof (Hodd (S j)) as Hj1.
    rewrite S_INR in *.
    assert (Ha : 0 < PI * dz g * dr g ^ 2 * (2 * INR j + 1)) by now apply Rmult_lt_0_compat.
    assert (Hb : 0 < PI * dz g * dr g ^ 2 * (2 * (INR j + 1) + 1)) by now apply Rmult_lt_0_compat.
    unfold Rdiv. rewrite !Rmult_1_l. split.
    + now apply Rinv_0_lt_compat.
    + apply Rinv_lt_contravar; [now apply Rmult_lt_0_compat | nra].
Qed.

Lemma invvol_closed_form_witness :
  exists g, InterpolationGrid_init 2 3 0 0 1 1 false = Ok g /\
            nth 1 (invvol g) 0 * (2 * INR 1 + 1) = nth 0 (invvol g) 0 /\
            0 < nth 2 (invvol g) 0 < nth 1 (invvol g) 0.
Proof.
  destruct (init_geometry 2 3 0 0 1 1 false) as (g & Hg & _).
  { unfold valid_arguments. repeat split; try lia; lra. }
  exists g. split; [exact Hg |].
  destruct (init_fields _ _ _ _ _ _ _ _ Hg) as (HNr & _ & Hdz & _).
  destruct (invvol_closed_form 2 3 0 0 1 1 false g Hg) as (_ & Hform & Hdec).
  rewrite HNr in Hform, Hdec. split.
  - apply Hform. cbn. lia.
  - apply Hdec; [rewrite Hdz; lra | cbn; lia].
Defined.

End interpolation_grid_facts.

(* ------------------------------------------------------------------ *)
(** * Properties of the gathering kernels *)
(* ------------------------------------------------------------------ *)

Module threading_methods_facts.
Import threading_methods.

(** ** Floor *)

Lemma Int_part_bounds (v : R) : IZR (Int_part v) <= v < IZR (Int_part v) + 1.
Proof. pose proof (base_Int_part v). lra. Qed.

Lemma Int_part_unique (v : R) (n : Z) : IZR n <= v < IZR n + 1 -> Int_part v = n.
Proof. intros Hn. symmetry. apply Int_part_spec. lra. Qed.

Lemma Int_part_ge (v : R) (n : Z) : IZR n <= v -> (n <= Int_part v)%Z.
Proof.
  intros Hn. pose proof (Int_part_bounds v) as Hb.
  assert (IZR n < IZR (Int_part v + 1)) by (rewrite plus_IZR; lra).
  apply lt_IZR in H. lia.
Qed.

Lemma Int_part_lt (v : R) (n : Z) : v < IZR n -> (Int_part v < n)%Z.
Proof.
  intros Hn. pose proof (Int_part_bounds v) as Hb.
  apply lt_IZR. lra.
Qed.

(** ** Shape factors *)

(** C5.  The shape factors are a partition of unity on each axis.  Linear
    order: the weights [upper - coordinate] and [coordinate - lower] add up
    to 1 along z, and along r once the weight that the boundary treatment
    moves to the guard bucket is counted.  Cubic order: the four weights
    add up to 1 for every offset, in particular on [0,1) and on the range
    [1,2) of the local coordinate of the kernels. *)
Theorem weights_partition_of_unity :
  (forall (invdz zmin : R) (Nz : Z) (invdr rmin : R) (Nr : Z) (rj zj : R),
     let st := linear_shape invdz zmin Nz invdr rmin Nr rj zj in
     Sz_lower st + Sz_upper st = 1 /\
     Sr_lower st + Sr_upper st + Sr_guard st = 1 /\
     ((0 <= Int_part (invdr * (rj - rmin) - 0.5))%Z ->
        Sr_lower st + Sr_upper st = 1)) /\
  (forall u : R, S0 u + S1 u + S2 u + S3 u = 1) /\
  (forall (invdz zmin invdr rmin rj zj : R),
     let st := cubic_shape invdz zmin invdr rmin rj zj in
     Rsum (Sr st) = 1 /\ Rsum (Sz st) = 1).
Proof.
  split; [| split].
  - intros invdz zmin Nz invdr rmin Nr rj zj. unfold linear_shape.
    destruct (Z.ltb_spec (Int_part (invdr * (rj - rmin) - 0.5)) 0);
      cbn; rewrite ?plus_IZR; repeat split; intros; try lra; lia.
  - intros u. unfold S0, S1, S2, S3. field.
  - intros invdz zmin invdr rmin rj zj. unfold cubic_shape, cubic_weights, Rsum.
    cbn. unfold S0, S1, S2, S3. split; field.
Qed.

(** At [u = 0.5] the four cubic weights add up to 1. *)
Lemma weights_partition_of_unity_witness :
  S0 0.5 + S1 0.5 + S2 0.5 + S3 0.5 = 1.
Proof. apply (proj1 (proj2 weights_partition_of_unity)). Defined.

(** ** Boundary treatment of the linear stencil *)

Ltac stencil_fields :=
  cbn [iz_lower iz_upper ir_lower ir_upper
       Sz_lower Sz_upper Sr_lower Sr_upper Sr_guard].

Ltac z_cases :=
  rewrite ?Z.gtb_ltb;
  repeat match goal with
         | |- context [(?a <? ?b)%Z] => destruct (Z.ltb_spec a b)
         end.

(** Range of the indices of the linear stencil, for a particle within one
    cell of the box along z, on a grid of at least two cells along z. *)
Lemma linear_shape_indices (invdz zmin : R) (Nz : Z) (invdr rmin : R) (Nr : Z)
  (rj zj : R) :
  (1 <= Nr)%Z -> (2 <= Nz)%Z -> 0 <= invdr * (rj - rmin) ->
  -1 <= invdz * (zj - zmin) <= IZR Nz + 1 ->
  let st := linear_shape invdz zmin Nz invdr rmin Nr rj zj in
  (0 <= ir_lower st <= Nr - 1)%Z /\ (0 <= ir_upper st <= Nr - 1)%Z /\
  (0 <= iz_lower st <= Nz - 1)%Z /\ (0 <= iz_upper st <= Nz - 1)%Z.
Proof.
  intros HNr HNz Hr Hz.
  assert (Hir : (-1 <= Int_part (invdr * (rj - rmin) - 0.5))%Z).
  { apply Int_part_ge. lra. }
  assert (Hiz1 : (-2 <= Int_part (invdz * (zj - zmin) - 0.5))%Z).
  { apply Int_part_ge. lra. }
  assert (Hiz2 : (Int_part (invdz * (zj - zmin) - 0.5) < Nz + 1)%Z).
  { apply Int_part_lt. rewrite plus_IZR. lra. }
  unfold linear_shape. z_cases; cbn; z_cases; cbn; lia.
Qed.

(** C4 (amended).  On a grid with [Nz >= 2] (and [Nr >= 1], positive
    [invdr], [rmin <= r]), for a particle whose z lies within one cell of
    the box, the support indices retained by the boundary treatment of the
    linear shape lie in [0,Nr-1] x [0,Nz-1]; a radial lower index below 0
    has its weight moved to the guard bucket, its regular weight set to 0
    and its index set to 0; radial indices above [Nr-1] are clamped to
    [Nr-1]; longitudinal indices are kept or shifted by exactly [Nz] up or
    down.  On any grid with [Nz >= 1], a particle at [zmin - 0.4 dz] has
    lower longitudinal index [Nz-1] and upper index 0. *)
Theorem linear_boundary_treatment :
  (forall (invdz zmin : R) (Nz : Z) (invdr rmin : R) (Nr : Z) (rj zj : R),
     (1 <= Nr)%Z -> (2 <= Nz)%Z -> 0 < invdr -> rmin <= rj ->
     -1 <= invdz * (zj - zmin) <= IZR Nz + 1 ->
     let r_cell := invdr * (rj - rmin) - 0.5 in
     let z_cell := invdz * (zj - zmin) - 0.5 in
     let st := linear_shape invdz zmin Nz invdr rmin Nr rj zj in
     ((0 <= ir_lower st <= Nr - 1)%Z /\ (0 <= ir_upper st <= Nr - 1)%Z /\
      (0 <= iz_lower st <= Nz - 1)%Z /\ (0 <= iz_upper st <= Nz - 1)%Z) /\
     ((Int_part r_cell < 0)%Z ->
        Sr_guard st = IZR (Int_part r_cell + 1) - r_cell /\
        Sr_lower st = 0 /\ ir_lower st = 0%Z) /\
     ((0 <= Int_part r_cell)%Z ->
        Sr_guard st = 0 /\ Sr_lower st = IZR (Int_part r_cell + 1) - r_cell /\
        ir_lower st = Z.min (Int_part r_cell) (Nr - 1)) /\
     ir_upper st = Z.min (Int_part r_cell + 1) (Nr - 1) /\
     (iz_lower st = Int_part z_cell \/ iz_lower st = (Int_part z_cell + Nz)%Z \/
      iz_lower st = (Int_part z_cell - Nz)%Z) /\
     (iz_upper st = (Int_part z_cell + 1)%Z \/
      iz_upper st = (Int_part z_cell + 1 + Nz)%Z \/
      iz_upper st = (Int_part z_cell + 1 - Nz)%Z)) /\
  (forall (dz zmin : R) (Nz : Z) (invdr rmin : R) (Nr : Z) (rj : R),
     (1 <= Nz)%Z -> 0 < dz ->
     let st := linear_shape (1 / dz) zmin Nz invdr rmin Nr rj (zmin - 0.4 * dz) in
     iz_lower st = (Nz - 1)%Z /\ iz_upper st = 0%Z).
Proof.
  split.
  - intros invdz zmin Nz invdr rmin Nr rj zj HNr HNz Hdr Hr Hz.
    cbv zeta. split; [apply linear_shape_indices; try assumption; nra |].
    assert (Hir : (-1 <= Int_part (invdr * (rj - rmin) - 0.5))%Z).
    { apply Int_part_ge. assert (0 <= invdr * (rj - rmin)) by nra. lra. }
    assert (Hiz1 : (-2 <= Int_part (invdz * (zj - zmin) - 0.5))%Z).
    { apply Int_part_ge. lra. }
    assert (Hiz2 : (Int_part (invdz * (zj - zmin) - 0.5) < Nz + 1)%Z).
    { apply Int_part_lt. rewrite plus_IZR. lra. }
    unfold linear_shape.
    z_cases; cbn; z_cases; cbn;
      repeat split; intros; try reflexivity; try lia.
  - intros dz zmin Nz invdr rmin Nr rj HNz Hdz. cbv zeta.
    assert (E : Int_part (1 / dz * (zmin - 0.4 * dz - zmin) - 0.5) = (-1)%Z).
    { apply Int_part_unique.
      assert (Hu : 1 / dz * dz = 1) by (field; lra).
      replace (1 / dz * (zmin - 0.4 * dz - zmin)) with (- (0.4 * (1 / dz * dz))) by ring.
      rewrite Hu. simpl IZR. lra. }
    unfold linear_shape. rewrite E.
    z_cases; stencil_fields; z_cases; stencil_fields; split; lia.
Qed.

(** Two particles on a 4 x 4 grid on the box [0,4] x [0,4].  The first
    one is on the axis, 0.4 cell below the box: its lower radial weight
    goes to the guard bucket and its lower longitudinal index wraps from
    -1 to 3.  The second one is beyond the radial edge, 0.2 cell below
    the upper end of the box: both radial indices are clamped to 3 and
    its upper longitudinal index wraps from 4 to 0. *)
Lemma linear_boundary_treatment_witness :
  let st1 := linear_shape 1 0 4 1 0 4 0 (-0.4) in
  let st2 := linear_shape 1 0 4 1 0 4 10 3.8 in
  (Sr_guard st1 = 0.5 /\ Sr_lower st1 = 0 /\ ir_lower st1 = 0%Z /\
   ir_upper st1 = 0%Z /\ iz_lower st1 = 3%Z /\ iz_upper st1 = 0%Z) /\
  (Sr_guard st2 = 0 /\ ir_lower st2 = 3%Z /\ ir_upper st2 = 3%Z /\
   iz_lower st2 = 3%Z /\ iz_upper st2 = 0%Z).
Proof.
  assert (Er1 : Int_part (1 * (0 - 0) - 0.5) = (-1)%Z)
    by (apply Int_part_unique; simpl IZR; lra).
  assert (Ez1 : Int_part (1 * (-0.4 - 0) - 0.5) = (-1)%Z)
    by (apply Int_part_unique; simpl IZR; lra).
  assert (Er2 : Int_part (1 * (10 - 0) - 0.5) = 9%Z)
    by (apply Int_part_unique; simpl IZR; lra).
  assert (Ez2 : Int_part (1 * (3.8 - 0) - 0.5) = 3%Z)
    by (apply Int_part_unique; simpl IZR; lra).
  cbv zeta. split.
  - destruct (proj1 linear_boundary_treatment 1 0 4%Z 1 0 4%Z 0 (-0.4))
      as (Hrange & Hguard & _ & Hupper & Hzl & Hzu); try lia; try lra.
    cbv zeta in Hguard, Hupper, Hzl, Hzu. rewrite Er1 in Hguard, Hupper.
    rewrite Ez1 in Hzl, Hzu.
    destruct (Hguard ltac:(lia)) as (Hg & Hl & Hi).
    split; [rewrite Hg; simpl IZR; lra |]. split; [exact Hl |].
    split; [exact Hi |]. repeat split; lia.
  - destruct (proj1 linear_boundary_treatment 1 0 4%Z 1 0 4%Z 10 3.8)
      as (Hrange & _ & Hregular & Hupper & Hzl & Hzu); try lia; try lra.
    cbv zeta in Hregular, Hupper, Hzl, Hzu. rewrite Er2 in Hregular, Hupper.
    rewrite Ez2 in Hzl, Hzu.
    destruct (Hregular ltac:(lia)) as (Hg & _ & Hi).
    split; [exact Hg |]. repeat split; lia.
Defined.

(** C4, as stated, fails on a grid of a single cell along z: on the box
    [0,1] with [dz = 1], the particle at [z = -0.6], within one cell of the
    box, keeps the negative lower index -1 after the boundary treatment. *)
Lemma single_cell_wraparound_negative :
  0 - 1 <= -0.6 <= 1 + 1 /\
  iz_lower (linear_shape 1 0 1 1 0 1 0.5 (-0.6)) = (-1)%Z.
Proof.
  split; [lra |].
  assert (E : Int_part (1 * (-0.6 - 0) - 0.5) = (-2)%Z).
  { apply Int_part_unique. lra. }
  unfold linear_shape. rewrite E.
  z_cases; stencil_fields; z_cases; stencil_fields; lia.
Qed.

(** ** Registration of the envelope quantities *)

Lemma getitem_nat {S A : Type} (get : S -> list A) (k : nat) (d : A) (s : S) :
  (k < length (get s))%nat ->
  getitem get (Z.of_nat k) s = (s, Ok (nth k (get s) d)).
Proof. intros Hk. unfold getitem. now rewrite (py_index_nat _ _ d). Qed.

Lemma setitem_nat {S A : Type} (get : S -> list A) (set : list A -> S -> S)
  (k : nat) (v : A) (s : S) :
  (k < length (get s))%nat ->
  setitem get set (Z.of_nat k) v s = (set (list_set (get s) k v) s, Ok tt).
Proof. intros Hk. unfold setitem. now rewrite py_setitem_nat. Qed.

(** What lines 336-362 write at slot [k]: with [averaging=False] the five
    new quantities; with [averaging=True] the mean of the stored value and
    of a new quantity, which for [a2_delayed] is the intensity [F conj(F)]
    of line 356 and not the delayed intensity. *)
Lemma envelope_register_run (averaging : bool) (dt cos sin : R) (k : nat)
  (F Fr Ft Fz dtF : complex) (s : envelope_outputs) :
  (k < length (a2 s))%nat -> (k < length (grad_a2_x s))%nat ->
  (k < length (grad_a2_y s))%nat -> (k < length (grad_a2_z s))%nat ->
  (k < length (a2_delayed s))%nat ->
  let Fx := Csub (Cscale cos Fr) (Cscale sin Ft) in
  let Fy := Cadd (Cscale sin Fr) (Cscale cos Ft) in
  let blend old new := if averaging then unweighted_mean old new else new in
  envelope_register averaging dt cos sin (Z.of_nat k) (F, Fr, Ft, Fz, dtF) s =
  (mk_envelope_outputs
     (list_set (a2 s) k (blend (nth k (a2 s) 0) (Cre (intensity F))))
     (list_set (grad_a2_x s) k
        (blend (nth k (grad_a2_x s) 0) (intensity_gradient Fx F)))
     (list_set (grad_a2_y s) k
        (blend (nth k (grad_a2_y s) 0) (intensity_gradient Fy F)))
     (list_set (grad_a2_z s) k
        (blend (nth k (grad_a2_z s) 0) (intensity_gradient Fz F)))
     (list_set (a2_delayed s) k
        (if averaging
         then unweighted_mean (nth k (a2_delayed s) 0) (Cre (intensity F))
         else Cre (intensity (half_step_amplitude dt F dtF)))),
   Ok tt).
Proof.
  intros H1 H2 H3 H4 H5. cbv zeta. unfold envelope_register.
  destruct averaging; unfold mbind.
  - rewrite (getitem_nat a2 k 0) by assumption.
    rewrite setitem_nat by assumption.
    rewrite (getitem_nat grad_a2_x k 0) by assumption.
    rewrite setitem_nat by assumption.
    rewrite (getitem_nat grad_a2_y k 0) by assumption.
    rewrite setitem_nat by assumption.
    rewrite (getitem_nat grad_a2_z k 0) by assumption.
    rewrite setitem_nat by assumption.
    rewrite (getitem_nat a2_delayed k 0) by assumption.
    rewrite setitem_nat by assumption.
    cbn. unfold unweighted_mean, intensity, intensity_gradient, Cre, Cscale, Cadd, RtoC.
    cbn [fst snd]. reflexivity.
  - rewrite !setitem_nat by assumption. reflexivity.
Qed.

(** C3 (failing input).  One particle whose stored outputs are all 0, with
    [F = 1], [dtF = 2], [dt = 1] and a vanishing gradient: the delayed
    intensity is [|0.5 dt dtF + F|^2 = 4], so that the mean of the stored
    and of the new delayed intensity is 2; line 356 stores instead 0.5,
    the mean of the stored value and of the intensity [|F|^2 = 1].  With
    [averaging=False] the same accumulators give [a2_delayed = 4]. *)
Theorem averaging_blends_delayed_with_intensity :
  let s0 := mk_envelope_outputs [0] [0] [0] [0] [0] in
  let F := C1 in
  let dtF := (2, 0) in
  let acc := (F, C0, C0, C0, dtF) in
  Cre (intensity (half_step_amplitude 1 F dtF)) = 4 /\
  unweighted_mean 0 (Cre (intensity (half_step_amplitude 1 F dtF))) = 2 /\
  (exists s', envelope_register true 1 1 0 0 acc s0 = (s', Ok tt) /\
              a2 s' = [0.5] /\ a2_delayed s' = [0.5]) /\
  (exists s', envelope_register false 1 1 0 0 acc s0 = (s', Ok tt) /\
              a2 s' = [1] /\ a2_delayed s' = [4]).
Proof.
  cbv zeta.
  assert (HI : Cre (intensity C1) = 1).
  { unfold intensity, Cre, Cmul, Cconj, C1. cbn [fst snd]. lra. }
  assert (HId : Cre (intensity (half_step_amplitude 1 C1 (2, 0))) = 4).
  { unfold intensity, half_step_amplitude, Cre, Cmul, Cconj, Cadd, Cscale, C1.
    cbn [fst snd]. lra. }
  split; [exact HId |]. split; [unfold unweighted_mean; rewrite HId; lra |].
  split.
  - eexists. split.
    + apply (envelope_register_run true 1 1 0 0%nat); cbn; lia.
    + cbn [a2 a2_delayed list_set nth]. rewrite HI. unfold unweighted_mean.
      split; f_equal; lra.
  - eexists. split.
    + apply (envelope_register_run false 1 1 0 0%nat); cbn; lia.
    + cbn [a2 a2_delayed list_set nth]. now rewrite HI, HId.
Qed.

(** ** Pairing of modes and arrays in the envelope kernels *)

Lemma rbind_Ok {A : Type} (r : result A) : rbind r Ok = r.
Proof. now destruct r. Qed.

(** C2 (failing input).  With [m_tuple = (1, 0)] and tuples of two arrays
    each, the linear kernel gives mode 1 the arrays of position 0 and then
    mode 0 the arrays of position 1, as the tuples are aligned; the cubic
    kernel indexes the tuples by the mode number, and gives mode 1 the
    arrays of position 1 and mode 0 the arrays of position 0.  With
    [m_tuple = (1,)] and tuples of one array, the loop over the modes of
    the cubic kernel raises [IndexError], and so does the kernel on a
    batch of one particle, whose outputs it leaves as they were. *)
Theorem cubic_envelope_indexes_tuples_by_mode (H : InlineFunctions)
  (cos sin : R) (stl : linear_stencil) (stc : cubic_stencil) (Nr Nz : Z)
  (a_p0 a_p1 gr_p0 gr_p1 gt_p0 gt_p1 gz_p0 gz_p1 dta_p0 dta_p1 : ndarray2)
  (invdz zmin invdr rmin dt xj yj zj : R) (averaging : bool)
  (s : envelope_outputs) :
  envelope_modes_linear H cos sin stl
    [a_p0; a_p1] [gr_p0; gr_p1] [gt_p0; gt_p1] [gz_p0; gz_p1] [dta_p0; dta_p1]
    [1; 0]%Z =
  rbind
    (add_linear_envelope_gather_for_mode H 1 C0 C0 C0 C0 C0 (Cpow (cos, - sin) 1)
       a_p0 gr_p0 gt_p0 gz_p0 dta_p0
       (iz_lower stl) (iz_upper stl) (ir_lower stl) (ir_upper stl)
       (S_ll stl) (S_lu stl) (S_lg stl) (S_ul stl) (S_uu stl) (S_ug stl))
    (fun '(F, Fr, Ft, Fz, dtF) =>
       add_linear_envelope_gather_for_mode H 0 F Fr Ft Fz dtF (Cpow (cos, - sin) 0)
         a_p1 gr_p1 gt_p1 gz_p1 dta_p1
         (iz_lower stl) (iz_upper stl) (ir_lower stl) (ir_upper stl)
         (S_ll stl) (S_lu stl) (S_lg stl) (S_ul stl) (S_uu stl) (S_ug stl)) /\
  envelope_modes_cubic H cos sin stc Nr Nz
    [a_p0; a_p1] [gr_p0; gr_p1] [gt_p0; gt_p1] [gz_p0; gz_p1] [dta_p0; dta_p1]
    [1; 0]%Z =
  rbind
    (add_cubic_envelope_gather_for_mode H 1 C0 C0 C0 C0 C0 (Cpow (cos, - sin) 1)
       a_p1 gr_p1 gt_p1 gz_p1 dta_p1
       (ir_lowest stc) (iz_lowest stc) (Sr stc) (Sz stc) Nr Nz)
    (fun '(F, Fr, Ft, Fz, dtF) =>
       add_cubic_envelope_gather_for_mode H 0 F Fr Ft Fz dtF (Cpow (cos, - sin) 0)
         a_p0 gr_p0 gt_p0 gz_p0 dta_p0
         (ir_lowest stc) (iz_lowest stc) (Sr stc) (Sz stc) Nr Nz) /\
  envelope_modes_cubic H cos sin stc Nr Nz
    [a_p0] [gr_p0] [gt_p0] [gz_p0] [dta_p0] [1]%Z = Raise IndexError /\
  gather_envelope_field_numba_cubic H [xj] [yj] [zj] invdz zmin Nz invdr rmin Nr dt
    [a_p0] [gr_p0] [gt_p0] [gz_p0] [dta_p0] [1]%Z 1 [0; 1]%Z averaging s =
  (s, Raise IndexError).
Proof.
  split; [| split; [| split]].
  - unfold envelope_modes_linear.
    change (py_range 0 (Z.of_nat (length [1; 0]%Z))) with [0; 1]%Z. cbn.
    destruct (add_linear_envelope_gather_for_mode H 1 C0 C0 C0 C0 C0 _ _ _ _ _ _ _ _ _ _ _ _ _ _ _ _)
      as [[[[[F Fr] Ft] Fz] dtF] | e]; cbn; [| reflexivity].
    apply rbind_Ok.
  - unfold envelope_modes_cubic. cbn.
    change (Pos.to_nat 1) with 1%nat. cbn.
    destruct (add_cubic_envelope_gather_for_mode H 1 C0 C0 C0 C0 C0 _ _ _ _ _ _ _ _ _ _ _ _)
      as [[[[[F Fr] Ft] Fz] dtF] | e]; cbn; [| reflexivity].
    apply rbind_Ok.
  - unfold envelope_modes_cubic. cbn.
    change (Pos.to_nat 1) with 1%nat. reflexivity.
  - unfold gather_envelope_field_numba_cubic.
    change (py_range 0 1) with [0%Z]. cbn [for_each]. unfold mbind at 1.
    unfold mbind at 1. unfold lift at 1.
    change (py_index [0; 1]%Z 0) with (@Ok Z 0%Z).
    cbv beta iota. unfold mbind at 1. unfold lift at 1.
    change (py_index [0; 1]%Z (0 + 1)) with (@Ok Z 1%Z).
    cbv beta iota.
    change (py_range 0 1) with [0%Z]. cbn [for_each]. unfold mbind at 1.
    unfold gather_envelope_cubic_particle, mbind, lift.
    change (py_index [xj] 0) with (Ok xj).
    change (py_index [yj] 0) with (Ok yj).
    change (py_index [zj] 0) with (Ok zj).
    cbv beta iota.
    destruct (cylindrical xj yj) as [[rj c0] s0].
    reflexivity.
Qed.

(** ** The loop bodies *)

Lemma gather_linear_particle_eq (H : InlineFunctions)
  (invdz zmin : R) (Nz : Z) (invdr rmin : R) (Nr : Z) (i : Z) :
  gather_linear_particle H invdz zmin Nz invdr rmin Nr i =
  gather_particle (linear_mode_gather H invdz zmin Nz invdr rmin Nr) i.
Proof. reflexivity. Qed.

Lemma gather_cubic_particle_eq (H : InlineFunctions)
  (invdz zmin : R) (Nz : Z) (invdr rmin : R) (Nr : Z) (i : Z) :
  gather_cubic_particle H invdz zmin Nz invdr rmin Nr i =
  gather_particle (cubic_mode_gather H invdz zmin Nz invdr rmin Nr) i.
Proof. reflexivity. Qed.

Lemma gather_particle_inv (g : mode_gather) (i : Z) (s s' : gather_state) (N : nat) :
  batch_of N s ->
  gather_particle g i s = (s', Ok tt) ->
  exists k xj yj zj ex ey ez bx by_ bz,
    py_norm_index N i = Some k /\
    position_at s k = (Some xj, Some yj, Some zj) /\
    fields_at g s xj yj zj = Ok (ex, ey, ez, bx, by_, bz) /\
    s' = with_outputs s (list_set (Ex s) k ex) (list_set (Ey s) k ey)
           (list_set (Ez s) k ez) (list_set (Bx s) k bx)
           (list_set (By s) k by_) (list_set (Bz s) k bz).
Proof.
  intros HN Hrun.
  destruct HN as (Lx & Ly & Lz & LEx & LEy & LEz & LBx & LBy & LBz).
  unfold gather_particle, mbind, getitem, lift, setitem in Hrun.
  destruct (py_index (x s) i) as [xj |] eqn:Hx; [| discriminate].
  destruct (py_index (y s) i) as [yj |] eqn:Hy; [| discriminate].
  destruct (py_index (z s) i) as [zj |] eqn:Hz; [| discriminate].
  destruct (cylindrical xj yj) as [[rj cos] sin] eqn:Hcyl.
  repeat (match type of Hrun with
          | context [match g ?a ?b ?c ?d ?e ?f ?h ?j ?k ?l with _ => _ end] =>
              destruct (g a b c d e f h j k l) as [[[? ?] ?] | ?] eqn:?;
              [| discriminate]
          | context [py_setitem ?l ?j ?v] =>
              destruct (py_setitem l j v) eqn:?; [| discriminate]
          end; cbn in Hrun).
  injection Hrun as <-.
  apply py_index_inv in Hx, Hy, Hz.
  destruct Hx as (k & Hk & Hx), Hy as (ky & Hky & Hy), Hz as (kz & Hkz & Hz).
  rewrite Lx in Hk. rewrite Ly in Hky. rewrite Lz in Hkz.
  assert (ky = k) by congruence. assert (kz = k) by congruence. subst ky kz.
  repeat match goal with
         | Hs : py_setitem _ i _ = Ok _ |- _ =>
             apply py_setitem_inv in Hs; destruct Hs as (? & Hs & ->)
         end.
  rewrite ?LEx, ?LEy, ?LEz, ?LBx, ?LBy, ?LBz in *.
  repeat match goal with
         | Hs : py_norm_index N i = Some ?j |- _ =>
             lazymatch j with
             | k => fail
             | _ => assert (j = k) by congruence; subst j
             end
         end.
  exists k, xj, yj, zj.
  do 6 eexists. split; [exact Hk |]. split.
  - unfold position_at. now rewrite Hx, Hy, Hz.
  - split.
    + unfold fields_at. rewrite Hcyl.
      repeat match goal with
             | Hg : g _ _ _ _ _ _ _ _ _ _ = Ok _ |- _ => rewrite Hg; clear Hg; cbn [rbind]
             end.
      reflexivity.
    + reflexivity.
Qed.

Lemma py_index_nth_error {A : Type} (l : list A) (k : nat) (v : A) :
  nth_error l k = Some v -> py_index l (Z.of_nat k) = Ok v.
Proof.
  intros Hv. unfold py_index.
  assert (Hk : (k < length l)%nat) by (apply nth_error_Some; congruence).
  rewrite py_norm_index_nat by assumption. now rewrite Hv.
Qed.

(** The loop body succeeds when the slot exists and the accumulations
    succeed. *)
Lemma gather_particle_run (g : mode_gather) (k N : nat) (s : gather_state)
  (xj yj zj ex ey ez bx by_ bz : R) :
  batch_of N s ->
  position_at s k = (Some xj, Some yj, Some zj) ->
  fields_at g s xj yj zj = Ok (ex, ey, ez, bx, by_, bz) ->
  gather_particle g (Z.of_nat k) s =
  (with_outputs s (list_set (Ex s) k ex) (list_set (Ey s) k ey)
     (list_set (Ez s) k ez) (list_set (Bx s) k bx)
     (list_set (By s) k by_) (list_set (Bz s) k bz), Ok tt).
Proof.
  intros HN Hpos Hf.
  destruct HN as (Lx & Ly & Lz & LEx & LEy & LEz & LBx & LBy & LBz).
  unfold position_at in Hpos. injection Hpos as Hx Hy Hz.
  assert (Hk : (k < N)%nat) by (rewrite <- Lx; apply nth_error_Some; congruence).
  unfold gather_particle, mbind, getitem, lift, setitem.
  rewrite (py_index_nth_error _ _ _ Hx), (py_index_nth_error _ _ _ Hy),
    (py_index_nth_error _ _ _ Hz).
  unfold fields_at in Hf.
  destruct (cylindrical xj yj) as [[rj cos] sin].
  repeat (match type of Hf with
          | context [rbind (g ?a ?b ?c ?d ?e ?f ?h ?j ?l ?m) _] =>
              destruct (g a b c d e f h j l m) as [[[? ?] ?] | ?] eqn:?;
              cbn [rbind] in Hf; [| discriminate]
          end).
  injection Hf as <- <- <- <- <- <-.
  repeat (match goal with
          | Hg : g _ _ _ _ _ _ _ _ _ _ = Ok _ |- _ => rewrite Hg; clear Hg
          | |- context [py_setitem ?l (Z.of_nat k) ?v] =>
              rewrite (py_setitem_nat l k v) by lia
          end; cbn).
  reflexivity.
Qed.

Lemma fields_at_same_grids (g : mode_gather) (s s' : gather_state) (xj yj zj : R) :
  same_grids s s' -> fields_at g s' xj yj zj = fields_at g s xj yj zj.
Proof.
  intros (E1 & E2 & E3 & E4 & E5 & E6 & E7 & E8 & E9 & E10 & E11 & E12).
  unfold fields_at.
  now rewrite E1, E2, E3, E4, E5, E6, E7, E8, E9, E10, E11, E12.
Qed.

Lemma same_inputs_grids (s s' : gather_state) : same_inputs s s' -> same_grids s s'.
Proof. unfold same_inputs, same_grids. tauto. Qed.

Lemma same_inputs_position (s s' : gather_state) (k : nat) :
  same_inputs s s' -> position_at s' k = position_at s k.
Proof. intros (E1 & E2 & E3 & _). unfold position_at. now rewrite E1, E2, E3. Qed.

Lemma same_inputs_refl (s : gather_state) : same_inputs s s.
Proof. unfold same_inputs. tauto. Qed.

Lemma same_inputs_with_outputs (s0 s : gather_state) (ex ey ez bx by_ bz : list R) :
  same_inputs s0 s -> same_inputs s0 (with_outputs s ex ey ez bx by_ bz).
Proof. unfold same_inputs. cbn. tauto. Qed.

(** ** Loops *)

Lemma for_each_invariant {S I : Type} (Inv : list I -> S -> Prop)
  (body : I -> method S unit) :
  (forall done i s s', Inv done s -> body i s = (s', Ok tt) -> Inv (done ++ [i]) s') ->
  forall l done s s',
    Inv done s -> for_each l body s = (s', Ok tt) -> Inv (done ++ l) s'.
Proof.
  intros Hstep l. induction l as [| i t IH]; intros done s s' Hinv Hrun.
  - cbn in Hrun. injection Hrun as <-. now rewrite app_nil_r.
  - cbn in Hrun. unfold mbind in Hrun.
    destruct (body i s) as [s1 [[] | e]] eqn:Hbody; [| discriminate].
    replace (done ++ i :: t) with ((done ++ [i]) ++ t) by now rewrite <- app_assoc.
    eapply IH; [| exact Hrun]. eapply Hstep; eassumption.
Qed.

Lemma for_each_run {S I : Type} (Inv : S -> Prop) (body : I -> method S unit)
  (l : list I) :
  (forall i s, In i l -> Inv s -> exists s', body i s = (s', Ok tt) /\ Inv s') ->
  forall s, Inv s -> exists s', for_each l body s = (s', Ok tt) /\ Inv s'.
Proof.
  induction l as [| i t IH]; intros Hstep s Hinv.
  - exists s. now split.
  - destruct (Hstep i s (or_introl eq_refl) Hinv) as (s1 & Hbody & Hinv1).
    destruct (IH (fun j s0 Hj => Hstep j s0 (or_intror Hj)) s1 Hinv1) as (s' & Hrun & Hinv').
    exists s'. split; [| exact Hinv']. cbn. unfold mbind. now rewrite Hbody.
Qed.

Lemma in_py_range (lo hi i : Z) : In i (py_range lo hi) <-> (lo <= i < hi)%Z.
Proof.
  unfold py_range. rewrite in_map_iff. split.
  - intros (k & <- & Hk). apply in_seq in Hk. lia.
  - intros Hi. exists (Z.to_nat (i - lo)). split; [lia |]. apply in_seq. lia.
Qed.

(** ** Processed particles *)

Lemma outputs_at_written (s : gather_state) (N k : nat) (ex ey ez bx by_ bz : R) :
  batch_of N s -> (k < N)%nat ->
  outputs_at
    (with_outputs s (list_set (Ex s) k ex) (list_set (Ey s) k ey)
       (list_set (Ez s) k ez) (list_set (Bx s) k bx)
       (list_set (By s) k by_) (list_set (Bz s) k bz)) k =
  (Some ex, Some ey, Some ez, Some bx, Some by_, Some bz).
Proof.
  intros (_ & _ & _ & LEx & LEy & LEz & LBx & LBy & LBz) Hk.
  unfold outputs_at. cbn.
  now rewrite !list_set_same by lia.
Qed.

Lemma outputs_at_other (s : gather_state) (k j : nat) (ex ey ez bx by_ bz : R) :
  j <> k ->
  outputs_at
    (with_outputs s (list_set (Ex s) k ex) (list_set (Ey s) k ey)
       (list_set (Ez s) k ez) (list_set (Bx s) k bx)
       (list_set (By s) k by_) (list_set (Bz s) k bz)) j =
  outputs_at s j.
Proof.
  intros Hj. unfold outputs_at. cbn. now rewrite !list_set_other by assumption.
Qed.

Lemma batch_of_written (s : gather_state) (N k : nat) (ex ey ez bx by_ bz : R) :
  batch_of N s ->
  batch_of N
    (with_outputs s (list_set (Ex s) k ex) (list_set (Ey s) k ey)
       (list_set (Ez s) k ez) (list_set (Bx s) k bx)
       (list_set (By s) k by_) (list_set (Bz s) k bz)).
Proof.
  unfold batch_of. cbn. rewrite !list_set_length. tauto.
Qed.

Lemma gathered_at_outputs (g : mode_gather) (s0 s s' : gather_state) (k : nat) :
  outputs_at s' k = outputs_at s k -> gathered_at g s0 s k -> gathered_at g s0 s' k.
Proof.
  intros Ho (xj & yj & zj & ex & ey & ez & bx & by_ & bz & Hp & Hf & Hout).
  exists xj, yj, zj, ex, ey, ez, bx, by_, bz. now rewrite Ho.
Qed.

Lemma processed_start (g : mode_gather) (N : nat) (s0 : gather_state) :
  batch_of N s0 -> processed g N s0 (fun _ => False) s0.
Proof.
  intros HN. split; [apply same_inputs_refl |]. split; [exact HN |]. split.
  - intros k (i & [] & _).
  - reflexivity.
Qed.

Lemma processed_ext (g : mode_gather) (N : nat) (s0 s : gather_state)
  (P Q : Z -> Prop) :
  (forall i, P i <-> Q i) -> processed g N s0 P s -> processed g N s0 Q s.
Proof.
  intros HPQ (Hin & HN & Hg & Hu). split; [exact Hin |]. split; [exact HN |]. split.
  - intros k (i & Hi & Hk). apply Hg. exists i. split; [now apply HPQ | exact Hk].
  - intros k Hk. apply Hu. intros i Hi. apply Hk. now apply HPQ.
Qed.

Lemma processed_step (g : mode_gather) (N : nat) (s0 s s' : gather_state)
  (P : Z -> Prop) (i : Z) :
  processed g N s0 P s ->
  gather_particle g i s = (s', Ok tt) ->
  processed g N s0 (fun j => P j \/ j = i) s'.
Proof.
  intros (Hin & HN & Hg & Hu) Hrun.
  destruct (gather_particle_inv g i s s' N HN Hrun)
    as (k & xj & yj & zj & ex & ey & ez & bx & by_ & bz & Hk & Hpos & Hf & ->).
  pose proof (py_norm_index_lt _ _ _ Hk) as HkN.
  split; [now apply same_inputs_with_outputs |].
  split; [now apply batch_of_written |]. split.
  - intros k' (j & Hj & Hk').
    destruct (Nat.eq_dec k' k) as [-> | Hne].
    + exists xj, yj, zj, ex, ey, ez, bx, by_, bz.
      rewrite <- (same_inputs_position s0 s k Hin).
      rewrite <- (fields_at_same_grids g s0 s) by now apply same_inputs_grids.
      split; [exact Hpos |]. split; [exact Hf |]. now apply (outputs_at_written s N).
    + apply gathered_at_outputs with (s := s); [now apply outputs_at_other |].
      apply Hg. exists j. split; [| exact Hk'].
      destruct Hj as [Hj | ->]; [exact Hj | congruence].
  - intros k' Hk'.
    assert (Hne : k' <> k).
    { intros ->. apply (Hk' i); [now right | exact Hk]. }
    rewrite outputs_at_other by assumption.
    apply Hu. intros j Hj. apply Hk'. now left.
Qed.

Lemma processed_for_each (g : mode_gather) (N : nat) (s0 : gather_state)
  (P : Z -> Prop) (l : list Z) (s s' : gather_state) :
  processed g N s0 P s ->
  for_each l (gather_particle g) s = (s', Ok tt) ->
  processed g N s0 (fun j => P j \/ In j l) s'.
Proof.
  intros Hp Hrun.
  pose proof (for_each_invariant
                (fun done st => processed g N s0 (fun j => P j \/ In j done) st)
                (gather_particle g)) as Hloop.
  cbv beta in Hloop.
  apply (Hloop) with (l := l) (done := []) (s := s) (s' := s') in Hrun.
  - exact Hrun.
  - intros done i st st' Hst Hbody.
    eapply processed_ext; [| eapply processed_step; eassumption].
    intros j. cbv beta. rewrite in_app_iff. cbn. intuition congruence.
  - eapply processed_ext; [| exact Hp]. intros j. cbn. tauto.
Qed.

(** A successful call of the linear kernel has processed every slot. *)
Lemma linear_kernel_processed (H : InlineFunctions)
  (invdz zmin : R) (Nz : Z) (invdr rmin : R) (Nr : Z)
  (N : nat) (s s' : gather_state) :
  batch_of N s ->
  gather_field_numba_linear H invdz zmin Nz invdr rmin Nr s = (s', Ok tt) ->
  processed (linear_mode_gather H invdz zmin Nz invdr rmin Nr) N s
    (fun i => (0 <= i < Z.of_nat N)%Z) s'.
Proof.
  intros HN Hrun. unfold gather_field_numba_linear in Hrun.
  assert (Lx : length (x s) = N) by apply HN. rewrite Lx in Hrun.
  eapply processed_ext;
    [| eapply processed_for_each; [apply processed_start; exact HN | exact Hrun]].
  intros i. cbv beta. rewrite in_py_range. tauto.
Qed.

(** A successful call of the cubic kernel has processed the slots of its
    chunks. *)
Lemma cubic_kernel_processed (H : InlineFunctions)
  (invdz zmin : R) (Nz : Z) (invdr rmin : R) (Nr : Z)
  (nthreads : Z) (ptcl_chunk_indices : list Z)
  (N : nat) (s s' : gather_state) :
  batch_of N s ->
  gather_field_numba_cubic H invdz zmin Nz invdr rmin Nr nthreads
    ptcl_chunk_indices s = (s', Ok tt) ->
  processed (cubic_mode_gather H invdz zmin Nz invdr rmin Nr) N s
    (in_chunks nthreads ptcl_chunk_indices) s'.
Proof.
  intros HN Hrun. unfold gather_field_numba_cubic in Hrun.
  set (g := cubic_mode_gather H invdz zmin Nz invdr rmin Nr).
  set (P := fun (done : list Z) (i : Z) =>
              exists nt lo hi, In nt done /\
                py_index ptcl_chunk_indices nt = Ok lo /\
                py_index ptcl_chunk_indices (nt + 1) = Ok hi /\ (lo <= i < hi)%Z).
  pose proof (for_each_invariant (fun done st => processed g N s (P done) st)
                (gather_cubic_chunk H invdz zmin Nz invdr rmin Nr ptcl_chunk_indices))
    as Hloop.
  cbv beta in Hloop.
  apply Hloop with (l := py_range 0 nthreads) (done := []) (s := s) (s' := s') in Hrun.
  - eapply processed_ext; [| exact Hrun].
    intros i. unfold P, in_chunks. cbn [app].
    split; intros (nt & lo & hi & Hnt & Hrest);
      exists nt, lo, hi; (split; [| exact Hrest]).
    + apply in_py_range in Hnt. lia.
    + apply in_py_range. lia.
  - intros done nt st st' Hst Hbody.
    unfold gather_cubic_chunk, mbind, lift in Hbody.
    destruct (py_index ptcl_chunk_indices nt) as [lo |] eqn:Hlo; [| discriminate].
    destruct (py_index ptcl_chunk_indices (nt + 1)) as [hi |] eqn:Hhi; [| discriminate].
    eapply processed_ext; [| eapply processed_for_each; [exact Hst | exact Hbody]].
    intros i. unfold P. cbv beta. split.
    + intros [(nt' & lo' & hi' & Hin & Hrest) | Hi].
      * exists nt', lo', hi'. split; [| exact Hrest]. apply in_app_iff. now left.
      * exists nt, lo, hi. apply in_py_range in Hi.
        split; [apply in_app_iff; right; now left |]. now repeat split.
    + intros (nt' & lo' & hi' & Hin & Hlo' & Hhi' & Hi).
      apply in_app_iff in Hin. destruct Hin as [Hin | [-> | []]].
      * left. now exists nt', lo', hi'.
      * right. apply in_py_range. rewrite Hlo in Hlo'. rewrite Hhi in Hhi'.
        injection Hlo' as <-. injection Hhi' as <-. exact Hi.
  - eapply processed_ext; [| apply processed_start; exact HN].
    intros i. unfold P. split; [intros [] | intros (nt & lo & hi & [] & _)].
Qed.

(** ** Independence of the particles *)

Lemma gathered_at_agree (g : mode_gather) (s1 s1' s2 s2' : gather_state) (k : nat) :
  same_grids s1 s2 -> position_at s1 k = position_at s2 k ->
  gathered_at g s1 s1' k -> gathered_at g s2 s2' k ->
  outputs_at s1' k = outputs_at s2' k.
Proof.
  intros Hgrids Hpos
    (x1 & y1 & z1 & ex1 & ey1 & ez1 & bx1 & by1 & bz1 & Hp1 & Hf1 & Ho1)
    (x2 & y2 & z2 & ex2 & ey2 & ez2 & bx2 & by2 & bz2 & Hp2 & Hf2 & Ho2).
  rewrite Hpos, Hp2 in Hp1. injection Hp1 as -> -> ->.
  rewrite (fields_at_same_grids g s1 s2) in Hf2 by assumption.
  rewrite Hf1 in Hf2. injection Hf2 as <- <- <- <- <- <-.
  now rewrite Ho1, Ho2.
Qed.

(** C9.  Two successful runs of a field gather kernel (linear, or cubic
    with any number of threads and any chunk boundaries) on equal grid
    arrays and on batches of any sizes write equal outputs at every slot
    that both runs process and where the position is the same in both.  A
    run leaves the position arrays and the grid arrays as they were, and
    writes no output slot other than those of the particles it
    processes. *)
Theorem gather_depends_on_own_particle (H : InlineFunctions)
  (invdz zmin : R) (Nz : Z) (invdr rmin : R) (Nr : Z) :
  (forall (N1 N2 : nat) (s1 s1' s2 s2' : gather_state),
     batch_of N1 s1 -> batch_of N2 s2 -> same_grids s1 s2 ->
     gather_field_numba_linear H invdz zmin Nz invdr rmin Nr s1 = (s1', Ok tt) ->
     gather_field_numba_linear H invdz zmin Nz invdr rmin Nr s2 = (s2', Ok tt) ->
     same_inputs s1 s1' /\ same_inputs s2 s2' /\
     batch_of N1 s1' /\ batch_of N2 s2' /\
     (forall k, (k < N1)%nat -> (k < N2)%nat ->
        position_at s1 k = position_at s2 k ->
        outputs_at s1' k = outputs_at s2' k)) /\
  (forall (N1 N2 : nat) (nthreads1 nthreads2 : Z) (chunks1 chunks2 : list Z)
          (s1 s1' s2 s2' : gather_state),
     batch_of N1 s1 -> batch_of N2 s2 -> same_grids s1 s2 ->
     gather_field_numba_cubic H invdz zmin Nz invdr rmin Nr nthreads1 chunks1 s1
       = (s1', Ok tt) ->
     gather_field_numba_cubic H invdz zmin Nz invdr rmin Nr nthreads2 chunks2 s2
       = (s2', Ok tt) ->
     same_inputs s1 s1' /\ same_inputs s2 s2' /\
     batch_of N1 s1' /\ batch_of N2 s2' /\
     (forall k,
        (exists i, in_chunks nthreads1 chunks1 i /\ py_norm_index N1 i = Some k) ->
        (exists i, in_chunks nthreads2 chunks2 i /\ py_norm_index N2 i = Some k) ->
        position_at s1 k = position_at s2 k ->
        outputs_at s1' k = outputs_at s2' k) /\
     (forall k,
        (forall i, in_chunks nthreads1 chunks1 i -> py_norm_index N1 i <> Some k) ->
        outputs_at s1' k = outputs_at s1 k)).
Proof.
  split.
  - intros N1 N2 s1 s1' s2 s2' HN1 HN2 Hgrids Hrun1 Hrun2.
    destruct (linear_kernel_processed _ _ _ _ _ _ _ _ _ _ HN1 Hrun1)
      as (Hin1 & HN1' & Hg1 & _).
    destruct (linear_kernel_processed _ _ _ _ _ _ _ _ _ _ HN2 Hrun2)
      as (Hin2 & HN2' & Hg2 & _).
    repeat (split; [assumption |]).
    intros k Hk1 Hk2 Hpos.
    apply (gathered_at_agree (linear_mode_gather H invdz zmin Nz invdr rmin Nr)
             s1 s1' s2 s2'); try assumption.
    + apply Hg1. exists (Z.of_nat k). split; [lia | now apply py_norm_index_nat].
    + apply Hg2. exists (Z.of_nat k). split; [lia | now apply py_norm_index_nat].
  - intros N1 N2 nthreads1 nthreads2 chunks1 chunks2 s1 s1' s2 s2'
      HN1 HN2 Hgrids Hrun1 Hrun2.
    destruct (cubic_kernel_processed _ _ _ _ _ _ _ _ _ _ _ _ HN1 Hrun1)
      as (Hin1 & HN1' & Hg1 & Hu1).
    destruct (cubic_kernel_processed _ _ _ _ _ _ _ _ _ _ _ _ HN2 Hrun2)
      as (Hin2 & HN2' & Hg2 & _).
    repeat (split; [assumption |]). split.
    + intros k Hk1 Hk2 Hpos.
      apply (gathered_at_agree (cubic_mode_gather H invdz zmin Nz invdr rmin Nr)
               s1 s1' s2 s2'); try assumption.
      * now apply Hg1.
      * now apply Hg2.
    + exact Hu1.
Qed.

(** ** Gathering a uniform field *)

Lemma py_norm_index_Z (len : nat) (i : Z) :
  (0 <= i < Z.of_nat len)%Z -> py_norm_index len i = Some (Z.to_nat i).
Proof.
  intros Hi. unfold py_norm_index.
  destruct (Z.leb_spec 0 i); [| lia].
  destruct (Z.ltb_spec i (Z.of_nat len)); [reflexivity | lia].
Qed.

Lemma get2_in_range (G : ndarray2) (n0 n1 i j : Z) :
  has_shape G n0 n1 -> (0 <= i < n0)%Z -> (0 <= j < n1)%Z ->
  exists v, get2 G i j = Ok v /\ (forall c, uniform G c -> v = c).
Proof.
  intros (H0 & H1) Hi Hj.
  exists (data G (Z.to_nat i) (Z.to_nat j)). split.
  - unfold get2. rewrite !py_norm_index_Z by lia. reflexivity.
  - intros c Hc. apply Hc; lia.
Qed.

(** The six products of the linear stencil add up to 1, at every
    position. *)
Lemma linear_weights_sum (invdz zmin : R) (Nz : Z) (invdr rmin : R) (Nr : Z)
  (rj zj : R) :
  let st := linear_shape invdz zmin Nz invdr rmin Nr rj zj in
  S_ll st + S_lu st + S_ul st + S_uu st + (S_lg st + S_ug st) = 1.
Proof.
  cbv zeta. unfold S_ll, S_lu, S_ul, S_uu, S_lg, S_ug, linear_shape.
  destruct (Z.ltb_spec (Int_part (invdr * (rj - rmin) - 0.5)) 0);
    stencil_fields; rewrite !plus_IZR; ring.
Qed.

Lemma guard_sign_0 : inline_functions.guard_sign 0 = 1.
Proof. reflexivity. Qed.

Lemma linear_interp_uniform (m : Z) (G : ndarray2) (Nz Nr : Z) (st : linear_stencil) :
  has_shape G Nz Nr ->
  (0 <= ir_lower st <= Nr - 1)%Z -> (0 <= ir_upper st <= Nr - 1)%Z ->
  (0 <= iz_lower st <= Nz - 1)%Z -> (0 <= iz_upper st <= Nz - 1)%Z ->
  S_ll st + S_lu st + S_ul st + S_uu st + (S_lg st + S_ug st) = 1 ->
  exists v,
    inline_functions.linear_interp m G (iz_lower st) (iz_upper st)
      (ir_lower st) (ir_upper st)
      (S_ll st) (S_lu st) (S_lg st) (S_ul st) (S_uu st) (S_ug st) = Ok v /\
    (forall c, uniform G c -> m = 0%Z \/ c = C0 -> v = c).
Proof.
  intros HG Hrl Hru Hzl Hzu Hsum.
  destruct (get2_in_range G Nz Nr (iz_lower st) (ir_lower st) HG) as (v1 & E1 & U1); try lia.
  destruct (get2_in_range G Nz Nr (iz_lower st) (ir_upper st) HG) as (v2 & E2 & U2); try lia.
  destruct (get2_in_range G Nz Nr (iz_upper st) (ir_lower st) HG) as (v3 & E3 & U3); try lia.
  destruct (get2_in_range G Nz Nr (iz_upper st) (ir_upper st) HG) as (v4 & E4 & U4); try lia.
  destruct (get2_in_range G Nz Nr (iz_lower st) 0 HG) as (v5 & E5 & U5); try lia.
  destruct (get2_in_range G Nz Nr (iz_upper st) 0 HG) as (v6 & E6 & U6); try lia.
  eexists. split.
  - unfold inline_functions.linear_interp. rewrite E1, E2, E3, E4, E5, E6.
    cbn [rbind]. reflexivity.
  - intros [cr ci] Hc Hm.
    rewrite (U1 _ Hc), (U2 _ Hc), (U3 _ Hc), (U4 _ Hc), (U5 _ Hc), (U6 _ Hc).
    unfold Cadd, Cscale. cbn [fst snd].
    destruct Hm as [-> | Hzero].
    + rewrite guard_sign_0. f_equal.
      * transitivity ((S_ll st + S_lu st + S_ul st + S_uu st + (S_lg st + S_ug st)) * cr);
          [ring | rewrite Hsum; ring].
      * transitivity ((S_ll st + S_lu st + S_ul st + S_uu st + (S_lg st + S_ug st)) * ci);
          [ring | rewrite Hsum; ring].
    + unfold C0 in Hzero. injection Hzero as -> ->. f_equal; ring.
Qed.

(** The linear accumulation modelled from the specification reproduces
    constants at every radial position, the axis included, for a particle
    inside the box along z. *)
Lemma linear_reproduces_constants (invdz zmin : R) (Nz : Z) (invdr rmin : R) (Nr : Z)
  (rj zj : R) :
  (2 <= Nz)%Z -> (1 <= Nr)%Z ->
  0 <= invdz * (zj - zmin) <= IZR Nz ->
  0 <= invdr * (rj - rmin) ->
  reproduces_constants
    (linear_mode_gather inline_functions.functions invdz zmin Nz invdr rmin Nr)
    Nz Nr rj zj.
Proof.
  intros HNz HNr Hz Hr m Fr Ft Fz e G1 G2 G3 HG1 HG2 HG3.
  pose proof (linear_shape_indices invdz zmin Nz invdr rmin Nr rj zj HNr HNz)
    as Hidx.
  cbv zeta in Hidx. destruct Hidx as (Hrl & Hru & Hzl & Hzu); [lra | lra |].
  pose proof (linear_weights_sum invdz zmin Nz invdr rmin Nr rj zj) as Hsum.
  cbv zeta in Hsum.
  set (st := linear_shape invdz zmin Nz invdr rmin Nr rj zj) in *.
  destruct (linear_interp_uniform m G1 Nz Nr st HG1 Hrl Hru Hzl Hzu Hsum) as (v1 & E1 & U1).
  destruct (linear_interp_uniform m G2 Nz Nr st HG2 Hrl Hru Hzl Hzu Hsum) as (v2 & E2 & U2).
  destruct (linear_interp_uniform m G3 Nz Nr st HG3 Hrl Hru Hzl Hzu Hsum) as (v3 & E3 & U3).
  exists v1, v2, v3. split; [| now repeat split].
  unfold linear_mode_gather. cbv zeta. fold st.
  cbn [add_linear_gather_for_mode inline_functions.functions].
  unfold inline_functions.add_linear_gather_for_mode.
  rewrite E1, E2, E3. reflexivity.
Qed.

Lemma fields_at_reproduces (g : mode_gather) (Nz Nr : Z) (s : gather_state)
  (xj yj zj rj cos sin : R) :
  cylindrical xj yj = (rj, cos, sin) ->
  reproduces_constants g Nz Nr rj zj ->
  grids_shaped Nz Nr s -> mode1_zero s ->
  exists (vEr vEt vEz vBr vBt vBz : complex) (ex ey ez bx by_ bz : R),
    fields_at g s xj yj zj = Ok (ex, ey, ez, bx, by_, bz) /\
    ex = cos * Cre vEr - sin * Cre vEt /\
    ey = sin * Cre vEr + cos * Cre vEt /\
    ez = Cre vEz /\
    bx = cos * Cre vBr - sin * Cre vBt /\
    by_ = sin * Cre vBr + cos * Cre vBt /\
    bz = Cre vBz /\
    (forall c, uniform (Er_m0 s) c -> vEr = c) /\
    (forall c, uniform (Et_m0 s) c -> vEt = c) /\
    (forall c, uniform (Ez_m0 s) c -> vEz = c) /\
    (forall c, uniform (Br_m0 s) c -> vBr = c) /\
    (forall c, uniform (Bt_m0 s) c -> vBt = c) /\
    (forall c, uniform (Bz_m0 s) c -> vBz = c).
Proof.
  intros Hcyl Hg (S1 & S2 & S3 & S4 & S5 & S6 & S7 & S8 & S9 & S10 & S11 & S12)
    (Z1 & Z2 & Z3 & Z4 & Z5 & Z6).
  unfold fields_at. rewrite Hcyl.
  destruct (Hg 0%Z 0 0 0 (RtoC 1) _ _ _ S1 S2 S3) as (vEr & vEt & vEz & E0 & UEr & UEt & UEz).
  rewrite E0. cbn [rbind].
  destruct (Hg 1%Z (0 + Cre (Cmul vEr (RtoC 1))) (0 + Cre (Cmul vEt (RtoC 1)))
              (0 + Cre (Cmul vEz (RtoC 1))) (cos, - sin) _ _ _ S4 S5 S6)
    as (w1 & w2 & w3 & E1 & W1 & W2 & W3).
  rewrite E1. cbn [rbind].
  rewrite (W1 C0 Z1 (or_intror eq_refl)), (W2 C0 Z2 (or_intror eq_refl)),
    (W3 C0 Z3 (or_intror eq_refl)).
  destruct (Hg 0%Z 0 0 0 (RtoC 1) _ _ _ S7 S8 S9) as (vBr & vBt & vBz & E2 & UBr & UBt & UBz).
  rewrite E2. cbn [rbind].
  destruct (Hg 1%Z (0 + Cre (Cmul vBr (RtoC 1))) (0 + Cre (Cmul vBt (RtoC 1)))
              (0 + Cre (Cmul vBz (RtoC 1))) (cos, - sin) _ _ _ S10 S11 S12)
    as (u1 & u2 & u3 & E3 & V1 & V2 & V3).
  rewrite E3. cbn [rbind].
  rewrite (V1 C0 Z4 (or_intror eq_refl)), (V2 C0 Z5 (or_intror eq_refl)),
    (V3 C0 Z6 (or_intror eq_refl)).
  exists vEr, vEt, vEz, vBr, vBt, vBz.
  do 6 eexists. split; [reflexivity |].
  unfold Cre, Cmul, RtoC, C0. cbn [fst snd].
  repeat split; try ring; intros c Hc; eauto.
Qed.

Lemma py_index_Z {A : Type} (l : list A) (i : Z) (d : A) :
  (0 <= i < Z.of_nat (length l))%Z -> py_index l i = Ok (nth (Z.to_nat i) l d).
Proof.
  intros Hi. unfold py_index. rewrite py_norm_index_Z by assumption.
  assert (Hk : (Z.to_nat i < length l)%nat) by lia.
  now rewrite (nth_error_nth' l d Hk).
Qed.

Lemma cubic_points_bounds (kr kz : Z) :
  In (kr, kz) inline_functions.cubic_points -> (0 <= kr <= 3)%Z /\ (0 <= kz <= 3)%Z.
Proof.
  unfold inline_functions.cubic_points. rewrite in_prod_iff. cbn. lia.
Qed.

Lemma cubic_weights_sum (ur uz : R) :
  Rsum (map (inline_functions.point_weight (cubic_weights ur) (cubic_weights uz))
          inline_functions.cubic_points) = 1.
Proof.
  cbv [inline_functions.cubic_points list_prod map app inline_functions.point_weight fst snd
       Z.to_nat Pos.to_nat Pos.iter_op Nat.add nth cubic_weights Rsum fold_right].
  unfold S0, S1, S2, S3. field.
Qed.

Lemma cubic_point_uniform (G : ndarray2) (Nz Nr ir_lowest iz_lowest : Z)
  (ur uz : R) (kl : Z * Z) :
  has_shape G Nz Nr -> (2 <= Nz)%Z -> (1 <= Nr)%Z ->
  (-2 <= iz_lowest <= Nz - 2)%Z ->
  In kl inline_functions.cubic_points ->
  exists v,
    inline_functions.cubic_point G ir_lowest iz_lowest
      (cubic_weights ur) (cubic_weights uz) Nr Nz kl =
    Ok (Cscale (inline_functions.point_weight (cubic_weights ur) (cubic_weights uz) kl) v) /\
    (forall c, uniform G c -> v = c).
Proof.
  intros HG HNz HNr Hiz Hin. destruct kl as [kr kz].
  apply cubic_points_bounds in Hin. destruct Hin as (Hkr & Hkz).
  unfold inline_functions.cubic_point, inline_functions.point_weight. cbn [fst snd].
  rewrite (py_index_Z (cubic_weights ur) kr 0) by (cbn; lia).
  rewrite (py_index_Z (cubic_weights uz) kz 0) by (cbn; lia).
  cbn [rbind].
  rewrite !Z.gtb_ltb.
  set (ir0 := if (ir_lowest + kr <? 0)%Z then 0%Z else (ir_lowest + kr)%Z).
  set (ir := if (Nr - 1 <? ir0)%Z then (Nr - 1)%Z else ir0).
  set (iz0 := if (iz_lowest + kz <? 0)%Z then (iz_lowest + kz + Nz)%Z
              else (iz_lowest + kz)%Z).
  set (iz := if (Nz - 1 <? iz0)%Z then (iz0 - Nz)%Z else iz0).
  assert (Hir' : (0 <= ir < Nr)%Z).
  { unfold ir, ir0.
    destruct (Z.ltb_spec (ir_lowest + kr) 0);
      match goal with |- context [(?a <? ?b)%Z] => destruct (Z.ltb_spec a b) end; lia. }
  assert (Hiz' : (0 <= iz < Nz)%Z).
  { unfold iz, iz0.
    destruct (Z.ltb_spec (iz_lowest + kz) 0);
      match goal with |- context [(?a <? ?b)%Z] => destruct (Z.ltb_spec a b) end; lia. }
  destruct (get2_in_range G Nz Nr iz ir HG Hiz' Hir') as (v & Ev & Uv).
  exists v. rewrite Ev. cbn [rbind]. now split.
Qed.

Lemma fold_points_uniform (G : ndarray2) (point : Z * Z -> result complex)
  (w : Z * Z -> R) (pts : list (Z * Z)) :
  (forall kl, In kl pts ->
     exists v, point kl = Ok (Cscale (w kl) v) /\ (forall c, uniform G c -> v = c)) ->
  forall acc0, exists V,
    fold_result pts (fun kl acc => (v <- point kl ;; Ok (Cadd acc v))%result) acc0 = Ok V /\
    (forall c, uniform G c -> V = Cadd acc0 (Cscale (Rsum (map w pts)) c)).
Proof.
  induction pts as [| kl t IH]; intros Hpts acc0.
  - exists acc0. split; [reflexivity |].
    intros [cr ci] _. destruct acc0 as [ar ai].
    unfold Cadd, Cscale, Rsum. cbn. f_equal; ring.
  - destruct (Hpts kl (or_introl eq_refl)) as (v & Ev & Uv).
    destruct (IH (fun kl' Hkl' => Hpts kl' (or_intror Hkl')) (Cadd acc0 (Cscale (w kl) v)))
      as (V & EV & UV).
    exists V. split.
    + cbn [fold_result]. rewrite Ev. cbn [rbind]. exact EV.
    + intros c Hc. rewrite (UV c Hc), (Uv c Hc).
      destruct c as [cr ci], acc0 as [ar ai].
      unfold Cadd, Cscale, Rsum. cbn. f_equal; ring.
Qed.

Lemma cubic_interp_uniform (G : ndarray2) (Nz Nr ir_lowest iz_lowest : Z)
  (ur uz : R) :
  has_shape G Nz Nr -> (2 <= Nz)%Z -> (1 <= Nr)%Z ->
  (-2 <= iz_lowest <= Nz - 2)%Z ->
  exists v,
    inline_functions.cubic_interp G ir_lowest iz_lowest
      (cubic_weights ur) (cubic_weights uz) Nr Nz = Ok v /\
    (forall c, uniform G c -> v = c).
Proof.
  intros HG HNz HNr Hiz.
  destruct (fold_points_uniform G
              (inline_functions.cubic_point G ir_lowest iz_lowest
                 (cubic_weights ur) (cubic_weights uz) Nr Nz)
              (inline_functions.point_weight (cubic_weights ur) (cubic_weights uz))
              inline_functions.cubic_points) with (acc0 := C0) as (V & EV & UV).
  { intros kl Hkl. now apply cubic_point_uniform. }
  exists V. split; [exact EV |].
  intros [cr ci] Hc. rewrite (UV _ Hc), cubic_weights_sum.
  unfold Cadd, Cscale, C0. cbn. f_equal; ring.
Qed.

Lemma cubic_reproduces_constants (invdz zmin : R) (Nz : Z) (invdr rmin : R) (Nr : Z)
  (rj zj : R) :
  (2 <= Nz)%Z -> (1 <= Nr)%Z ->
  0 <= invdz * (zj - zmin) <= IZR Nz ->
  reproduces_constants
    (cubic_mode_gather inline_functions.functions invdz zmin Nz invdr rmin Nr)
    Nz Nr rj zj.
Proof.
  intros HNz HNr Hz m Fr Ft Fz e G1 G2 G3 HG1 HG2 HG3.
  assert (Hiz : (-2 <= Int_part (invdz * (zj - zmin) - 0.5) - 1 <= Nz - 2)%Z).
  { assert ((-1 <= Int_part (invdz * (zj - zmin) - 0.5))%Z) by (apply Int_part_ge; lra).
    assert ((Int_part (invdz * (zj - zmin) - 0.5) < Nz)%Z) by (apply Int_part_lt; lra).
    lia. }
  unfold cubic_mode_gather, cubic_shape. cbv zeta.
  cbn [ir_lowest iz_lowest Sr Sz add_cubic_gather_for_mode inline_functions.functions].
  unfold inline_functions.add_cubic_gather_for_mode.
  destruct (cubic_interp_uniform G1 Nz Nr
              (Int_part (invdr * (rj - rmin) - 0.5) - 1) _
              (invdr * (rj - rmin) - 0.5 - IZR (Int_part (invdr * (rj - rmin) - 0.5) - 1))
              (invdz * (zj - zmin) - 0.5 - IZR (Int_part (invdz * (zj - zmin) - 0.5) - 1))
              HG1 HNz HNr Hiz) as (v1 & E1 & U1).
  destruct (cubic_interp_uniform G2 Nz Nr
              (Int_part (invdr * (rj - rmin) - 0.5) - 1) _
              (invdr * (rj - rmin) - 0.5 - IZR (Int_part (invdr * (rj - rmin) - 0.5) - 1))
              (invdz * (zj - zmin) - 0.5 - IZR (Int_part (invdz * (zj - zmin) - 0.5) - 1))
              HG2 HNz HNr Hiz) as (v2 & E2 & U2).
  destruct (cubic_interp_uniform G3 Nz Nr
              (Int_part (invdr * (rj - rmin) - 0.5) - 1) _
              (invdr * (rj - rmin) - 0.5 - IZR (Int_part (invdr * (rj - rmin) - 0.5) - 1))
              (invdz * (zj - zmin) - 0.5 - IZR (Int_part (invdz * (zj - zmin) - 0.5) - 1))
              HG3 HNz HNr Hiz) as (v3 & E3 & U3).
  exists v1, v2, v3. split; [| repeat split; intros c Hc _; auto].
  rewrite E1, E2, E3. reflexivity.
Qed.


Lemma cylindrical_radius (xj yj rj cos sin : R) :
  cylindrical xj yj = (rj, cos, sin) -> rj = sqrt (xj ^ 2 + yj ^ 2).
Proof.
  unfold cylindrical.
  destruct (Req_dec_T (sqrt (xj ^ 2 + yj ^ 2)) 0); intros [= <- _ _]; reflexivity.
Qed.

Lemma position_at_exists (N : nat) (s : gather_state) (k : nat) :
  batch_of N s -> (k < N)%nat ->
  exists xj yj zj, position_at s k = (Some xj, Some yj, Some zj).
Proof.
  intros (Lx & Ly & Lz & _) Hk. unfold position_at.
  destruct (nth_error (x s) k) as [xj |] eqn:Ex;
    [| apply nth_error_None in Ex; lia].
  destruct (nth_error (y s) k) as [yj |] eqn:Ey;
    [| apply nth_error_None in Ey; lia].
  destruct (nth_error (z s) k) as [zj |] eqn:Ez;
    [| apply nth_error_None in Ez; lia].
  now exists xj, yj, zj.
Qed.

(** The loop over a list of slots succeeds when the accumulations succeed
    at every position of the batch. *)
Lemma gather_loop_runs (g : mode_gather) (N : nat) (s0 : gather_state) (l : list Z) :
  (forall i, In i l -> (0 <= i < Z.of_nat N)%Z) ->
  (forall k xj yj zj, position_at s0 k = (Some xj, Some yj, Some zj) ->
     exists out, fields_at g s0 xj yj zj = Ok out) ->
  forall s, same_inputs s0 s /\ batch_of N s ->
    exists s', for_each l (gather_particle g) s = (s', Ok tt) /\
               (same_inputs s0 s' /\ batch_of N s').
Proof.
  intros Hl Hf. apply for_each_run.
  intros i s Hi (Hin & HN).
  specialize (Hl i Hi).
  destruct (position_at_exists N s (Z.to_nat i) HN) as (xj & yj & zj & Hpos); [lia |].
  assert (Hpos0 : position_at s0 (Z.to_nat i) = (Some xj, Some yj, Some zj)).
  { now rewrite <- (same_inputs_position s0 s _ Hin). }
  destruct (Hf _ _ _ _ Hpos0) as ([[[[[ex ey] ez] bx] by_] bz] & Hout).
  rewrite <- (fields_at_same_grids g s0 s) in Hout by now apply same_inputs_grids.
  pose proof (gather_particle_run g (Z.to_nat i) N s xj yj zj ex ey ez bx by_ bz
                HN Hpos Hout) as Hrun.
  rewrite Z2Nat.id in Hrun by lia.
  eexists. split; [exact Hrun |].
  split; [now apply same_inputs_with_outputs | now apply batch_of_written].
Qed.

Lemma linear_kernel_runs (H : InlineFunctions)
  (invdz zmin : R) (Nz : Z) (invdr rmin : R) (Nr : Z) (N : nat) (s : gather_state) :
  batch_of N s ->
  (forall k xj yj zj, position_at s k = (Some xj, Some yj, Some zj) ->
     exists out,
       fields_at (linear_mode_gather H invdz zmin Nz invdr rmin Nr) s xj yj zj = Ok out) ->
  exists s', gather_field_numba_linear H invdz zmin Nz invdr rmin Nr s = (s', Ok tt).
Proof.
  intros HN Hf. unfold gather_field_numba_linear.
  assert (Lx : length (x s) = N) by apply HN. rewrite Lx.
  destruct (gather_loop_runs (linear_mode_gather H invdz zmin Nz invdr rmin Nr) N s
              (py_range 0 (Z.of_nat N))) with (s := s) as (s' & Hrun & _).
  - intros i Hi. apply in_py_range in Hi. lia.
  - exact Hf.
  - split; [apply same_inputs_refl | exact HN].
  - now exists s'.
Qed.


(** ** Uniform fields *)

Lemma processed_uniform (g : mode_gather) (N : nat) (Nz Nr : Z)
  (s s' : gather_state) (P : Z -> Prop) (k : nat) :
  processed g N s P s' ->
  (exists i, P i /\ py_norm_index N i = Some k) ->
  grids_shaped Nz Nr s -> mode1_zero s ->
  (forall xj yj zj, position_at s k = (Some xj, Some yj, Some zj) ->
     reproduces_constants g Nz Nr (sqrt (xj ^ 2 + yj ^ 2)) zj) ->
  uniform_fields_gathered s s' k.
Proof.
  intros (_ & _ & Hg & _) Hk Hshape Hzero Hrep.
  destruct (Hg k Hk) as (xj & yj & zj & ex & ey & ez & bx & by_ & bz & Hpos & Hf & Hout).
  destruct (cylindrical xj yj) as [[rj cos] sin] eqn:Hcyl.
  specialize (Hrep _ _ _ Hpos).
  rewrite <- (cylindrical_radius _ _ _ _ _ Hcyl) in Hrep.
  destruct (fields_at_reproduces g Nz Nr s xj yj zj rj cos sin Hcyl Hrep Hshape Hzero)
    as (vEr & vEt & vEz & vBr & vBt & vBz & ex' & ey' & ez' & bx' & by' & bz' &
        Hf' & Eex & Eey & Eez & Ebx & Eby & Ebz & UEr & UEt & UEz & UBr & UBt & UBz).
  rewrite Hf in Hf'. injection Hf' as <- <- <- <- <- <-.
  unfold outputs_at in Hout. injection Hout as HEx HEy HEz HBx HBy HBz.
  exists xj, yj, zj, rj, cos, sin.
  split; [exact Hpos |]. split; [exact Hcyl |].
  assert (HC0 : Cre C0 = 0) by reflexivity.
  split; [intros c Hc; rewrite HEz, Eez, (UEz c Hc); reflexivity |].
  split; [intros c Hc; rewrite HBz, Ebz, (UBz c Hc); reflexivity |].
  split; [intros c Hc Hz; rewrite HEx, HEy, Eex, Eey, (UEr c Hc), (UEt C0 Hz), HC0;
          split; f_equal; ring |].
  split; [intros c Hc Hz; rewrite HEx, HEy, Eex, Eey, (UEt c Hc), (UEr C0 Hz), HC0;
          split; f_equal; ring |].
  split; [intros c Hc Hz; rewrite HBx, HBy, Ebx, Eby, (UBr c Hc), (UBt C0 Hz), HC0;
          split; f_equal; ring |].
  intros c Hc Hz; rewrite HBx, HBy, Ebx, Eby, (UBt c Hc), (UBr C0 Hz), HC0;
    split; f_equal; ring.
Qed.

Lemma reproduces_succeeds (g : mode_gather) (Nz Nr : Z) (s : gather_state)
  (xj yj zj : R) :
  reproduces_constants g Nz Nr (sqrt (xj ^ 2 + yj ^ 2)) zj ->
  grids_shaped Nz Nr s -> mode1_zero s ->
  exists out, fields_at g s xj yj zj = Ok out.
Proof.
  intros Hrep Hshape Hzero.
  destruct (cylindrical xj yj) as [[rj cos] sin] eqn:Hcyl.
  rewrite <- (cylindrical_radius _ _ _ _ _ Hcyl) in Hrep.
  destruct (fields_at_reproduces g Nz Nr s xj yj zj rj cos sin Hcyl Hrep Hshape Hzero)
    as (_ & _ & _ & _ & _ & _ & ex & ey & ez & bx & by_ & bz & Hf & _).
  eexists. exact Hf.
Qed.

(** The linear kernel on a uniform grid, for inline functions whose
    accumulation reproduces constants at the positions of the batch. *)
Lemma linear_kernel_reproduces (H : InlineFunctions)
  (invdz zmin : R) (Nz : Z) (invdr rmin : R) (Nr : Z)
  (N : nat) (s : gather_state) :
  batch_of N s -> grids_shaped Nz Nr s -> mode1_zero s ->
  reproduces_at_batch (linear_mode_gather H invdz zmin Nz invdr rmin Nr) Nz Nr s ->
  exists s',
    gather_field_numba_linear H invdz zmin Nz invdr rmin Nr s = (s', Ok tt) /\
    (forall k, (k < N)%nat -> uniform_fields_gathered s s' k).
Proof.
  intros HN Hshape Hzero Hrep.
  destruct (linear_kernel_runs H invdz zmin Nz invdr rmin Nr N s HN) as (s' & Hrun).
  { intros k xj yj zj Hpos. eapply reproduces_succeeds; eauto. }
  exists s'. split; [exact Hrun |].
  intros k Hk.
  apply (processed_uniform (linear_mode_gather H invdz zmin Nz invdr rmin Nr)
           N Nz Nr s s' (fun i => (0 <= i < Z.of_nat N)%Z));
    try assumption.
  - now apply linear_kernel_processed.
  - exists (Z.of_nat k). split; [lia | now apply py_norm_index_nat].
  - intros xj yj zj Hpos. now apply (Hrep k).
Qed.



(** Inside the box along z, the inline functions modelled from the
    specification reproduce constants at every particle of the batch. *)
Lemma inside_box_reproduces (invdz zmin : R) (Nz : Z) (invdr rmin : R) (Nr : Z)
  (N : nat) (s : gather_state) :
  (2 <= Nz)%Z -> (1 <= Nr)%Z -> batch_of N s ->
  (forall k, (k < N)%nat -> inside_box invdz zmin Nz invdr rmin s k) ->
  reproduces_at_batch
    (linear_mode_gather inline_functions.functions invdz zmin Nz invdr rmin Nr)
    Nz Nr s /\
  reproduces_at_batch
    (cubic_mode_gather inline_functions.functions invdz zmin Nz invdr rmin Nr)
    Nz Nr s.
Proof.
  intros HNz HNr HN Hbox.
  assert (Hin : forall k xj yj zj,
            position_at s k = (Some xj, Some yj, Some zj) ->
            0 <= invdz * (zj - zmin) <= IZR Nz /\
            0 <= invdr * (sqrt (xj ^ 2 + yj ^ 2) - rmin)).
  { intros k xj yj zj Hpos. apply (Hbox k); [| exact Hpos].
    destruct HN as (Lx & _). rewrite <- Lx. apply nth_error_Some.
    unfold position_at in Hpos. congruence. }
  split; intros k xj yj zj Hpos; destruct (Hin k xj yj zj Hpos) as (Hz & Hr).
  - now apply linear_reproduces_constants.
  - now apply cubic_reproduces_constants.
Qed.

(** The linear kernel with the inline functions modelled from the
    specification, for particles inside the box. *)
Lemma linear_kernel_uniform (invdz zmin : R) (Nz : Z) (invdr rmin : R) (Nr : Z)
  (N : nat) (s : gather_state) :
  (2 <= Nz)%Z -> (1 <= Nr)%Z ->
  batch_of N s -> grids_shaped Nz Nr s -> mode1_zero s ->
  (forall k, (k < N)%nat -> inside_box invdz zmin Nz invdr rmin s k) ->
  exists s',
    gather_field_numba_linear inline_functions.functions invdz zmin Nz invdr rmin Nr s
      = (s', Ok tt) /\
    (forall k, (k < N)%nat -> uniform_fields_gathered s s' k).
Proof.
  intros HNz HNr HN Hshape Hzero Hbox.
  apply linear_kernel_reproduces; try assumption.
  now apply (inside_box_reproduces invdz zmin Nz invdr rmin Nr N s).
Qed.


(** ** The sample call *)

Lemma sqrt_unit_x : sqrt (1 ^ 2 + 0 ^ 2) = 1.
Proof. replace (1 ^ 2 + 0 ^ 2) with 1 by ring. apply sqrt_1. Qed.

Lemma sqrt_unit_y : sqrt (0 ^ 2 + 1 ^ 2) = 1.
Proof. replace (0 ^ 2 + 1 ^ 2) with 1 by ring. apply sqrt_1. Qed.

Lemma cylindrical_x_axis : cylindrical 1 0 = (1, 1, 0).
Proof.
  unfold cylindrical. rewrite sqrt_unit_x.
  destruct (Req_dec_T 1 0) as [E | _]; [lra |].
  f_equal; [f_equal |]; field.
Qed.

Lemma cylindrical_y_axis : cylindrical 0 1 = (1, 0, 1).
Proof.
  unfold cylindrical. rewrite sqrt_unit_y.
  destruct (Req_dec_T 1 0) as [E | _]; [lra |].
  f_equal; [f_equal |]; field.
Qed.

Lemma sample_state_batch (xs ys zs : list R) :
  length ys = length xs -> length zs = length xs ->
  batch_of (length xs) (sample_state xs ys zs).
Proof.
  intros Hy Hz. unfold batch_of, sample_state. cbn. rewrite !length_map. tauto.
Qed.

Lemma sample_state_shaped (xs ys zs : list R) :
  grids_shaped 2 2 (sample_state xs ys zs).
Proof. unfold grids_shaped, has_shape, sample_state. cbn. tauto. Qed.

Lemma sample_state_mode1_zero (xs ys zs : list R) :
  mode1_zero (sample_state xs ys zs).
Proof. unfold mode1_zero, all_zero, uniform, sample_state. cbn. tauto. Qed.


Lemma sqrt_axis : sqrt (0 ^ 2 + 0 ^ 2) = 0.
Proof. replace (0 ^ 2 + 0 ^ 2) with 0 by ring. apply sqrt_0. Qed.

(** The fields gathered on the sample grid at a position inside the box:
    the radial field, which is 1, rotated by the angle of the particle. *)
Lemma sample_fields_at (xs ys zs : list R) (xj yj zj rj cos sin : R) :
  cylindrical xj yj = (rj, cos, sin) -> 0 <= zj <= 2 ->
  fields_at (linear_mode_gather inline_functions.functions 1 0 2 1 0 2)
    (sample_state xs ys zs) xj yj zj = Ok (cos, sin, 0, 0, 0, 0).
Proof.
  intros Hcyl Hz.
  assert (Hrep : reproduces_constants
            (linear_mode_gather inline_functions.functions 1 0 2 1 0 2) 2 2 rj zj).
  { apply linear_reproduces_constants; try lia.
    - simpl IZR. lra.
    - rewrite (cylindrical_radius _ _ _ _ _ Hcyl).
      pose proof (sqrt_pos (xj ^ 2 + yj ^ 2)). lra. }
  destruct (fields_at_reproduces _ 2 2 (sample_state xs ys zs) xj yj zj rj cos sin
              Hcyl Hrep (sample_state_shaped _ _ _) (sample_state_mode1_zero _ _ _))
    as (vEr & vEt & vEz & vBr & vBt & vBz & ex & ey & ez & bx & by_ & bz &
        Hf & -> & -> & -> & -> & -> & -> & UEr & UEt & UEz & UBr & UBt & UBz).
  rewrite Hf.
  assert (Z0 : uniform (np_full 2 2 C0) C0) by (intros i j _ _; reflexivity).
  rewrite (UEr C1), (UEt C0 Z0), (UEz C0 Z0), (UBr C0 Z0), (UBt C0 Z0), (UBz C0 Z0)
    by (intros i j _ _; reflexivity).
  unfold Cre, C1, C0. cbn [fst]. do 6 f_equal; ring.
Qed.



(** Two runs of the linear kernel on the sample grid, on one particle and
    on two: the particle of slot 0 is at the same position in both, and
    receives the same fields. *)
Lemma gather_depends_on_own_particle_witness :
  exists s1' s2',
    gather_field_numba_linear inline_functions.functions 1 0 2 1 0 2
      (sample_state [1] [0] [1]) = (s1', Ok tt) /\
    gather_field_numba_linear inline_functions.functions 1 0 2 1 0 2
      (sample_state [1; 0] [0; 1] [1; 1]) = (s2', Ok tt) /\
    outputs_at s1' 0 = outputs_at s2' 0.
Proof.
  destruct (linear_kernel_uniform 1 0 2 1 0 2 1 (sample_state [1] [0] [1]))
    as (s1' & Hrun1 & _); try lia.
  { apply (sample_state_batch [1] [0] [1]); reflexivity. }
  { apply sample_state_shaped. }
  { apply sample_state_mode1_zero. }
  { intros [| k] Hk xj yj zj Hpos; [| lia].
    injection Hpos as <- <- <-. rewrite sqrt_unit_x. simpl IZR. lra. }
  destruct (linear_kernel_uniform 1 0 2 1 0 2 2 (sample_state [1; 0] [0; 1] [1; 1]))
    as (s2' & Hrun2 & _); try lia.
  { apply (sample_state_batch [1; 0] [0; 1] [1; 1]); reflexivity. }
  { apply sample_state_shaped. }
  { apply sample_state_mode1_zero. }
  { intros [| [| k]] Hk xj yj zj Hpos; [| | lia];
      injection Hpos as <- <- <-;
      rewrite ?sqrt_unit_x, ?sqrt_unit_y; simpl IZR; lra. }
  exists s1', s2'. split; [exact Hrun1 |]. split; [exact Hrun2 |].
  apply (proj1 (gather_depends_on_own_particle inline_functions.functions 1 0 2 1 0 2)
           1%nat 2%nat (sample_state [1] [0] [1]) s1'
           (sample_state [1; 0] [0; 1] [1; 1]) s2').
  - apply (sample_state_batch [1] [0] [1]); reflexivity.
  - apply (sample_state_batch [1; 0] [0; 1] [1; 1]); reflexivity.
  - unfold same_grids. repeat split; reflexivity.
  - exact Hrun1.
  - exact Hrun2.
  - lia.
  - lia.
  - reflexivity.
Defined.

(** ** Cylindrical conversion and phase factors *)

Lemma sqrt_sum_squares (xj yj : R) :
  0 <= sqrt (xj ^ 2 + yj ^ 2) /\
  sqrt (xj ^ 2 + yj ^ 2) * sqrt (xj ^ 2 + yj ^ 2) = xj ^ 2 + yj ^ 2.
Proof.
  split; [apply sqrt_pos |]. apply sqrt_sqrt. nra.
Qed.

(** X6.  The cylindrical conversion at the head of every loop body returns
    a non-negative radius and a unit vector [(cos, sin)], on the axis too,
    and they give back the Cartesian position: [rj cos = xj] and
    [rj sin = yj]. *)
Theorem cylindrical_polar (xj yj : R) :
  match cylindrical xj yj with
  | (rj, cos, sin) =>
      0 <= rj /\ rj * rj = xj ^ 2 + yj ^ 2 /\
      rj * cos = xj /\ rj * sin = yj /\ cos ^ 2 + sin ^ 2 = 1
  end.
Proof.
  unfold cylindrical.
  destruct (sqrt_sum_squares xj yj) as (Hpos & Hsq).
  destruct (Req_dec_T (sqrt (xj ^ 2 + yj ^ 2)) 0) as [Hz | Hnz].
  - rewrite Hz in *.
    assert (Hx : xj = 0) by nra. assert (Hy : yj = 0) by nra.
    subst. repeat split; lra.
  - set (rj := sqrt (xj ^ 2 + yj ^ 2)) in *.
    split; [exact Hpos |]. split; [exact Hsq |].
    split; [field; exact Hnz |]. split; [field; exact Hnz |].
    replace ((xj * (1 / rj)) ^ 2 + (yj * (1 / rj)) ^ 2)
      with ((xj ^ 2 + yj ^ 2) / (rj * rj)) by (field; exact Hnz).
    rewrite Hsq. field. nra.
Qed.

Lemma Cnorm2_mul (c d : complex) : Cnorm2 (Cmul c d) = Cnorm2 c * Cnorm2 d.
Proof. destruct c, d. unfold Cnorm2, Cmul, Cre, Cim. cbn. ring. Qed.

Lemma Cnorm2_iter (c : complex) (p : positive) :
  Cnorm2 c = 1 -> Cnorm2 (Pos.iter (Cmul c) C1 p) = 1.
Proof.
  intros Hc. rewrite Pos2Nat.inj_iter.
  induction (Pos.to_nat p) as [| n IH]; cbn [nat_rect].
  - unfold Cnorm2, C1, Cre, Cim. cbn. ring.
  - rewrite Cnorm2_mul, Hc, IH. ring.
Qed.

Lemma Cnorm2_inv (c : complex) : Cnorm2 c = 1 -> Cnorm2 (Cinv c) = 1.
Proof.
  destruct c as [u v]. unfold Cnorm2, Cinv, Cre, Cim. cbn [fst snd].
  intros Hc. rewrite Hc. lra.
Qed.

(** X7.  The phase factor [(cos - 1j sin) ** m] of the envelope kernels
    has modulus 1 for every integer [m]; for [m = 0] and [m = 1] it is the
    factor [exptheta_m0 = 1] and [exptheta_m1 = cos - 1j sin] of the field
    kernels. *)
Theorem phase_factor_unit (xj yj : R) (m : Z) :
  match cylindrical xj yj with
  | (_, cos, sin) =>
      Cnorm2 (Cpow (cos, - sin) m) = 1 /\
      Cpow (cos, - sin) 0 = RtoC 1 /\
      Cpow (cos, - sin) 1 = (cos, - sin)
  end.
Proof.
  pose proof (cylindrical_polar xj yj) as Hpolar.
  destruct (cylindrical xj yj) as [[rj cos] sin].
  destruct Hpolar as (_ & _ & _ & _ & Hunit). cbv zeta.
  assert (Hc : Cnorm2 (cos, - sin) = 1).
  { unfold Cnorm2, Cre, Cim. cbn. nra. }
  split; [| split].
  - destruct m as [| p | p]; cbn [Cpow].
    + unfold Cnorm2, C1, Cre, Cim. cbn. ring.
    + now apply Cnorm2_iter.
    + apply Cnorm2_inv. now apply Cnorm2_iter.
  - reflexivity.
  - cbn. unfold Cmul, C1. cbn. f_equal; ring.
Qed.

(** ** Bounds on the shape factors *)

(** X8.  The weights of the linear stencil are non-negative and at most 1
    for every position, inside the box or not; at most one of the lower
    radial weight and the guard weight is not zero; the six precalculated
    products are non-negative and add up to 1. *)
Theorem linear_weights_bounds (invdz zmin : R) (Nz : Z) (invdr rmin : R) (Nr : Z)
  (rj zj : R) :
  let st := linear_shape invdz zmin Nz invdr rmin Nr rj zj in
  (0 < Sz_lower st <= 1 /\ 0 <= Sz_upper st < 1) /\
  (0 <= Sr_lower st <= 1 /\ 0 <= Sr_upper st < 1 /\ 0 <= Sr_guard st <= 1) /\
  (Sr_guard st = 0 \/ Sr_lower st = 0) /\
  (0 <= S_ll st /\ 0 <= S_lu st /\ 0 <= S_lg st /\
   0 <= S_ul st /\ 0 <= S_uu st /\ 0 <= S_ug st) /\
  S_ll st + S_lu st + S_lg st + S_ul st + S_uu st + S_ug st = 1.
Proof.
  cbv zeta.
  pose proof (Int_part_bounds (invdr * (rj - rmin) - 0.5)) as Hr.
  pose proof (Int_part_bounds (invdz * (zj - zmin) - 0.5)) as Hz.
  unfold S_ll, S_lu, S_lg, S_ul, S_uu, S_ug, linear_shape.
  destruct (Z.ltb_spec (Int_part (invdr * (rj - rmin) - 0.5)) 0);
    stencil_fields; rewrite !plus_IZR;
    set (a := IZR (Int_part (invdr * (rj - rmin) - 0.5))) in *;
    set (b := IZR (Int_part (invdz * (zj - zmin) - 0.5))) in *;
    set (u := invdr * (rj - rmin) - 0.5) in *;
    set (v := invdz * (zj - zmin) - 0.5) in *;
    repeat split; try lra; try nra; try (left; reflexivity); try (right; reflexivity).
Qed.

Lemma cubic_weights_range (u : R) :
  1 <= u < 2 ->
  0 < S0 u <= 1 / 6 /\ 1 / 6 < S1 u <= 2 / 3 /\
  1 / 6 <= S2 u < 2 / 3 /\ 0 <= S3 u < 1 / 6.
Proof.
  intros Hu. unfold S0, S1, S2, S3.
  set (t := u - 1). assert (Ht : 0 <= t < 1) by (unfold t; lra).
  replace (u - 2) with (t - 1) by (unfold t; ring).
  replace (2 - u) with (1 - t) by (unfold t; ring).
  replace (1 - u) with (- t) by (unfold t; ring).
  assert (H2 : 0 <= t * t < 1) by nra.
  assert (H3 : 0 <= t * t * t < 1) by nra.
  assert (H4 : 0 < (1 - t) * (1 - t) <= 1) by nra.
  assert (H5 : 0 < (1 - t) * (1 - t) * (1 - t) <= 1) by nra.
  repeat split; simpl; nra.
Qed.

(** X9.  In the cubic stencil the local coordinate of the particle lies in
    [[1, 2)] on both axes, for every position, so that the four weights on
    each axis lie between 0 and 2/3, the outer ones being at most 1/6. *)
Theorem cubic_weights_bounds (invdz zmin invdr rmin rj zj : R) :
  let st := cubic_shape invdz zmin invdr rmin rj zj in
  let r_local := invdr * (rj - rmin) - 0.5 - IZR (ir_lowest st) in
  let z_local := invdz * (zj - zmin) - 0.5 - IZR (iz_lowest st) in
  1 <= r_local < 2 /\ 1 <= z_local < 2 /\
  Sr st = cubic_weights r_local /\ Sz st = cubic_weights z_local /\
  Forall (fun w => 0 <= w <= 2 / 3) (Sr st ++ Sz st) /\
  (forall w, In w [nth 0 (Sr st) 0; nth 3 (Sr st) 0;
                   nth 0 (Sz st) 0; nth 3 (Sz st) 0] -> w <= 1 / 6).
Proof.
  cbv zeta. unfold cubic_shape. cbn [ir_lowest iz_lowest Sr Sz].
  pose proof (Int_part_bounds (invdr * (rj - rmin) - 0.5)) as Hr.
  pose proof (Int_part_bounds (invdz * (zj - zmin) - 0.5)) as Hz.
  rewrite !minus_IZR.
  set (ur := invdr * (rj - rmin) - 0.5 - (IZR (Int_part (invdr * (rj - rmin) - 0.5)) - 1)).
  set (uz := invdz * (zj - zmin) - 0.5 - (IZR (Int_part (invdz * (zj - zmin) - 0.5)) - 1)).
  assert (Hur : 1 <= ur < 2) by (unfold ur; lra).
  assert (Huz : 1 <= uz < 2) by (unfold uz; lra).
  pose proof (cubic_weights_range ur Hur) as Wr.
  pose proof (cubic_weights_range uz Huz) as Wz.
  split; [exact Hur |]. split; [exact Huz |].
  split; [reflexivity |]. split; [reflexivity |]. split.
  - unfold cubic_weights. cbn [app].
    repeat (apply Forall_cons; [lra |]). apply Forall_nil.
  - unfold cubic_weights. cbn [nth]. intros w [<- | [<- | [<- | [<- | []]]]]; lra.
Qed.

(** ** Particles at the centre of a cell *)

Lemma Int_part_INR (n : nat) : Int_part (INR n) = Z.of_nat n.
Proof. apply Int_part_unique. rewrite <- INR_IZR_INZ. lra. Qed.

Lemma cubic_weights_centre :
  cubic_weights 1 = [1 / 6; 2 / 3; 1 / 6; 0].
Proof.
  unfold cubic_weights, S0, S1, S2, S3.
  replace (-1 / 6 * (1 - 2) ^ 3) with (1 / 6) by field.
  replace (1 / 6 * (3 * (1 - 1) ^ 3 - 6 * (1 - 1) ^ 2 + 4)) with (2 / 3) by field.
  replace (1 / 6 * (3 * (2 - 1) ^ 3 - 6 * (2 - 1) ^ 2 + 4)) with (1 / 6) by field.
  replace (-1 / 6 * (1 - 1) ^ 3) with 0 by field.
  reflexivity.
Qed.

(** X10.  On a constructed grid, a particle at the centre [(r[j], z[i])]
    of the cell [(i, j)] has the linear stencil anchored at that cell with
    the whole weight on it (the five other products vanish), and the cubic
    stencil anchored one cell below with the weights 1/6, 2/3, 1/6, 0 on
    each axis. *)
Theorem cell_centre_stencil (Nz0 Nr0 m0 : Z) (zmin0 zmax0 rmax0 : R) (uc : bool)
  (g : interpolation_grid.InterpolationGrid) (i j : nat) :
  interpolation_grid.InterpolationGrid_init Nz0 Nr0 m0 zmin0 zmax0 rmax0 uc = Ok g ->
  (i < Z.to_nat Nz0)%nat -> (j < Z.to_nat Nr0)%nat ->
  let rj := nth j (interpolation_grid.r g) 0 in
  let zj := nth i (interpolation_grid.z g) 0 in
  let st := linear_shape (interpolation_grid.invdz g) (interpolation_grid.zmin g)
              (interpolation_grid.Nz g) (interpolation_grid.invdr g)
              (interpolation_grid.rmin g) (interpolation_grid.Nr g) rj zj in
  let cst := cubic_shape (interpolation_grid.invdz g) (interpolation_grid.zmin g)
               (interpolation_grid.invdr g) (interpolation_grid.rmin g) rj zj in
  (iz_lower st = Z.of_nat i /\ ir_lower st = Z.of_nat j) /\
  (S_ll st = 1 /\ S_lu st = 0 /\ S_lg st = 0 /\
   S_ul st = 0 /\ S_uu st = 0 /\ S_ug st = 0) /\
  (iz_lowest cst = (Z.of_nat i - 1)%Z /\ ir_lowest cst = (Z.of_nat j - 1)%Z) /\
  Sr cst = [1 / 6; 2 / 3; 1 / 6; 0] /\ Sz cst = [1 / 6; 2 / 3; 1 / 6; 0].
Proof.
  intros Hg Hi Hj.
  assert (Hnz : ~ (Nr0 = 0%Z \/ Nz0 = 0%Z \/ rmax0 = 0 \/ zmax0 = zmin0)).
  { intros Hz.
    apply interpolation_grid_facts.init_raises_iff with (m := m0) (uc := uc) in Hz.
    congruence. }
  rewrite interpolation_grid_facts.init_nonzero in Hg by tauto. injection Hg as <-.
  cbv zeta. unfold interpolation_grid.r, interpolation_grid.z.
  cbn [interpolation_grid.invdz interpolation_grid.zmin interpolation_grid.Nz
       interpolation_grid.invdr interpolation_grid.rmin interpolation_grid.Nr
       interpolation_grid.dz interpolation_grid.dr].
  set (dr0 := rmax0 / IZR Nr0). set (dz0 := (zmax0 - zmin0) / IZR Nz0).
  assert (HNr : IZR Nr0 <> 0) by (apply not_0_IZR; tauto).
  assert (HNz : IZR Nz0 <> 0) by (apply not_0_IZR; tauto).
  assert (Hdr : dr0 <> 0).
  { unfold dr0, Rdiv. apply Rmult_integral_contrapositive_currified;
      [tauto | now apply Rinv_neq_0_compat]. }
  assert (Hdz : dz0 <> 0).
  { unfold dz0, Rdiv. apply Rmult_integral_contrapositive_currified;
      [lra | now apply Rinv_neq_0_compat]. }
  rewrite (nth_map_lt _ _ _ 0) by now rewrite arange_length.
  rewrite (nth_map_lt _ _ _ 0) by now rewrite arange_length.
  rewrite !arange_nth by assumption.
  assert (Er : 1 / dr0 * (0 + (0.5 + INR j) * dr0 - 0) - 0.5 = INR j) by (field; exact Hdr).
  assert (Ez : 1 / dz0 * (zmin0 + (0.5 + INR i) * dz0 - zmin0) - 0.5 = INR i)
    by (field; exact Hdz).
  unfold S_ll, S_lu, S_lg, S_ul, S_uu, S_ug, linear_shape, cubic_shape.
  rewrite Er, Ez, !Int_part_INR.
  destruct (Z.ltb_spec (Z.of_nat j) 0) as [Hneg | _]; [lia |].
  stencil_fields. cbn [iz_lowest ir_lowest Sr Sz].
  rewrite !minus_IZR, !plus_IZR, <- !INR_IZR_INZ.
  replace (INR j - (INR j - 1)) with 1 by ring.
  replace (INR i - (INR i - 1)) with 1 by ring.
  rewrite cubic_weights_centre.
  split; [split |].
  - z_cases; lia.
  - z_cases; lia.
  - split; [repeat split; ring |]. split; [split; reflexivity |]. split; reflexivity.
Qed.

(** The cell [(1, 2)] of a grid of 2 x 3 cells on the unit box. *)
Lemma cell_centre_stencil_witness :
  exists g,
    interpolation_grid.InterpolationGrid_init 2 3 0 0 1 1 false = Ok g /\
    S_ll (linear_shape (interpolation_grid.invdz g) (interpolation_grid.zmin g)
            (interpolation_grid.Nz g) (interpolation_grid.invdr g)
            (interpolation_grid.rmin g) (interpolation_grid.Nr g)
            (nth 2 (interpolation_grid.r g) 0) (nth 1 (interpolation_grid.z g) 0)) = 1.
Proof.
  destruct (interpolation_grid_facts.init_geometry 2 3 0 0 1 1 false) as (g & Hg & _).
  { unfold interpolation_grid.valid_arguments. repeat split; try lia; lra. }
  exists g. split; [exact Hg |].
  destruct (cell_centre_stencil 2 3 0 0 1 1 false g 1 2 Hg) as (_ & (Hll & _) & _).
  - lia.
  - lia.
  - exact Hll.
Defined.

(** ** Reach of the periodic boundary *)

(** X11.  The periodic treatment along z shifts an index by [Nz] at most
    once: the retained index is the original one, or the original one plus
    or minus [Nz].  On a grid of at least one cell it lies in
    [[0, Nz-1]] exactly when the original index lies in [[-Nz, 2 Nz - 1]],
    that is when the particle is less than one box length outside the
    box; farther away the retained index is out of range. *)
Theorem longitudinal_wrap_reach (invdz zmin : R) (Nz : Z) (invdr rmin : R) (Nr : Z)
  (rj zj : R) :
  (1 <= Nz)%Z ->
  let k := Int_part (invdz * (zj - zmin) - 0.5) in
  let st := linear_shape invdz zmin Nz invdr rmin Nr rj zj in
  ((0 <= iz_lower st <= Nz - 1)%Z <-> (- Nz <= k <= 2 * Nz - 1)%Z) /\
  ((0 <= iz_upper st <= Nz - 1)%Z <-> (- Nz <= k + 1 <= 2 * Nz - 1)%Z) /\
  (iz_lower st = k \/ iz_lower st = (k + Nz)%Z \/ iz_lower st = (k - Nz)%Z) /\
  (iz_upper st = (k + 1)%Z \/ iz_upper st = (k + 1 + Nz)%Z \/
   iz_upper st = (k + 1 - Nz)%Z) /\
  ((k < - Nz)%Z -> (iz_lower st < 0)%Z) /\
  ((2 * Nz <= k)%Z -> (Nz <= iz_lower st)%Z).
Proof.
  intros HNz. cbv zeta. unfold linear_shape.
  set (k := Int_part (invdz * (zj - zmin) - 0.5)).
  destruct (Z.ltb_spec (Int_part (invdr * (rj - rmin) - 0.5)) 0);
    stencil_fields; z_cases; repeat split; intros; lia.
Qed.

(** Three particles on a grid of four cells on [0,4]: 0.4 cell below the
    box the lower index wraps from -1 to 3; 0.2 cell below the upper end
    the upper index wraps from 4 to 0; five cells below the box the
    original index is -6, and the retained index stays negative. *)
Lemma longitudinal_wrap_reach_witness :
  iz_lower (linear_shape 1 0 4 1 0 4 1 (-0.4)) = 3%Z /\
  iz_upper (linear_shape 1 0 4 1 0 4 1 3.8) = 0%Z /\
  (iz_lower (linear_shape 1 0 4 1 0 4 1 (-5)) < 0)%Z.
Proof.
  assert (E1 : Int_part (1 * (-0.4 - 0) - 0.5) = (-1)%Z)
    by (apply Int_part_unique; simpl IZR; lra).
  assert (E2 : Int_part (1 * (3.8 - 0) - 0.5) = 3%Z)
    by (apply Int_part_unique; simpl IZR; lra).
  assert (E3 : Int_part (1 * (-5 - 0) - 0.5) = (-6)%Z)
    by (apply Int_part_unique; simpl IZR; lra).
  split; [| split].
  - destruct (longitudinal_wrap_reach 1 0 4 1 0 4 1 (-0.4)) as (Hl & _ & Hs & _);
      [lia |].
    cbv zeta in Hl, Hs. rewrite E1 in Hl, Hs.
    pose proof (proj2 Hl ltac:(lia)) as Hin. lia.
  - destruct (longitudinal_wrap_reach 1 0 4 1 0 4 1 3.8) as (_ & Hu & _ & Hs & _);
      [lia |].
    cbv zeta in Hu, Hs. rewrite E2 in Hu, Hs.
    pose proof (proj2 Hu ltac:(lia)) as Hin. lia.
  - destruct (longitudinal_wrap_reach 1 0 4 1 0 4 1 (-5)) as (_ & _ & _ & _ & Hfar & _);
      [lia |].
    cbv zeta in Hfar. rewrite E3 in Hfar. apply Hfar. lia.
Defined.

(** ** Chunks of the cubic kernels *)

Lemma for_each_app {S I : Type} (l1 l2 : list I) (body : I -> method S unit) (s : S) :
  for_each (l1 ++ l2) body s =
  mbind (for_each l1 body) (fun _ => for_each l2 body) s.
Proof.
  revert s. induction l1 as [| i t IH]; intros s; cbn.
  - reflexivity.
  - unfold mbind. destruct (body i s) as [s1 [[] | e]]; [| reflexivity].
    rewrite IH. reflexivity.
Qed.

Lemma mbind_congr {S A B : Type} (c1 c2 : method S A) (k1 k2 : A -> method S B) (s : S) :
  c1 s = c2 s -> (forall a s', k1 a s' = k2 a s') -> mbind c1 k1 s = mbind c2 k2 s.
Proof.
  intros Hc Hk. unfold mbind. rewrite Hc.
  destruct (c2 s) as [s1 [a | e]]; [apply Hk | reflexivity].
Qed.

Lemma for_each_single {S I : Type} (i : I) (body : I -> method S unit) (s : S) :
  for_each [i] body s = body i s.
Proof.
  cbn. unfold mbind, mret. destruct (body i s) as [s1 [[] | e]]; reflexivity.
Qed.

Lemma map_seq_shift (lo : Z) (c a n : nat) :
  map (fun k => (lo + Z.of_nat k)%Z) (seq (c + a) n) =
  map (fun k => (lo + Z.of_nat c + Z.of_nat k)%Z) (seq a n).
Proof.
  revert a. induction n as [| n IH]; intros a; cbn [seq map]; [reflexivity |].
  f_equal; [lia |].
  replace (Datatypes.S (c + a)) with (c + Datatypes.S a)%nat by lia. apply IH.
Qed.

Lemma py_range_split (lo mid hi : Z) :
  (lo <= mid <= hi)%Z -> py_range lo hi = py_range lo mid ++ py_range mid hi.
Proof.
  intros Hm. unfold py_range.
  replace (Z.to_nat (hi - lo)) with (Z.to_nat (mid - lo) + Z.to_nat (hi - mid))%nat by lia.
  rewrite seq_app, map_app. f_equal.
  rewrite Nat.add_0_l.
  replace (Z.to_nat (mid - lo)) with (Z.to_nat (mid - lo) + 0)%nat at 1 by lia.
  rewrite map_seq_shift. apply map_ext. intros k. lia.
Qed.

Lemma py_range_succ (n : nat) :
  py_range 0 (Z.of_nat (S n)) = py_range 0 (Z.of_nat n) ++ [Z.of_nat n].
Proof.
  rewrite (py_range_split 0 (Z.of_nat n)) by lia. f_equal.
  unfold py_range. replace (Z.to_nat (Z.of_nat (S n) - Z.of_nat n)) with 1%nat by lia.
  cbn. f_equal. lia.
Qed.

(** A loop over chunks [for nt in range(n): for i in
    range(b[nt], b[nt+1])] with non-decreasing boundaries is the loop over
    [range(b[0], b[n])]. *)
Lemma chunked_loop {S : Type} (body : Z -> method S unit) (b : list Z) (n : nat) :
  length b = Datatypes.S n ->
  (forall k, (k < n)%nat -> (nth k b 0%Z <= nth (Datatypes.S k) b 0%Z)%Z) ->
  forall s,
    for_each (py_range 0 (Z.of_nat n))
      (fun nt =>
         (lo <- lift (py_index b nt) ;;
          hi <- lift (py_index b (nt + 1)) ;;
          for_each (py_range lo hi) body)%method) s =
    for_each (py_range (nth 0 b 0%Z) (nth n b 0%Z)) body s.
Proof.
  intros Hlen Hmono.
  assert (Hle : forall m, (m <= n)%nat -> (nth 0 b 0%Z <= nth m b 0%Z)%Z).
  { induction m as [| m IH]; intros Hm; [lia |].
    specialize (Hmono m ltac:(lia)). specialize (IH ltac:(lia)). lia. }
  assert (Hgen : forall m, (m <= n)%nat -> forall s,
            for_each (py_range 0 (Z.of_nat m))
              (fun nt =>
                 (lo <- lift (py_index b nt) ;;
                  hi <- lift (py_index b (nt + 1)) ;;
                  for_each (py_range lo hi) body)%method) s =
            for_each (py_range (nth 0 b 0%Z) (nth m b 0%Z)) body s).
  { induction m as [| m IH]; intros Hm s.
    - unfold py_range. rewrite !Z.sub_diag. reflexivity.
    - rewrite py_range_succ, for_each_app.
      rewrite (py_range_split (nth 0 b 0%Z) (nth m b 0%Z) (nth (Datatypes.S m) b 0%Z)).
      2:{ split; [apply Hle; lia | apply Hmono; lia]. }
      rewrite for_each_app.
      apply mbind_congr; [apply IH; lia |]. intros _ s1.
      rewrite for_each_single. unfold mbind, lift.
      rewrite (py_index_nat b m 0%Z) by lia.
      replace (Z.of_nat m + 1)%Z with (Z.of_nat (Datatypes.S m)) by lia.
      rewrite (py_index_nat b (Datatypes.S m) 0%Z) by lia.
      reflexivity. }
  intros s. now apply Hgen.
Qed.

(** X12.  The cubic kernels do not depend on how the batch is cut into
    chunks: with [nthreads + 1] non-decreasing boundaries, they run the
    loop body over [range(b[0], b[nthreads])] in one piece, whatever the
    number of threads, the outcome of a failing run included. *)
Theorem cubic_chunks_concatenate (H : InlineFunctions)
  (invdz zmin : R) (Nz : Z) (invdr rmin : R) (Nr : Z)
  (n : nat) (ptcl_chunk_indices : list Z) :
  length ptcl_chunk_indices = Datatypes.S n ->
  (forall k, (k < n)%nat ->
     (nth k ptcl_chunk_indices 0%Z <= nth (Datatypes.S k) ptcl_chunk_indices 0%Z)%Z) ->
  let lo := nth 0 ptcl_chunk_indices 0%Z in
  let hi := nth n ptcl_chunk_indices 0%Z in
  (forall s,
     gather_field_numba_cubic H invdz zmin Nz invdr rmin Nr (Z.of_nat n)
       ptcl_chunk_indices s =
     for_each (py_range lo hi)
       (gather_cubic_particle H invdz zmin Nz invdr rmin Nr) s) /\
  (forall (x y z : list R) (dt : R)
          (a_tuple grad_a_r_tuple grad_a_t_tuple grad_a_z_tuple dta_tuple
             : list ndarray2)
          (m_tuple : list Z) (averaging : bool) (o : envelope_outputs),
     gather_envelope_field_numba_cubic H x y z invdz zmin Nz invdr rmin Nr dt
       a_tuple grad_a_r_tuple grad_a_t_tuple grad_a_z_tuple dta_tuple m_tuple
       (Z.of_nat n) ptcl_chunk_indices averaging o =
     for_each (py_range lo hi)
       (gather_envelope_cubic_particle H x y z invdz zmin Nz invdr rmin Nr dt
          a_tuple grad_a_r_tuple grad_a_t_tuple grad_a_z_tuple dta_tuple
          m_tuple averaging) o).
Proof.
  intros Hlen Hmono. cbv zeta. split.
  - intros s. unfold gather_field_numba_cubic.
    exact (chunked_loop (gather_cubic_particle H invdz zmin Nz invdr rmin Nr)
             ptcl_chunk_indices n Hlen Hmono s).
  - intros. unfold gather_envelope_field_numba_cubic.
    now apply chunked_loop.
Qed.

(** Two particles in two chunks of one particle. *)
Lemma cubic_chunks_concatenate_witness :
  gather_field_numba_cubic inline_functions.functions 1 0 2 1 0 2 (Z.of_nat 2)
    [0; 1; 2]%Z (sample_state [1; 1] [0; 0] [0.5; 1.5]) =
  for_each (py_range 0 2)
    (gather_cubic_particle inline_functions.functions 1 0 2 1 0 2)
    (sample_state [1; 1] [0; 0] [0.5; 1.5]).
Proof.
  apply (cubic_chunks_concatenate inline_functions.functions 1 0 2 1 0 2 2 [0; 1; 2]%Z).
  - reflexivity.
  - intros [| [| k]] Hk; cbn; lia.
Defined.

(** ** Gathering twice *)

Lemma list_set_id {A : Type} (l : list A) (k : nat) (v : A) :
  nth_error l k = Some v -> list_set l k v = l.
Proof.
  revert k. induction l as [| h t IH]; intros [| k] Hk; cbn in *; try discriminate.
  - now injection Hk as ->.
  - now rewrite IH.
Qed.

Lemma for_each_fixed {S I : Type} (l : list I) (body : I -> method S unit) (s : S) :
  (forall i, In i l -> body i s = (s, Ok tt)) -> for_each l body s = (s, Ok tt).
Proof.
  induction l as [| i t IH]; intros Hfix; cbn; [reflexivity |].
  unfold mbind. rewrite (Hfix i (or_introl eq_refl)).
  apply IH. intros j Hj. apply Hfix. now right.
Qed.

(** A loop body that finds in its slot the fields gathered at the position
    of the slot leaves the state as it is. *)
Lemma gather_particle_fixed (g : mode_gather) (N : nat) (s0 s : gather_state) (i : Z) :
  same_inputs s0 s -> batch_of N s -> (0 <= i < Z.of_nat N)%Z ->
  gathered_at g s0 s (Z.to_nat i) ->
  gather_particle g i s = (s, Ok tt).
Proof.
  intros Hin HN Hi (xj & yj & zj & ex & ey & ez & bx & by_ & bz & Hpos & Hf & Hout).
  rewrite <- (same_inputs_position s0 s _ Hin) in Hpos.
  rewrite <- (fields_at_same_grids g s0 s) in Hf by now apply same_inputs_grids.
  pose proof (gather_particle_run g (Z.to_nat i) N s xj yj zj ex ey ez bx by_ bz
                HN Hpos Hf) as Hrun.
  rewrite Z2Nat.id in Hrun by lia. rewrite Hrun.
  unfold outputs_at in Hout. injection Hout as H1 H2 H3 H4 H5 H6.
  rewrite !list_set_id by assumption.
  destruct s; reflexivity.
Qed.

(** X13.  The field gather overwrites its outputs and reads none of them:
    a second call on the state left by a successful call returns and
    changes nothing (linear kernel, and cubic kernel with chunks inside
    the batch). *)
Theorem field_gather_idempotent (H : InlineFunctions)
  (invdz zmin : R) (Nz : Z) (invdr rmin : R) (Nr : Z) :
  (forall (N : nat) (s s' : gather_state),
     batch_of N s ->
     gather_field_numba_linear H invdz zmin Nz invdr rmin Nr s = (s', Ok tt) ->
     gather_field_numba_linear H invdz zmin Nz invdr rmin Nr s' = (s', Ok tt)) /\
  (forall (N : nat) (nthreads : Z) (ptcl_chunk_indices : list Z)
          (s s' : gather_state),
     batch_of N s -> chunks_in_batch nthreads ptcl_chunk_indices N ->
     gather_field_numba_cubic H invdz zmin Nz invdr rmin Nr nthreads
       ptcl_chunk_indices s = (s', Ok tt) ->
     gather_field_numba_cubic H invdz zmin Nz invdr rmin Nr nthreads
       ptcl_chunk_indices s' = (s', Ok tt)).
Proof.
  split.
  - intros N s s' HN Hrun.
    destruct (linear_kernel_processed _ _ _ _ _ _ _ _ _ _ HN Hrun)
      as (Hin & HN' & Hg & _).
    unfold gather_field_numba_linear.
    apply for_each_fixed. intros i Hi. apply in_py_range in Hi.
    assert (Lx : length (x s') = N) by apply HN'. rewrite Lx in Hi.
    rewrite gather_linear_particle_eq.
    apply (gather_particle_fixed _ N s); try assumption; try lia.
    apply Hg. exists i. split; [lia |].
    rewrite <- (Z2Nat.id i) at 1 by lia. apply py_norm_index_nat. lia.
  - intros N nthreads chunks s s' HN Hchunks Hrun.
    destruct (cubic_kernel_processed _ _ _ _ _ _ _ _ _ _ _ _ HN Hrun)
      as (Hin & HN' & Hg & _).
    unfold gather_field_numba_cubic.
    apply for_each_fixed. intros nt Hnt. apply in_py_range in Hnt.
    destruct (Hchunks nt Hnt) as (lo & hi & Hlo & Hhi & Hlo0 & HhiN).
    unfold gather_cubic_chunk, mbind, lift. rewrite Hlo, Hhi.
    apply for_each_fixed. intros i Hi. apply in_py_range in Hi.
    rewrite gather_cubic_particle_eq.
    apply (gather_particle_fixed _ N s); try assumption; try lia.
    apply Hg. exists i. split.
    + exists nt, lo, hi. repeat split; try assumption; lia.
    + rewrite <- (Z2Nat.id i) at 1 by lia. apply py_norm_index_nat. lia.
Qed.

Lemma sample_run :
  exists s',
    gather_field_numba_linear inline_functions.functions 1 0 2 1 0 2
      (sample_state [1] [0] [1]) = (s', Ok tt).
Proof.
  destruct (linear_kernel_uniform 1 0 2 1 0 2 1 (sample_state [1] [0] [1]))
    as (s' & Hrun & _); try lia.
  - apply (sample_state_batch [1] [0] [1]); reflexivity.
  - apply sample_state_shaped.
  - apply sample_state_mode1_zero.
  - intros [| k] Hk xj yj zj Hpos; [| lia].
    injection Hpos as <- <- <-. rewrite sqrt_unit_x. simpl IZR. lra.
  - now exists s'.
Qed.

(** One particle on the sample grid, gathered twice. *)
Lemma field_gather_idempotent_witness :
  exists s',
    gather_field_numba_linear inline_functions.functions 1 0 2 1 0 2
      (sample_state [1] [0] [1]) = (s', Ok tt) /\
    gather_field_numba_linear inline_functions.functions 1 0 2 1 0 2 s' = (s', Ok tt).
Proof.
  destruct sample_run as (s' & Hrun).
  exists s'. split; [exact Hrun |].
  apply (proj1 (field_gather_idempotent inline_functions.functions 1 0 2 1 0 2)
           1%nat (sample_state [1] [0] [1]) s').
  - apply (sample_state_batch [1] [0] [1]); reflexivity.
  - exact Hrun.
Defined.

(** ** Registration of the envelope quantities *)

Lemma nth_list_set_same {A : Type} (l : list A) (k : nat) (v d : A) :
  (k < length l)%nat -> nth k (list_set l k v) d = v.
Proof.
  intros Hk. apply nth_error_nth. now apply list_set_same.
Qed.

Lemma list_set_twice {A : Type} (l : list A) (k : nat) (v w : A) :
  list_set (list_set l k v) k w = list_set l k w.
Proof.
  revert k. induction l as [| h t IH]; intros [| k]; cbn; try reflexivity.
  now rewrite IH.
Qed.

Lemma intensity_real (F : complex) :
  0 <= Cre (intensity F) /\ Cim (intensity F) = 0.
Proof.
  destruct F as [u v]. unfold intensity, Cmul, Cconj, Cre, Cim. cbn [fst snd].
  split; [nra | ring].
Qed.

Lemma unweighted_mean_same (v : R) : unweighted_mean v v = v.
Proof. unfold unweighted_mean. lra. Qed.

(** X14.  Registration at a slot inside the five output arrays returns.
    Without averaging it stores non-negative intensities in [a2] and
    [a2_delayed] and is idempotent.  Registering the same accumulators
    once more with averaging leaves [a2] and the three gradients as they
    are, and replaces the delayed intensity by its mean with the
    intensity.  With averaging, non-negative stored intensities stay
    non-negative. *)
Theorem register_then_average (dt cos sin : R) (k : nat) (acc : envelope_acc)
  (o : envelope_outputs) :
  (k < length (a2 o))%nat -> (k < length (grad_a2_x o))%nat ->
  (k < length (grad_a2_y o))%nat -> (k < length (grad_a2_z o))%nat ->
  (k < length (a2_delayed o))%nat ->
  let o1 := fst (envelope_register false dt cos sin (Z.of_nat k) acc o) in
  let o2 := fst (envelope_register true dt cos sin (Z.of_nat k) acc o1) in
  (0 <= nth k (a2 o1) 0 /\ 0 <= nth k (a2_delayed o1) 0) /\
  envelope_register false dt cos sin (Z.of_nat k) acc o1 = (o1, Ok tt) /\
  snd (envelope_register true dt cos sin (Z.of_nat k) acc o1) = Ok tt /\
  (a2 o2 = a2 o1 /\ grad_a2_x o2 = grad_a2_x o1 /\
   grad_a2_y o2 = grad_a2_y o1 /\ grad_a2_z o2 = grad_a2_z o1) /\
  nth k (a2_delayed o2) 0 =
    unweighted_mean (nth k (a2_delayed o1) 0) (nth k (a2 o1) 0) /\
  (let o' := fst (envelope_register true dt cos sin (Z.of_nat k) acc o) in
   (0 <= nth k (a2 o) 0 -> 0 <= nth k (a2 o') 0) /\
   (0 <= nth k (a2_delayed o) 0 -> 0 <= nth k (a2_delayed o') 0)).
Proof.
  intros H1 H2 H3 H4 H5. destruct acc as [[[[F Fr] Ft] Fz] dtF]. cbv zeta.
  pose proof (envelope_register_run false dt cos sin k F Fr Ft Fz dtF o H1 H2 H3 H4 H5)
    as Hfalse. cbv zeta in Hfalse. rewrite Hfalse. cbn [fst].
  set (o1 := mk_envelope_outputs _ _ _ _ _) in *.
  assert (L1 : (k < length (a2 o1))%nat) by (cbn; now rewrite list_set_length).
  assert (L2 : (k < length (grad_a2_x o1))%nat) by (cbn; now rewrite list_set_length).
  assert (L3 : (k < length (grad_a2_y o1))%nat) by (cbn; now rewrite list_set_length).
  assert (L4 : (k < length (grad_a2_z o1))%nat) by (cbn; now rewrite list_set_length).
  assert (L5 : (k < length (a2_delayed o1))%nat) by (cbn; now rewrite list_set_length).
  rewrite (envelope_register_run false dt cos sin k F Fr Ft Fz dtF o1 L1 L2 L3 L4 L5).
  rewrite (envelope_register_run true dt cos sin k F Fr Ft Fz dtF o1 L1 L2 L3 L4 L5).
  rewrite (envelope_register_run true dt cos sin k F Fr Ft Fz dtF o H1 H2 H3 H4 H5).
  cbn [fst snd a2 grad_a2_x grad_a2_y grad_a2_z a2_delayed].
  unfold o1. cbn [a2 grad_a2_x grad_a2_y grad_a2_z a2_delayed].
  rewrite !list_set_twice, !nth_list_set_same by assumption.
  rewrite !unweighted_mean_same.
  pose proof (intensity_real F) as (HF & _).
  pose proof (intensity_real (half_step_amplitude dt F dtF)) as (HdF & _).
  split; [split; assumption |]. split; [reflexivity |]. split; [reflexivity |].
  split; [repeat split |]. split; [reflexivity |].
  unfold unweighted_mean. split; intros; lra.
Qed.

(** One slot holding zeros, accumulators [F = 1] and a vanishing
    gradient. *)
Lemma register_then_average_witness :
  let o := mk_envelope_outputs [0] [0] [0] [0] [0] in
  let o1 := fst (envelope_register false 1 1 0 (Z.of_nat 0) (C1, C0, C0, C0, C0) o) in
  envelope_register false 1 1 0 (Z.of_nat 0) (C1, C0, C0, C0, C0) o1 = (o1, Ok tt).
Proof.
  cbv zeta.
  apply (register_then_average 1 1 0 0 (C1, C0, C0, C0, C0)
           (mk_envelope_outputs [0] [0] [0] [0] [0])); cbn; lia.
Defined.

(** ** The envelope kernels, slot by slot *)

Lemma linear_envelope_particle_eq (H : InlineFunctions)
  (x y z : list R) (invdz zmin : R) (Nz : Z) (invdr rmin : R) (Nr : Z) (dt : R)
  (a_tuple grad_a_r_tuple grad_a_t_tuple grad_a_z_tuple dta_tuple : list ndarray2)
  (m_tuple : list Z) (averaging : bool) (i : Z) (o : envelope_outputs) :
  gather_envelope_linear_particle H x y z invdz zmin Nz invdr rmin Nr dt
    a_tuple grad_a_r_tuple grad_a_t_tuple grad_a_z_tuple dta_tuple m_tuple
    averaging i o =
  register_after
    (envelope_linear_at H x y z invdz zmin Nz invdr rmin Nr
       a_tuple grad_a_r_tuple grad_a_t_tuple grad_a_z_tuple dta_tuple m_tuple)
    averaging dt i o.
Proof.
  unfold gather_envelope_linear_particle, register_after, envelope_linear_at,
    mbind, lift.
  destruct (py_index x i) as [xj | e]; cbn [rbind]; [| reflexivity].
  destruct (py_index y i) as [yj | e]; cbn [rbind]; [| reflexivity].
  destruct (py_index z i) as [zj | e]; cbn [rbind]; [| reflexivity].
  destruct (cylindrical xj yj) as [[rj cos] sin].
  destruct (envelope_modes_linear _ _ _ _ _ _ _ _ _ _) as [acc | e];
    cbn [rbind]; reflexivity.
Qed.

Lemma cubic_envelope_particle_eq (H : InlineFunctions)
  (x y z : list R) (invdz zmin : R) (Nz : Z) (invdr rmin : R) (Nr : Z) (dt : R)
  (a_tuple grad_a_r_tuple grad_a_t_tuple grad_a_z_tuple dta_tuple : list ndarray2)
  (m_tuple : list Z) (averaging : bool) (i : Z) (o : envelope_outputs) :
  gather_envelope_cubic_particle H x y z invdz zmin Nz invdr rmin Nr dt
    a_tuple grad_a_r_tuple grad_a_t_tuple grad_a_z_tuple dta_tuple m_tuple
    averaging i o =
  register_after
    (envelope_cubic_at H x y z invdz zmin Nz invdr rmin Nr
       a_tuple grad_a_r_tuple grad_a_t_tuple grad_a_z_tuple dta_tuple m_tuple)
    averaging dt i o.
Proof.
  unfold gather_envelope_cubic_particle, register_after, envelope_cubic_at,
    mbind, lift.
  destruct (py_index x i) as [xj | e]; cbn [rbind]; [| reflexivity].
  destruct (py_index y i) as [yj | e]; cbn [rbind]; [| reflexivity].
  destruct (py_index z i) as [zj | e]; cbn [rbind]; [| reflexivity].
  destruct (cylindrical xj yj) as [[rj cos] sin].
  destruct (envelope_modes_cubic _ _ _ _ _ _ _ _ _ _ _ _) as [acc | e];
    cbn [rbind]; reflexivity.
Qed.

Lemma for_each_ext {S I : Type} (l : list I) (body1 body2 : I -> method S unit) :
  (forall i s, body1 i s = body2 i s) ->
  forall s, for_each l body1 s = for_each l body2 s.
Proof.
  intros Hext. induction l as [| i t IH]; intros s; cbn; [reflexivity |].
  apply mbind_congr; [apply Hext | intros _ s'; apply IH].
Qed.

Lemma mbind_ok_inv {S A B : Type} (c : method S A) (k : A -> method S B)
  (s s' : S) (b : B) :
  mbind c k s = (s', Ok b) -> exists s1 a, c s = (s1, Ok a) /\ k a s1 = (s', Ok b).
Proof.
  unfold mbind. destruct (c s) as [s1 [a | e]]; [| discriminate].
  intros Hk. now exists s1, a.
Qed.

Lemma getitem_ok_inv {S A : Type} (get : S -> list A) (k : nat) (s s' : S) (v : A) :
  getitem get (Z.of_nat k) s = (s', Ok v) -> s' = s /\ (k < length (get s))%nat.
Proof.
  unfold getitem. intros [= <- Hv]. split; [reflexivity |].
  apply py_index_inv in Hv. destruct Hv as (k' & Hk' & _).
  apply py_norm_index_lt in Hk' as Hlt.
  unfold py_norm_index in Hk'.
  destruct (Z.leb_spec 0 (Z.of_nat k)); [| lia].
  destruct (Z.ltb_spec (Z.of_nat k) (Z.of_nat (length (get s)))); [lia | discriminate].
Qed.

Lemma setitem_ok_inv {S A : Type} (get : S -> list A) (set : list A -> S -> S)
  (k : nat) (v : A) (s s' : S) :
  setitem get set (Z.of_nat k) v s = (s', Ok tt) ->
  s' = set (list_set (get s) k v) s /\ (k < length (get s))%nat.
Proof.
  unfold setitem, py_setitem, py_norm_index.
  destruct (Z.leb_spec 0 (Z.of_nat k)); [| lia].
  destruct (Z.ltb_spec (Z.of_nat k) (Z.of_nat (length (get s)))); [| discriminate].
  rewrite Nat2Z.id. intros [= <-]. split; [reflexivity | lia].
Qed.

(** A registration that returns has found its slot in the five arrays. *)
Lemma envelope_register_inv (averaging : bool) (dt cos sin : R) (k : nat)
  (acc : envelope_acc) (o o' : envelope_outputs) :
  envelope_register averaging dt cos sin (Z.of_nat k) acc o = (o', Ok tt) ->
  (k < length (a2 o))%nat /\ (k < length (grad_a2_x o))%nat /\
  (k < length (grad_a2_y o))%nat /\ (k < length (grad_a2_z o))%nat /\
  (k < length (a2_delayed o))%nat.
Proof.
  destruct acc as [[[[F Fr] Ft] Fz] dtF]. unfold envelope_register.
  destruct averaging; intros Hrun.
  - apply mbind_ok_inv in Hrun. destruct Hrun as (s1 & v1 & Hg1 & Hrun).
    apply getitem_ok_inv in Hg1. destruct Hg1 as (-> & L1).
    apply mbind_ok_inv in Hrun. destruct Hrun as (s2 & [] & Hs1 & Hrun).
    apply setitem_ok_inv in Hs1. destruct Hs1 as (-> & _).
    apply mbind_ok_inv in Hrun. destruct Hrun as (s3 & v2 & Hg2 & Hrun).
    apply getitem_ok_inv in Hg2. destruct Hg2 as (-> & L2).
    apply mbind_ok_inv in Hrun. destruct Hrun as (s4 & [] & Hs2 & Hrun).
    apply setitem_ok_inv in Hs2. destruct Hs2 as (-> & _).
    apply mbind_ok_inv in Hrun. destruct Hrun as (s5 & v3 & Hg3 & Hrun).
    apply getitem_ok_inv in Hg3. destruct Hg3 as (-> & L3).
    apply mbind_ok_inv in Hrun. destruct Hrun as (s6 & [] & Hs3 & Hrun).
    apply setitem_ok_inv in Hs3. destruct Hs3 as (-> & _).
    apply mbind_ok_inv in Hrun. destruct Hrun as (s7 & v4 & Hg4 & Hrun).
    apply getitem_ok_inv in Hg4. destruct Hg4 as (-> & L4).
    apply mbind_ok_inv in Hrun. destruct Hrun as (s8 & [] & Hs4 & Hrun).
    apply setitem_ok_inv in Hs4. destruct Hs4 as (-> & _).
    apply mbind_ok_inv in Hrun. destruct Hrun as (s9 & v5 & Hg5 & Hrun).
    apply getitem_ok_inv in Hg5. destruct Hg5 as (-> & L5).
    cbn in L2, L3, L4, L5. tauto.
  - apply mbind_ok_inv in Hrun. destruct Hrun as (s1 & [] & Hs1 & Hrun).
    apply setitem_ok_inv in Hs1. destruct Hs1 as (-> & L1).
    apply mbind_ok_inv in Hrun. destruct Hrun as (s2 & [] & Hs2 & Hrun).
    apply setitem_ok_inv in Hs2. destruct Hs2 as (-> & L2).
    apply mbind_ok_inv in Hrun. destruct Hrun as (s3 & [] & Hs3 & Hrun).
    apply setitem_ok_inv in Hs3. destruct Hs3 as (-> & L3).
    apply mbind_ok_inv in Hrun. destruct Hrun as (s4 & [] & Hs4 & Hrun).
    apply setitem_ok_inv in Hs4. destruct Hs4 as (-> & L4).
    apply setitem_ok_inv in Hrun. destruct Hrun as (_ & L5).
    cbn in L2, L3, L4, L5. tauto.
Qed.

Lemma nth_list_set_other {A : Type} (l : list A) (k j : nat) (v d : A) :
  j <> k -> nth j (list_set l k v) d = nth j l d.
Proof.
  revert k j. induction l as [| h t IH]; intros [| k] [| j] Hjk; cbn;
    try reflexivity; try congruence.
  apply IH. congruence.
Qed.

(** One registration: the slot of the particle receives the registered
    values, every other slot and every length is kept. *)
Lemma register_after_step (pre : Z -> result (R * R * envelope_acc))
  (averaging : bool) (dt : R) (n : nat) (o o' : envelope_outputs) :
  register_after pre averaging dt (Z.of_nat n) o = (o', Ok tt) ->
  same_lengths o o' /\
  (exists cos sin acc,
     pre (Z.of_nat n) = Ok (cos, sin, acc) /\
     envelope_slot o' n = registered averaging dt cos sin acc (envelope_slot o n)) /\
  (forall k, k <> n -> envelope_slot o' k = envelope_slot o k).
Proof.
  unfold register_after.
  destruct (pre (Z.of_nat n)) as [[[cos sin] acc] | e]; [| discriminate].
  intros Hrun.
  destruct (envelope_register_inv _ _ _ _ _ _ _ _ Hrun) as (L1 & L2 & L3 & L4 & L5).
  destruct acc as [[[[F Fr] Ft] Fz] dtF].
  rewrite (envelope_register_run averaging dt cos sin n F Fr Ft Fz dtF o L1 L2 L3 L4 L5)
    in Hrun.
  injection Hrun as <-.
  split; [| split].
  - unfold same_lengths. cbn. now rewrite !list_set_length.
  - exists cos, sin, (F, Fr, Ft, Fz, dtF). split; [reflexivity |].
    unfold envelope_slot, registered. cbn [a2 grad_a2_x grad_a2_y grad_a2_z a2_delayed].
    now rewrite !nth_list_set_same by assumption.
  - intros k Hk. unfold envelope_slot. cbn [a2 grad_a2_x grad_a2_y grad_a2_z a2_delayed].
    now rewrite !nth_list_set_other by assumption.
Qed.

Lemma same_lengths_trans (o1 o2 o3 : envelope_outputs) :
  same_lengths o1 o2 -> same_lengths o2 o3 -> same_lengths o1 o3.
Proof.
  unfold same_lengths. intros (A1 & A2 & A3 & A4 & A5) (B1 & B2 & B3 & B4 & B5).
  repeat split; congruence.
Qed.

(** The loop over [range(n)]: every slot below [n] has been registered
    once, from the values it held at the start. *)
Lemma register_loop (pre : Z -> result (R * R * envelope_acc))
  (averaging : bool) (dt : R) (n : nat) :
  forall o o',
    for_each (py_range 0 (Z.of_nat n)) (register_after pre averaging dt) o = (o', Ok tt) ->
    same_lengths o o' /\
    (forall k, (k < n)%nat ->
       exists cos sin acc,
         pre (Z.of_nat k) = Ok (cos, sin, acc) /\
         envelope_slot o' k = registered averaging dt cos sin acc (envelope_slot o k)) /\
    (forall k, (n <= k)%nat -> envelope_slot o' k = envelope_slot o k).
Proof.
  induction n as [| n IH]; intros o o' Hrun.
  - cbn in Hrun. injection Hrun as <-.
    split; [unfold same_lengths; tauto |]. split; [intros k Hk; lia | reflexivity].
  - rewrite py_range_succ, for_each_app in Hrun.
    apply mbind_ok_inv in Hrun. destruct Hrun as (o1 & [] & Hloop & Hlast).
    rewrite for_each_single in Hlast.
    destruct (IH o o1 Hloop) as (Hlen & Hdone & Hrest).
    destruct (register_after_step _ _ _ _ _ _ Hlast)
      as (Hlen' & (cos & sin & acc & Hpre & Hslot) & Hother).
    split; [eapply same_lengths_trans; eassumption |]. split.
    + intros k Hk. destruct (Nat.eq_dec k n) as [-> | Hne].
      * exists cos, sin, acc. split; [exact Hpre |].
        rewrite Hslot. now rewrite Hrest by lia.
      * destruct (Hdone k ltac:(lia)) as (c & s0 & a0 & Hp & Hs).
        exists c, s0, a0. split; [exact Hp |].
        rewrite Hother by assumption. exact Hs.
    + intros k Hk. rewrite Hother by lia. apply Hrest. lia.
Qed.

(** X15.  A call of an envelope kernel that returns has registered every
    particle once: the slot [k] of the five output arrays holds the values
    registered from the accumulators of the particle [k] and from what the
    slot held before the call; the slots beyond the batch and the lengths
    of the arrays are kept.  For the cubic kernel the chunk boundaries are
    non-decreasing from 0 to the number [N] of particles processed. *)
Theorem envelope_kernel_slots (H : InlineFunctions)
  (x y z : list R) (invdz zmin : R) (Nz : Z) (invdr rmin : R) (Nr : Z) (dt : R)
  (a_tuple grad_a_r_tuple grad_a_t_tuple grad_a_z_tuple dta_tuple : list ndarray2)
  (m_tuple : list Z) (averaging : bool) :
  (forall o o',
     gather_envelope_field_numba_linear H x y z invdz zmin Nz invdr rmin Nr dt
       a_tuple grad_a_r_tuple grad_a_t_tuple grad_a_z_tuple dta_tuple m_tuple
       averaging o = (o', Ok tt) ->
     same_lengths o o' /\
     (forall k, (k < length x)%nat ->
        exists cos sin acc,
          envelope_linear_at H x y z invdz zmin Nz invdr rmin Nr
            a_tuple grad_a_r_tuple grad_a_t_tuple grad_a_z_tuple dta_tuple m_tuple
            (Z.of_nat k) = Ok (cos, sin, acc) /\
          envelope_slot o' k = registered averaging dt cos sin acc (envelope_slot o k)) /\
     (forall k, (length x <= k)%nat -> envelope_slot o' k = envelope_slot o k)) /\
  (forall (n N : nat) (ptcl_chunk_indices : list Z) o o',
     length ptcl_chunk_indices = Datatypes.S n ->
     (forall k, (k < n)%nat ->
        (nth k ptcl_chunk_indices 0%Z <= nth (Datatypes.S k) ptcl_chunk_indices 0%Z)%Z) ->
     nth 0 ptcl_chunk_indices 0%Z = 0%Z ->
     nth n ptcl_chunk_indices 0%Z = Z.of_nat N ->
     gather_envelope_field_numba_cubic H x y z invdz zmin Nz invdr rmin Nr dt
       a_tuple grad_a_r_tuple grad_a_t_tuple grad_a_z_tuple dta_tuple m_tuple
       (Z.of_nat n) ptcl_chunk_indices averaging o = (o', Ok tt) ->
     same_lengths o o' /\
     (forall k, (k < N)%nat ->
        exists cos sin acc,
          envelope_cubic_at H x y z invdz zmin Nz invdr rmin Nr
            a_tuple grad_a_r_tuple grad_a_t_tuple grad_a_z_tuple dta_tuple m_tuple
            (Z.of_nat k) = Ok (cos, sin, acc) /\
          envelope_slot o' k = registered averaging dt cos sin acc (envelope_slot o k)) /\
     (forall k, (N <= k)%nat -> envelope_slot o' k = envelope_slot o k)).
Proof.
  split.
  - intros o o' Hrun. unfold gather_envelope_field_numba_linear in Hrun.
    rewrite (for_each_ext _ _ _ (linear_envelope_particle_eq H x y z invdz zmin Nz
               invdr rmin Nr dt a_tuple grad_a_r_tuple grad_a_t_tuple grad_a_z_tuple
               dta_tuple m_tuple averaging)) in Hrun.
    now apply register_loop.
  - intros n N chunks o o' Hlen Hmono Hlo Hhi Hrun.
    unfold gather_envelope_field_numba_cubic in Hrun.
    rewrite (chunked_loop _ chunks n Hlen Hmono) in Hrun.
    rewrite Hlo, Hhi in Hrun.
    rewrite (for_each_ext _ _ _ (cubic_envelope_particle_eq H x y z invdz zmin Nz
               invdr rmin Nr dt a_tuple grad_a_r_tuple grad_a_t_tuple grad_a_z_tuple
               dta_tuple m_tuple averaging)) in Hrun.
    now apply register_loop.
Qed.

(** With an empty tuple of modes the accumulators are zero: one particle,
    without averaging. *)
Lemma empty_modes_run :
  gather_envelope_field_numba_linear inline_functions.functions [1] [0] [1]
    1 0 2 1 0 2 1 [] [] [] [] [] [] false
    (mk_envelope_outputs [1] [1] [1] [1] [1]) =
  (fst (envelope_register false 1 1 0 (Z.of_nat 0) (C0, C0, C0, C0, C0)
          (mk_envelope_outputs [1] [1] [1] [1] [1])), Ok tt).
Proof.
  unfold gather_envelope_field_numba_linear.
  change (py_range 0 (Z.of_nat (length [1]))) with [Z.of_nat 0].
  rewrite for_each_single, linear_envelope_particle_eq.
  unfold register_after, envelope_linear_at.
  change (py_index [1] (Z.of_nat 0)) with (Ok 1).
  change (py_index [0] (Z.of_nat 0)) with (Ok 0).
  cbn [rbind]. rewrite cylindrical_x_axis.
  change (envelope_modes_linear _ _ _ _ _ _ _ _ _ [])
    with (@Ok envelope_acc (C0, C0, C0, C0, C0)).
  cbn [rbind].
  rewrite (envelope_register_run false 1 1 0 0 C0 C0 C0 C0 C0) by (cbn; lia).
  reflexivity.
Qed.

(** The loop of an envelope kernel returns when the accumulators of every
    particle are computed and the five output arrays have a slot for every
    particle. *)
Lemma register_loop_runs (pre : Z -> result (R * R * envelope_acc))
  (averaging : bool) (dt : R) (n : nat) (o : envelope_outputs) :
  (forall k, (k < n)%nat -> exists v, pre (Z.of_nat k) = Ok v) ->
  (n <= length (a2 o))%nat -> (n <= length (grad_a2_x o))%nat ->
  (n <= length (grad_a2_y o))%nat -> (n <= length (grad_a2_z o))%nat ->
  (n <= length (a2_delayed o))%nat ->
  exists o',
    for_each (py_range 0 (Z.of_nat n)) (register_after pre averaging dt) o = (o', Ok tt).
Proof.
  intros Hpre L1 L2 L3 L4 L5.
  destruct (for_each_run
              (fun st : envelope_outputs =>
                 (n <= length (a2 st))%nat /\ (n <= length (grad_a2_x st))%nat /\
                 (n <= length (grad_a2_y st))%nat /\ (n <= length (grad_a2_z st))%nat /\
                 (n <= length (a2_delayed st))%nat)
              (register_after pre averaging dt) (py_range 0 (Z.of_nat n)))
    with (s := o) as (o' & Hrun & _).
  - intros i st Hi (M1 & M2 & M3 & M4 & M5). apply in_py_range in Hi.
    destruct (Hpre (Z.to_nat i) ltac:(lia)) as ([[c0 s0] [[[[F Fr] Ft] Fz] dtF]] & Hv).
    rewrite Z2Nat.id in Hv by lia.
    unfold register_after. rewrite Hv.
    rewrite <- (Z2Nat.id i) by lia.
    rewrite (envelope_register_run averaging dt c0 s0 (Z.to_nat i) F Fr Ft Fz dtF st)
      by lia.
    eexists. split; [reflexivity |].
    cbn [a2 grad_a2_x grad_a2_y grad_a2_z a2_delayed].
    rewrite !list_set_length. tauto.
  - tauto.
  - now exists o'.
Qed.

Lemma Cadd_C0_Cmul_C1 (c : complex) : Cadd C0 (Cmul c C1) = c.
Proof.
  destruct c as [cr ci]. unfold Cadd, Cmul, C0, C1. cbn [fst snd]. f_equal; ring.
Qed.

(** The loop over the single mode 0 of the linear envelope kernel, with
    the inline functions modelled from the specification, on uniform
    arrays: the accumulators are the constants of the arrays. *)
Lemma envelope_mode0_uniform (cos sin : R) (st : linear_stencil) (Nz Nr : Z)
  (A Gr Gt Gz D : ndarray2) (ca cr ct cz cd : complex) :
  has_shape A Nz Nr -> has_shape Gr Nz Nr -> has_shape Gt Nz Nr ->
  has_shape Gz Nz Nr -> has_shape D Nz Nr ->
  (0 <= ir_lower st <= Nr - 1)%Z -> (0 <= ir_upper st <= Nr - 1)%Z ->
  (0 <= iz_lower st <= Nz - 1)%Z -> (0 <= iz_upper st <= Nz - 1)%Z ->
  S_ll st + S_lu st + S_ul st + S_uu st + (S_lg st + S_ug st) = 1 ->
  uniform A ca -> uniform Gr cr -> uniform Gt ct -> uniform Gz cz -> uniform D cd ->
  envelope_modes_linear inline_functions.functions cos sin st
    [A] [Gr] [Gt] [Gz] [D] [0%Z] = Ok (ca, cr, ct, cz, cd).
Proof.
  intros SA SGr SGt SGz SD Hrl Hru Hzl Hzu Hsum UA UGr UGt UGz UD.
  destruct (linear_interp_uniform 0 A Nz Nr st SA Hrl Hru Hzl Hzu Hsum) as (v1 & E1 & U1).
  destruct (linear_interp_uniform 0 Gr Nz Nr st SGr Hrl Hru Hzl Hzu Hsum) as (v2 & E2 & U2).
  destruct (linear_interp_uniform 0 Gt Nz Nr st SGt Hrl Hru Hzl Hzu Hsum) as (v3 & E3 & U3).
  destruct (linear_interp_uniform 0 Gz Nz Nr st SGz Hrl Hru Hzl Hzu Hsum) as (v4 & E4 & U4).
  destruct (linear_interp_uniform 0 D Nz Nr st SD Hrl Hru Hzl Hzu Hsum) as (v5 & E5 & U5).
  unfold envelope_modes_linear.
  change (py_range 0 (Z.of_nat (length [0%Z]))) with [0%Z].
  cbn [fold_result].
  change (py_index [0%Z] 0) with (@Ok Z 0%Z).
  change (py_index [A] 0) with (Ok A). change (py_index [Gr] 0) with (Ok Gr).
  change (py_index [Gt] 0) with (Ok Gt). change (py_index [Gz] 0) with (Ok Gz).
  change (py_index [D] 0) with (Ok D).
  cbn [rbind add_linear_envelope_gather_for_mode inline_functions.functions].
  unfold inline_functions.add_linear_envelope_gather_for_mode. cbv zeta.
  rewrite E1, E2, E3, E4, E5. cbn [rbind Cpow].
  rewrite (U1 ca UA), (U2 cr UGr), (U3 ct UGt), (U4 cz UGz), (U5 cd UD) by now left.
  now rewrite !Cadd_C0_Cmul_C1.
Qed.

(** Two particles at the middle of a grid of 2 x 2 cells, one on the x
    axis and one on the y axis, one cell away from the axis; the arrays of
    the amplitude and of its radial gradient are uniformly [1+0i], the
    other arrays are zero, and the single mode is 0. *)
Lemma sample_envelope_at (k : nat) (cos sin : R) :
  (k = 0%nat /\ cos = 1 /\ sin = 0) \/ (k = 1%nat /\ cos = 0 /\ sin = 1) ->
  envelope_linear_at inline_functions.functions [1; 0] [0; 1] [1; 1] 1 0 2 1 0 2
    [np_full 2 2 C1] [np_full 2 2 C1] [np_full 2 2 C0] [np_full 2 2 C0]
    [np_full 2 2 C0] [0%Z] (Z.of_nat k) = Ok (cos, sin, (C1, C1, C0, C0, C0)).
Proof.
  assert (Hmodes : forall c0 s0,
            envelope_modes_linear inline_functions.functions c0 s0
              (linear_shape 1 0 2 1 0 2 1 1)
              [np_full 2 2 C1] [np_full 2 2 C1] [np_full 2 2 C0] [np_full 2 2 C0]
              [np_full 2 2 C0] [0%Z] = Ok (C1, C1, C0, C0, C0)).
  { intros c0 s0.
    destruct (linear_shape_indices 1 0 2 1 0 2 1 1) as (Hrl & Hru & Hzl & Hzu);
      try lia; try (simpl IZR; lra).
    apply (envelope_mode0_uniform c0 s0 _ 2 2); try assumption;
      try (split; reflexivity); try (intros i j _ _; reflexivity).
    apply (linear_weights_sum 1 0 2 1 0 2 1 1). }
  unfold envelope_linear_at.
  intros [(-> & -> & ->) | (-> & -> & ->)].
  - change (py_index [1; 0] (Z.of_nat 0)) with (Ok 1).
    change (py_index [0; 1] (Z.of_nat 0)) with (Ok 0).
    change (py_index [1; 1] (Z.of_nat 0)) with (Ok 1).
    cbn [rbind]. rewrite cylindrical_x_axis. rewrite Hmodes. reflexivity.
  - change (py_index [1; 0] (Z.of_nat 1)) with (Ok 0).
    change (py_index [0; 1] (Z.of_nat 1)) with (Ok 1).
    change (py_index [1; 1] (Z.of_nat 1)) with (Ok 1).
    cbn [rbind]. rewrite cylindrical_y_axis. rewrite Hmodes. reflexivity.
Qed.

Lemma registered_sample (cos sin : R) (old : R * R * R * R * R) :
  registered false 1 cos sin (C1, C1, C0, C0, C0) old = (1, 2 * cos, 2 * sin, 0, 1).
Proof.
  destruct old as [[[[o1 o2] o3] o4] o5].
  unfold registered, intensity, intensity_gradient, half_step_amplitude,
    Cmul, Cconj, Cadd, Csub, Cscale, Cre, C0, C1.
  cbn [fst snd]. repeat (f_equal; try ring).
Qed.

(** The call on these two particles, without averaging, on output arrays
    that hold 7 everywhere: the particle on the x axis receives the
    intensity 1, the gradient (2, 0, 0) and the delayed intensity 1, the
    particle on the y axis the gradient (0, 2, 0). *)
Lemma envelope_kernel_slots_witness :
  let o := mk_envelope_outputs [7; 7] [7; 7] [7; 7] [7; 7] [7; 7] in
  exists o',
    gather_envelope_field_numba_linear inline_functions.functions
      [1; 0] [0; 1] [1; 1] 1 0 2 1 0 2 1
      [np_full 2 2 C1] [np_full 2 2 C1] [np_full 2 2 C0] [np_full 2 2 C0]
      [np_full 2 2 C0] [0%Z] false o = (o', Ok tt) /\
    same_lengths o o' /\
    envelope_slot o' 0 = (1, 2 * 1, 2 * 0, 0, 1) /\
    envelope_slot o' 1 = (1, 2 * 0, 2 * 1, 0, 1).
Proof.
  cbv zeta.
  set (o := mk_envelope_outputs [7; 7] [7; 7] [7; 7] [7; 7] [7; 7]).
  assert (Hrun : exists o',
            gather_envelope_field_numba_linear inline_functions.functions
              [1; 0] [0; 1] [1; 1] 1 0 2 1 0 2 1
              [np_full 2 2 C1] [np_full 2 2 C1] [np_full 2 2 C0] [np_full 2 2 C0]
              [np_full 2 2 C0] [0%Z] false o = (o', Ok tt)).
  { unfold gather_envelope_field_numba_linear.
    destruct (register_loop_runs
                (envelope_linear_at inline_functions.functions [1; 0] [0; 1] [1; 1]
                   1 0 2 1 0 2 [np_full 2 2 C1] [np_full 2 2 C1] [np_full 2 2 C0]
                   [np_full 2 2 C0] [np_full 2 2 C0] [0%Z])
                false 1 2 o) as (o' & Ho'); try (cbn; lia).
    - intros [| [| k]] Hk; [| | lia]; eexists; apply sample_envelope_at; auto.
    - exists o'. rewrite <- Ho'. apply for_each_ext.
      intros i st. apply linear_envelope_particle_eq. }
  destruct Hrun as (o' & Hrun). exists o'. split; [exact Hrun |].
  destruct (proj1 (envelope_kernel_slots inline_functions.functions
                     [1; 0] [0; 1] [1; 1] 1 0 2 1 0 2 1
                     [np_full 2 2 C1] [np_full 2 2 C1] [np_full 2 2 C0]
                     [np_full 2 2 C0] [np_full 2 2 C0] [0%Z] false) o o' Hrun)
    as (Hlen & Hslots & _).
  split; [exact Hlen |]. split.
  - destruct (Hslots 0%nat ltac:(cbn; lia)) as (c0 & s0 & acc & Hat & Hslot).
    rewrite (sample_envelope_at 0 1 0) in Hat by auto.
    injection Hat as <- <- <-. rewrite Hslot. apply registered_sample.
  - destruct (Hslots 1%nat ltac:(cbn; lia)) as (c0 & s0 & acc & Hat & Hslot).
    rewrite (sample_envelope_at 1 0 1) in Hat by auto.
    injection Hat as <- <- <-. rewrite Hslot. apply registered_sample.
Defined.

(** ** Modes and tuples *)

Lemma fold_result_ext {A I : Type} (l : list I) (body1 body2 : I -> A -> result A) :
  (forall i acc, In i l -> body1 i acc = body2 i acc) ->
  forall acc, fold_result l body1 acc = fold_result l body2 acc.
Proof.
  induction l as [| i t IH]; intros Hext acc; cbn; [reflexivity |].
  rewrite (Hext i acc (or_introl eq_refl)).
  destruct (body2 i acc) as [acc' | e]; cbn [rbind]; [| reflexivity].
  apply IH. intros j acc0 Hj. apply Hext. now right.
Qed.

Lemma py_range_length (lo hi : Z) : length (py_range lo hi) = Z.to_nat (hi - lo).
Proof. unfold py_range. now rewrite length_map, length_seq. Qed.

Lemma py_index_py_range (n i : Z) :
  (0 <= i < n)%Z -> py_index (py_range 0 n) i = Ok i.
Proof.
  intros Hi. rewrite <- (Z2Nat.id i) at 1 by lia.
  rewrite (py_index_nat _ _ 0%Z) by (rewrite py_range_length; lia).
  unfold py_range.
  rewrite (nth_map_lt _ _ _ 0%nat) by (rewrite length_seq; lia).
  rewrite seq_nth by lia. f_equal. lia.
Qed.

(** X16.  When the tuple of modes is [(0, 1, ..., n-1)], the loop over the
    modes of the cubic envelope kernel, which indexes the tuples of arrays
    by the mode number, pairs every mode with the arrays of its own
    position in the tuples, as the loop of the linear kernel does. *)
Theorem cubic_modes_in_natural_order (H : InlineFunctions) (cos sin : R)
  (st : cubic_stencil) (Nr Nz : Z)
  (a_tuple grad_a_r_tuple grad_a_t_tuple grad_a_z_tuple dta_tuple : list ndarray2)
  (n : Z) :
  let m_tuple := py_range 0 n in
  envelope_modes_cubic H cos sin st Nr Nz a_tuple grad_a_r_tuple grad_a_t_tuple
    grad_a_z_tuple dta_tuple m_tuple =
  fold_result (py_range 0 (Z.of_nat (length m_tuple)))
    (fun it '(F, Fr, Ft, Fz, dtF) =>
       (m <- py_index m_tuple it ;;
        a_m <- py_index a_tuple it ;;
        grad_a_r_m <- py_index grad_a_r_tuple it ;;
        grad_a_t_m <- py_index grad_a_t_tuple it ;;
        grad_a_z_m <- py_index grad_a_z_tuple it ;;
        dta_m <- py_index dta_tuple it ;;
        let exptheta_m := Cpow (cos, - sin) m in
        add_cubic_envelope_gather_for_mode H m F Fr Ft Fz dtF exptheta_m
          a_m grad_a_r_m grad_a_t_m grad_a_z_m dta_m
          (ir_lowest st) (iz_lowest st) (Sr st) (Sz st) Nr Nz)%result)
    (C0, C0, C0, C0, C0).
Proof.
  cbv zeta. unfold envelope_modes_cubic.
  assert (Hrange : py_range 0 (Z.of_nat (length (py_range 0 n))) = py_range 0 n).
  { rewrite py_range_length. unfold py_range. f_equal. f_equal. lia. }
  rewrite Hrange.
  apply fold_result_ext. intros m [[[[F Fr] Ft] Fz] dtF] Hm.
  apply in_py_range in Hm.
  now rewrite py_index_py_range by assumption.
Qed.

Lemma registered_zero (averaging : bool) (dt cos sin : R) (old : R * R * R * R * R) :
  registered averaging dt cos sin (C0, C0, C0, C0, C0) old =
  if averaging then
    let '(old_a2, old_x, old_y, old_z, old_delayed) := old in
    (0.5 * old_a2, 0.5 * old_x, 0.5 * old_y, 0.5 * old_z, 0.5 * old_delayed)
  else (0, 0, 0, 0, 0).
Proof.
  destruct old as [[[[o1 o2] o3] o4] o5].
  unfold registered, unweighted_mean, intensity, intensity_gradient,
    half_step_amplitude, Cmul, Cconj, Cadd, Csub, Cscale, Cre, C0.
  cbn [fst snd].
  destruct averaging; repeat (f_equal; try ring).
Qed.

(** X17.  With an empty tuple of modes the kernels never call the inline
    functions and the accumulators stay zero: a call of the linear
    envelope kernel that returns has written zeros in the five arrays at
    every slot of the batch or, with averaging, has halved what they
    held. *)
Theorem empty_modes_register_zero (H : InlineFunctions)
  (x y z : list R) (invdz zmin : R) (Nz : Z) (invdr rmin : R) (Nr : Z) (dt : R)
  (a_tuple grad_a_r_tuple grad_a_t_tuple grad_a_z_tuple dta_tuple : list ndarray2)
  (averaging : bool) (o o' : envelope_outputs) :
  gather_envelope_field_numba_linear H x y z invdz zmin Nz invdr rmin Nr dt
    a_tuple grad_a_r_tuple grad_a_t_tuple grad_a_z_tuple dta_tuple []
    averaging o = (o', Ok tt) ->
  forall k, (k < length x)%nat ->
    envelope_slot o' k =
    if averaging then
      let '(old_a2, old_x, old_y, old_z, old_delayed) := envelope_slot o k in
      (0.5 * old_a2, 0.5 * old_x, 0.5 * old_y, 0.5 * old_z, 0.5 * old_delayed)
    else (0, 0, 0, 0, 0).
Proof.
  intros Hrun k Hk. unfold gather_envelope_field_numba_linear in Hrun.
  rewrite (for_each_ext _ _ _ (linear_envelope_particle_eq H x y z invdz zmin Nz
             invdr rmin Nr dt a_tuple grad_a_r_tuple grad_a_t_tuple grad_a_z_tuple
             dta_tuple [] averaging)) in Hrun.
  apply register_loop in Hrun. destruct Hrun as (_ & Hdone & _).
  destruct (Hdone k Hk) as (cos & sin & acc & Hpre & Hslot).
  unfold envelope_linear_at in Hpre.
  destruct (py_index x (Z.of_nat k)) as [xj | e]; cbn [rbind] in Hpre; [| discriminate].
  destruct (py_index y (Z.of_nat k)) as [yj | e]; cbn [rbind] in Hpre; [| discriminate].
  destruct (py_index z (Z.of_nat k)) as [zj | e]; cbn [rbind] in Hpre; [| discriminate].
  destruct (cylindrical xj yj) as [[rj c0] s0].
  cbn in Hpre. injection Hpre as <- <- <-.
  rewrite Hslot. apply registered_zero.
Qed.

(** One particle, without averaging: the five arrays receive zeros. *)
Lemma empty_modes_register_zero_witness :
  envelope_slot
    (fst (envelope_register false 1 1 0 (Z.of_nat 0) (C0, C0, C0, C0, C0)
            (mk_envelope_outputs [1] [1] [1] [1] [1]))) 0 = (0, 0, 0, 0, 0).
Proof.
  apply (empty_modes_register_zero inline_functions.functions [1] [0] [1]
           1 0 2 1 0 2 1 [] [] [] [] [] false
           (mk_envelope_outputs [1] [1] [1] [1] [1]) _ empty_modes_run 0%nat).
  cbn. lia.
Defined.

(** ** Conversion to Cartesian components *)

(** X18.  The conversion of the gathered radial and azimuthal components
    to Cartesian components (lines 171-172 and 194-195) is a rotation by
    the angle of the particle: the fields [(Ex, Ey)] and [(Bx, By)]
    written by a loop body have the transverse magnitude of the gathered
    pair, which is recovered from them by the inverse rotation. *)
Theorem cartesian_conversion_rotates (g : mode_gather) (s : gather_state)
  (xj yj zj ex ey ez bx by_ bz : R) :
  fields_at g s xj yj zj = Ok (ex, ey, ez, bx, by_, bz) ->
  match cylindrical xj yj with
  | (rj, cos, sin) =>
      exists Er Et Br Bt : R,
        (' (Fr, Ft, Fz) <- g rj zj 0%Z 0 0 0 (RtoC 1) (Er_m0 s) (Et_m0 s) (Ez_m0 s) ;;
         g rj zj 1%Z Fr Ft Fz (cos, - sin) (Er_m1 s) (Et_m1 s) (Ez_m1 s))%result
          = Ok (Er, Et, ez) /\
        (' (Fr, Ft, Fz) <- g rj zj 0%Z 0 0 0 (RtoC 1) (Br_m0 s) (Bt_m0 s) (Bz_m0 s) ;;
         g rj zj 1%Z Fr Ft Fz (cos, - sin) (Br_m1 s) (Bt_m1 s) (Bz_m1 s))%result
          = Ok (Br, Bt, bz) /\
        ex ^ 2 + ey ^ 2 = Er ^ 2 + Et ^ 2 /\ bx ^ 2 + by_ ^ 2 = Br ^ 2 + Bt ^ 2 /\
        Er = cos * ex + sin * ey /\ Et = - sin * ex + cos * ey /\
        Br = cos * bx + sin * by_ /\ Bt = - sin * bx + cos * by_
  end.
Proof.
  intros Hf. unfold fields_at in Hf.
  pose proof (cylindrical_polar xj yj) as Hpolar.
  destruct (cylindrical xj yj) as [[rj cos] sin].
  destruct Hpolar as (_ & _ & _ & _ & Hunit).
  destruct (g rj zj 0%Z 0 0 0 (RtoC 1) (Er_m0 s) (Et_m0 s) (Ez_m0 s))
    as [[[e1 e2] e3] | e]; cbn [rbind] in Hf |- *; [| discriminate].
  destruct (g rj zj 1%Z e1 e2 e3 (cos, - sin) (Er_m1 s) (Et_m1 s) (Ez_m1 s))
    as [[[Er Et] Ez'] | e]; cbn [rbind] in Hf |- *; [| discriminate].
  destruct (g rj zj 0%Z 0 0 0 (RtoC 1) (Br_m0 s) (Bt_m0 s) (Bz_m0 s))
    as [[[b1 b2] b3] | e]; cbn [rbind] in Hf |- *; [| discriminate].
  destruct (g rj zj 1%Z b1 b2 b3 (cos, - sin) (Br_m1 s) (Bt_m1 s) (Bz_m1 s))
    as [[[Br Bt] Bz'] | e]; cbn [rbind] in Hf |- *; [| discriminate].
  injection Hf as <- <- <- <- <- <-.
  exists Er, Et, Br, Bt.
  split; [reflexivity |]. split; [reflexivity |].
  assert (Hc : cos * cos + sin * sin = 1) by (simpl in Hunit; lra).
  repeat split.
  - replace ((cos * Er - sin * Et) ^ 2 + (sin * Er + cos * Et) ^ 2)
      with ((cos * cos + sin * sin) * (Er ^ 2 + Et ^ 2)) by ring.
    rewrite Hc. ring.
  - replace ((cos * Br - sin * Bt) ^ 2 + (sin * Br + cos * Bt) ^ 2)
      with ((cos * cos + sin * sin) * (Br ^ 2 + Bt ^ 2)) by ring.
    rewrite Hc. ring.
  - replace (cos * (cos * Er - sin * Et) + sin * (sin * Er + cos * Et))
      with ((cos * cos + sin * sin) * Er) by ring. rewrite Hc. ring.
  - replace (- sin * (cos * Er - sin * Et) + cos * (sin * Er + cos * Et))
      with ((cos * cos + sin * sin) * Et) by ring. rewrite Hc. ring.
  - replace (cos * (cos * Br - sin * Bt) + sin * (sin * Br + cos * Bt))
      with ((cos * cos + sin * sin) * Br) by ring. rewrite Hc. ring.
  - replace (- sin * (cos * Br - sin * Bt) + cos * (sin * Br + cos * Bt))
      with ((cos * cos + sin * sin) * Bt) by ring. rewrite Hc. ring.
Qed.

Lemma cylindrical_3_4 : cylindrical 3 4 = (5, 3 * (1 / 5), 4 * (1 / 5)).
Proof.
  unfold cylindrical.
  replace (3 ^ 2 + 4 ^ 2) with (5 * 5) by ring.
  rewrite sqrt_square by lra.
  destruct (Req_dec_T 5 0) as [E | _]; [lra | reflexivity].
Qed.

(** A particle of the sample grid at [(x, y) = (3, 4)], where
    [cos = 3/5] and [sin = 4/5]: the gathered radial and azimuthal
    components are 1 and 0, and the gather writes [Ex = 3/5] and
    [Ey = 4/5]. *)
Lemma cartesian_conversion_rotates_witness :
  let g := linear_mode_gather inline_functions.functions 1 0 2 1 0 2 in
  let s := sample_state [3] [4] [1] in
  fields_at g s 3 4 1 = Ok (3 * (1 / 5), 4 * (1 / 5), 0, 0, 0, 0) /\
  exists Er Et : R,
    (' (Fr, Ft, Fz) <- g 5 1 0%Z 0 0 0 (RtoC 1) (Er_m0 s) (Et_m0 s) (Ez_m0 s) ;;
     g 5 1 1%Z Fr Ft Fz (3 * (1 / 5), - (4 * (1 / 5)))
       (Er_m1 s) (Et_m1 s) (Ez_m1 s))%result = Ok (Er, Et, 0) /\
    Er = 1 /\ Et = 0 /\
    (3 * (1 / 5)) ^ 2 + (4 * (1 / 5)) ^ 2 = Er ^ 2 + Et ^ 2.
Proof.
  cbv zeta.
  pose proof (sample_fields_at [3] [4] [1] 3 4 1 _ _ _ cylindrical_3_4 ltac:(lra)) as Hf.
  split; [exact Hf |].
  pose proof (cartesian_conversion_rotates _ _ _ _ _ _ _ _ _ _ _ Hf) as Hrot.
  rewrite cylindrical_3_4 in Hrot.
  destruct Hrot as (Er & Et & Br & Bt & HE & _ & Hnorm & _ & HEr & HEt & _).
  exists Er, Et. split; [exact HE |].
  split; [rewrite HEr; field |]. split; [rewrite HEt; field | exact Hnorm].
Defined.

End threading_methods_facts.
